(** * Breathing visualisation app (app.py): percentages, timings, renderer
      and animation loop

    The Python program is embedded shallowly.  Python [float]s are IEEE-754
    binary64 numbers and are modelled by Rocq's primitive floats, so the
    arithmetic of the program is evaluated with the roundings the
    interpreter performs.  Python [int]s are [Z]. *)

From Stdlib Require Import ZArith QArith Qabs Qround Qpower Floats List String.
From Stdlib Require Import Bool Lia Lqa.
From Stdlib Require Import DecimalString.
Import ListNotations.

Set Warnings "-inexact-float".
Local Open Scope string_scope.
Local Open Scope list_scope.
Local Open Scope Z_scope.

(** ** Python values and exceptions *)

(** An exception object.  [except Exception] selects by class, so the model
    keeps the one distinction the handler of [run_breathing_animation]
    makes: instances of [Exception] (ValueError, ZeroDivisionError,
    RuntimeError, ...) against the instances of [BaseException] that are
    not ([KeyboardInterrupt], [SystemExit], [GeneratorExit]).  The first
    string is the class name, the second is [str(e)]. *)
Inductive PyExn : Type :=
| ExceptionInstance (cls msg : string)
| BaseExceptionOnly (cls msg : string).

Definition is_Exception (e : PyExn) : bool :=
  match e with
  | ExceptionInstance _ _ => true
  | BaseExceptionOnly _ _ => false
  end.

Definition exn_str (e : PyExn) : string :=
  match e with
  | ExceptionInstance _ m => m
  | BaseExceptionOnly _ m => m
  end.

(** Result of evaluating a Python expression: a value or a raised exception. *)
Inductive Res (A : Type) : Type :=
| Ok (a : A)
| Raise (e : PyExn).
Arguments Ok {A} a.
Arguments Raise {A} e.

Definition res_bind {A B : Type} (r : Res A) (k : A -> Res B) : Res B :=
  match r with
  | Ok a => k a
  | Raise e => Raise e
  end.

Declare Scope res_scope.
Delimit Scope res_scope with res.
Notation "x <- c ;; k" := (res_bind c (fun x => k))
  (at level 61, c at next level, right associativity) : res_scope.

Module Py.

(** [float(n)] for an [int] [n]: the nearest binary64 number (exact below
    2^53, which covers every integer the program handles). *)
Definition float_of_Z (z : Z) : float :=
  SF2Prim (binary_normalize prec emax z 0 false).

(** [int(x)] for a [float] [x]: truncation toward zero; NaN and the
    infinities raise. *)
Definition int (x : float) : Res Z :=
  match Prim2SF x with
  | S754_zero _ => Ok 0
  | S754_finite s m e =>
      let v := if 0 <=? e then Zpos m * 2 ^ e else Zpos m / 2 ^ (- e) in
      Ok (if s then - v else v)
  | S754_infinity _ =>
      Raise (ExceptionInstance "OverflowError"
               "cannot convert float infinity to integer")
  | S754_nan =>
      Raise (ExceptionInstance "ValueError"
               "cannot convert float NaN to integer")
  end.

(** [a / b] on two [int]s (true division).  For operands below 2^53 the
    correctly rounded quotient is the binary64 quotient of the converted
    operands. *)
Definition truediv (a b : Z) : Res float :=
  if b =? 0
  then Raise (ExceptionInstance "ZeroDivisionError" "division by zero")
  else Ok (float_of_Z a / float_of_Z b)%float.

(** [n * x] for an [int] [n] and a [float] [x]. *)
Definition imul (n : Z) (x : float) : float := (float_of_Z n * x)%float.

(** [str(n)] for an [int] [n]. *)
Definition str (n : Z) : string := NilZero.string_of_int (Z.to_int n).

(** [range(n)]. *)
Definition range (n : Z) : list Z := map Z.of_nat (seq 0 (Z.to_nat n)).

(** The rational number a finite float denotes ([None] for NaN and the
    infinities).  Used only in statements, to speak about exact values. *)
Definition to_Q (x : float) : option Q :=
  match Prim2SF x with
  | S754_zero _ => Some 0%Q
  | S754_finite s m e =>
      Some (inject_Z (if s then Zneg m else Zpos m) * Qpower 2 e)%Q
  | _ => None
  end.

End Py.

(** ** Phase percentages and timings ([create_breathing_app], lines 26-58) *)

(** Line 26: [total_cycle_time = 60 / breaths_per_minute]. *)
Definition total_cycle_time (breaths_per_minute : Z) : Res float :=
  Py.truediv 60 breaths_per_minute.

(** Lines 42-53: the percentages after the proportional adjustment.  The
    sidebar messages of these lines do not influence the values. *)
Definition normalize (inhale_percent exhale_percent hold_percent : Z)
  : Res (Z * Z * Z) :=
  let total_percent := inhale_percent + exhale_percent + hold_percent in
  if negb (total_percent =? 100) then
    (scale_factor <- Py.truediv 100 total_percent ;;
     inhale_percent' <- Py.int (Py.imul inhale_percent scale_factor) ;;
     exhale_percent' <- Py.int (Py.imul exhale_percent scale_factor) ;;
     let hold_percent' := 100 - inhale_percent' - exhale_percent' in
     Ok (inhale_percent', exhale_percent', hold_percent'))%res
  else Ok (inhale_percent, exhale_percent, hold_percent).

(** One of lines 56-58: [(percent / 100) * total_cycle_time]. *)
Definition phase_time (percent : Z) (total : float) : Res float :=
  (fraction <- Py.truediv percent 100 ;;
   Ok (fraction * total)%float)%res.

Record PhaseTimes : Type := {
  inhale_time : float;
  exhale_time : float;
  hold_time : float
}.

(** Lines 56-58. *)
Definition phase_times (inhale_percent exhale_percent hold_percent : Z)
  (total : float) : Res PhaseTimes :=
  (i <- phase_time inhale_percent total ;;
   e <- phase_time exhale_percent total ;;
   h <- phase_time hold_percent total ;;
   Ok {| inhale_time := i; exhale_time := e; hold_time := h |})%res.

(** Lines 26-58 in sequence: the timings the app derives from the widgets. *)
Definition timings (breaths_per_minute inhale_percent exhale_percent
                    hold_percent : Z) : Res PhaseTimes :=
  (total <- total_cycle_time breaths_per_minute ;;
   p <- normalize inhale_percent exhale_percent hold_percent ;;
   let '(i, e, h) := p in
   phase_times i e h total)%res.

(** Enumeration of an integer interval, for exhaustive checks. *)
Definition zrange (lo : Z) (n : nat) : list Z :=
  map (fun k => lo + Z.of_nat k) (seq 0 n).

(** The scaled percentage as lines 48-50 compute it, compared with the
    integer quotient. *)
Definition scaled_is_floor (s x : Z) : bool :=
  match Py.truediv 100 s with
  | Ok scale_factor =>
      match Py.int (Py.imul x scale_factor) with
      | Ok v => v =? x * 100 / s
      | Raise _ => false
      end
  | Raise _ => false
  end.

(** The exact share of the cycle of [percent] at [bpm] breaths per minute. *)
Definition exact_seconds (bpm percent : Z) : Q :=
  (inject_Z (percent * 60) / inject_Z (100 * bpm))%Q.

(** Lines 26 and 56-58 on one percentage, as one expression. *)
Definition duration (bpm percent : Z) : float :=
  (Py.float_of_Z percent / 100 * (60 / Py.float_of_Z bpm))%float.

Definition phase_time_close (bpm percent : Z) : bool :=
  match Py.to_Q (duration bpm percent) with
  | Some q => Qle_bool (Qabs (q - exact_seconds bpm percent)) (1 # 10000000000)
  | None => false
  end.

(** The durations of all percentages at one rate, tabulated. *)
Definition duration_table (bpm : Z) : list float :=
  map (duration bpm) (zrange 0 101).

Definition lookup (tbl : list float) (p : Z) : float :=
  nth (Z.to_nat p) tbl 0%float.

Definition float_sum_close (total : float) (tbl : list float) (a b : Z) : bool :=
  (100 <? a + b) ||
  (abs (lookup tbl a + lookup tbl b + lookup tbl (100 - a - b) - total)
   <=? 1e-9)%float.

Definition float_sums_close (bpm : Z) : bool :=
  let total := (60 / Py.float_of_Z bpm)%float in
  let tbl := duration_table bpm in
  forallb (fun a => forallb (float_sum_close total tbl a) (zrange 0 101))
    (zrange 0 101).

(** Whether the duration of [percent] at [bpm] is positive and at most the
    cycle time. *)
Definition duration_in_cycle (bpm percent : Z) : bool :=
  ((0 <? duration bpm percent)
   && (duration bpm percent <=? 60 / Py.float_of_Z bpm))%float.

(** Whether the cycle time at [bpm] lies between 2 and 60 seconds. *)
Definition cycle_time_in_range (bpm : Z) : bool :=
  ((2 <=? 60 / Py.float_of_Z bpm) && (60 / Py.float_of_Z bpm <=? 60))%float.

(** The durations of one percentage at all rates of the slider, tabulated. *)
Definition rate_table (percent : Z) : list float :=
  map (fun bpm => duration bpm percent) (zrange 1 30).

(** Whether each element of a list stands in [before] to every later one. *)
Fixpoint sorted_by (before : float -> float -> bool) (l : list float)
  : bool :=
  match l with
  | [] => true
  | x :: rest => forallb (before x) rest && sorted_by before rest
  end.

(** ** The drawable ([create_visualization], lines 155-205) *)

(** Second operand of [fill_between]: a scalar or an array. *)
Inductive YData : Type :=
| YScalar (y : float)
| YArray (ys : list float).

(** What the calls on [ax] add to the axes; each constructor records the
    arguments the source passes. *)
Inductive Artist : Type :=
| CirclePatch (center : float * float) (radius : float) (fill : bool)
    (color : string) (linestyle : option string) (alpha : float)
| FillBetween (x : list float) (y1 : YData) (y2 : list float)
    (color : string) (alpha : float)
| Line2D (x y : list float) (color : string) (alpha : option float)
    (linewidth : option Z)
| Text (x y : float) (s : string) (horizontalalignment : string)
    (verticalalignment : string) (fontsize : Z) (color : string).

Record Figure : Type := {
  figsize : Z * Z;
  artists : list Artist;
  xlim : float * float;
  ylim : float * float;
  aspect : string;
  axis_off : bool;
  tight_layout : bool
}.

(** [np.pi]. *)
Definition np_pi : float := 3.141592653589793%float.

(** The text artists of a figure, in drawing order. *)
Definition labels (fig : Figure) : list string :=
  flat_map (fun a => match a with
                     | Text _ _ s _ _ _ _ => [s]
                     | _ => []
                     end) (artists fig).

(** The filled (not reference) circles of a figure with their radii. *)
Definition filled_radii (fig : Figure) : list float :=
  flat_map (fun a => match a with
                     | CirclePatch _ r true _ _ _ => [r]
                     | _ => []
                     end) (artists fig).

(** Rounding a rational to the nearest integer, ties away from zero or ties
    to even: the two readings of the specification's [round], kept apart
    from the source's [int]. *)
Definition round_half_up (q : Q) : Z := Qfloor (q + (1 # 2))%Q.

Definition round_half_even (q : Q) : Z :=
  let f := Qfloor q in
  match Qcompare (q - inject_Z f) (1 # 2) with
  | Lt => f
  | Gt => f + 1
  | Eq => if Z.even f then f else f + 1
  end.

(** A finite binary64 number with its exponent lowered by one: its half,
    as long as the result is still a normal number. *)
Definition half_sf (x : spec_float) : spec_float :=
  match x with
  | S754_finite s m e => S754_finite s m (e - 1)
  | _ => x
  end.

(** Whether a float is a zero or a finite number (neither NaN nor an
    infinity). *)
Definition isfinite (x : float) : bool :=
  match Prim2SF x with
  | S754_zero _ | S754_finite _ _ _ => true
  | _ => false
  end.

(** ** The animation loop ([run_breathing_animation], lines 106-153) *)

(** What the loop does to the outside, in order.  [ECheck] records a read of
    [st.session_state.running] with the value read; [EFrame] stands for
    lines 116-118 (or 143-145) and records the arguments of
    [create_visualization] next to the figure handed to
    [viz_placeholder.pyplot]. *)
Inductive Event : Type :=
| EMarkdown (s : string)
| EFrame (phase : string) (progress : float) (fig : Figure)
| ESleep (seconds : float)
| ECheck (flag : bool)
| EError (msg : string).

(** The mutable state the loop works on: the session flag, counters of the
    calls answered by the environment, and the log of events. *)
Record World : Type := {
  running : bool;
  sleeps : nat;
  shown : nat;
  clock_reads : nat;
  trace : list Event
}.

(** The environment of one script run.  [stop_during k]: the stop action
    arrives while the loop is suspended in its [k]-th [time.sleep] (the loop
    cannot observe it earlier than its next read of the flag).
    [render_failure k]: the exception, if any, raised while the [k]-th frame
    is produced or displayed.  [time_time k]: the value of the [k]-th call of
    [time.time()]. *)
Record Env : Type := {
  stop_during : nat -> bool;
  render_failure : nat -> option PyExn;
  time_time : nat -> float
}.

Inductive Outcome (A : Type) : Type :=
| Done (a : A) (w : World)
| Raised (e : PyExn) (w : World)
| OutOfFuel (w : World).
Arguments Done {A} a w.
Arguments Raised {A} e w.
Arguments OutOfFuel {A} w.

Definition world_of {A : Type} (o : Outcome A) : World :=
  match o with
  | Done _ w => w
  | Raised _ w => w
  | OutOfFuel w => w
  end.

(** Statements of the Python body: state passing with exceptions. *)
Definition M (A : Type) : Type := World -> Outcome A.

Definition ret {A : Type} (a : A) : M A := fun w => Done a w.

Definition bind {A B : Type} (c : M A) (k : A -> M B) : M B :=
  fun w =>
    match c w with
    | Done a w' => k a w'
    | Raised e w' => Raised e w'
    | OutOfFuel w' => OutOfFuel w'
    end.

Declare Scope act_scope.
Delimit Scope act_scope with act.
Notation "x <- c ;; k" := (bind c (fun x => k))
  (at level 61, c at next level, right associativity) : act_scope.
Notation "c ;; k" := (bind c (fun _ => k))
  (at level 61, right associativity) : act_scope.

Definition log (e : Event) (w : World) : World :=
  {| running := running w; sleeps := sleeps w; shown := shown w;
     clock_reads := clock_reads w; trace := trace w ++ [e] |}.

Definition set_running (b : bool) (w : World) : World :=
  {| running := b; sleeps := sleeps w; shown := shown w;
     clock_reads := clock_reads w; trace := trace w |}.

(** [for x in xs: body], where [body] answers [true] when it executed
    [break]. *)
Fixpoint for_each {X : Type} (xs : list X) (body : X -> M bool) : M unit :=
  match xs with
  | [] => ret tt
  | x :: rest =>
      (stop <- body x ;;
       if stop then ret tt else for_each rest body)%act
  end.

(** Number of animation steps (line 112). *)
Definition steps : Z := 20.

(** Whether [time.sleep] accepts a duration and suspends for it.  It raises
    [ValueError] on a negative number and on NaN, and [OverflowError] on an
    infinity and on a duration beyond the range of its clock; the finite
    durations from 0 to a million seconds are all accepted. *)
Definition sleep_accepts (seconds : float) : bool :=
  ((0 <=? seconds) && (seconds <=? 1000000))%float.

(** Whether the suspension after a frame of a phase of [percent] at [bpm]
    is positive and at most three seconds. *)
Definition step_in_range (bpm percent : Z) : bool :=
  ((0 <? duration bpm percent / Py.float_of_Z steps)
   && (duration bpm percent / Py.float_of_Z steps <=? 3))%float.

(** The frames a trace shows: phase and progress of each [EFrame]. *)
Definition frames_of (tr : list Event) : list (string * float) :=
  flat_map (fun e => match e with
                     | EFrame ph p _ => [(ph, p)]
                     | _ => []
                     end) tr.

(** The error messages a trace shows. *)
Definition errors_of (tr : list Event) : list string :=
  flat_map (fun e => match e with
                     | EError msg => [msg]
                     | _ => []
                     end) tr.

(** The headings a trace shows. *)
Definition headings_of (tr : list Event) : list string :=
  flat_map (fun e => match e with
                     | EMarkdown s => [s]
                     | _ => []
                     end) tr.

(** The suspensions a trace shows, with their lengths. *)
Definition sleeps_of (tr : list Event) : list float :=
  flat_map (fun e => match e with
                     | ESleep seconds => [seconds]
                     | _ => []
                     end) tr.

(** Where a trace stands with respect to the flag: [Unknown] after a
    suspension (or at the start), [Checked] when the flag was read as true
    and nothing but headings followed, [Emitted] after a frame, [Cancelled]
    once the flag was read as false. *)
Inductive Knowledge : Type := Unknown | Checked | Emitted | Cancelled.

(** One step of the monitor of the checkpoint discipline.  A frame, a
    heading and an error message need [Checked]; after a frame only a
    suspension follows; after a suspension only a read of the flag follows;
    after a read of false only reads of false follow. *)
Definition monitor_step (k : Knowledge) (e : Event) : option Knowledge :=
  match e, k with
  | ECheck true, Unknown => Some Checked
  | ECheck true, Checked => Some Checked
  | ECheck false, Unknown => Some Cancelled
  | ECheck false, Cancelled => Some Cancelled
  | EFrame _ _ _, Checked => Some Emitted
  | EMarkdown _, Checked => Some Checked
  | ESleep _, Checked => Some Unknown
  | ESleep _, Emitted => Some Unknown
  | EError _, Checked => Some Cancelled
  | _, _ => None
  end.

Fixpoint monitor (k : Knowledge) (tr : list Event) : option Knowledge :=
  match tr with
  | [] => Some k
  | e :: rest =>
      match monitor_step k e with
      | Some k' => monitor k' rest
      | None => None
      end
  end.

(** ** Sample environments and inputs *)

(** Nobody presses Stop, nothing fails, and every call of [time.time()]
    answers a tenth of a second more than the one before. *)
Definition calm : Env :=
  {| stop_during := fun _ => false;
     render_failure := fun _ => None;
     time_time := fun k => (Py.float_of_Z (Z.of_nat k) / 10)%float |}.

(** Stop arrives during the [k]-th suspension. *)
Definition stop_in (k : nat) : Env :=
  {| stop_during := fun j => Nat.eqb j k;
     render_failure := fun _ => None;
     time_time := time_time calm |}.

(** The [k]-th frame fails with exception [e]. *)
Definition failing (k : nat) (e : PyExn) : Env :=
  {| stop_during := fun _ => false;
     render_failure := fun j => if Nat.eqb j k then Some e else None;
     time_time := time_time calm |}.

Definition started : World :=
  {| running := true; sleeps := 0; shown := 0; clock_reads := 0;
     trace := [] |}.

(** Stand-ins for numpy in the sample runs: the Taylor polynomial of degree
    seven of the sine, and evenly spaced points with the end point last. *)
Definition sample_sin (x : float) : float :=
  let x2 := (x * x)%float in
  (x * (1 - x2 / 6 * (1 - x2 / 20 * (1 - x2 / 42))))%float.

Definition sample_linspace (start stop : float) (num : nat) : list float :=
  match num with
  | O => []
  | S O => [start]
  | S div =>
      let step := ((stop - start) / Py.float_of_Z (Z.of_nat div))%float in
      map (fun k => (Py.float_of_Z (Z.of_nat k) * step + start)%float)
        (seq 0 div)
      ++ [stop]
  end.

Section App.

(** numpy's [sin] and [linspace] are library code; the figure is
    parametric in them. *)
Variable np_sin : float -> float.
Variable np_linspace : float -> float -> nat -> list float.

(** Lines 159-186: what each style draws. *)
Definition shapes (progress : float) (style : string) : list Artist :=
  if (style =? "Circle")%string then
    let size := (0.1 + progress * 0.8)%float in
    [ CirclePatch (0.5, 0.5)%float (size / 2)%float true "skyblue" None
        0.7%float;
      CirclePatch (0.5, 0.5)%float 0.45%float false "gray" (Some "--")
        0.5%float ]
  else if (style =? "Lung")%string then
    let x := np_linspace 0%float 1%float 100 in
    let bulge :=
      map (fun xi => (0.2 * np_sin (np_pi * xi) * progress)%float) x in
    let y1 := map (fun b => (0.5 + b)%float) bulge in
    let y2 := map (fun b => (0.5 - b)%float) bulge in
    [ FillBetween x (YArray y1) y2 "pink" 0.7%float;
      Line2D x y1 "red" (Some 0.8%float) None;
      Line2D x y2 "red" (Some 0.8%float) None ]
  else if (style =? "Wave")%string then
    let x := np_linspace 0%float (2 * np_pi)%float 100 in
    let amplitude := (progress * 0.4)%float in
    let y := map (fun xi => (0.5 + amplitude * np_sin xi)%float) x in
    [ Line2D x y "blue" None (Some 3);
      FillBetween x (YScalar 0.5%float) y "lightblue" 0.7%float ]
  else [].

(** Lines 155-205. *)
Definition create_visualization (progress : float) (style phase : string)
  : Res Figure :=
  let drawn := shapes progress style in
  let phase_color :=
    if (phase =? "inhale")%string then "skyblue"%string
    else "lightgreen"%string in
  (percent <- Py.int (progress * 100)%float ;;
   let label :=
     Text 0.5%float 0.05%float (Py.str percent ++ "%")%string "center"
       "center" 16 "black" in
   Ok {| figsize := (8, 6);
         artists := drawn ++ [label];
         xlim := (0%float,
                  if (style =? "Circle")%string then 1%float
                  else if (style =? "Wave")%string then (2 * np_pi)%float
                  else 1%float);
         ylim := (0%float, 1%float);
         aspect := if (style =? "Circle")%string then "equal" else "auto";
         axis_off := true;
         tight_layout := true |})%res.

Variable env : Env.

(** A read of [st.session_state.running]. *)
Definition get_running : M bool :=
  fun w => Done (running w) (log (ECheck (running w)) w).

(** [instruction_placeholder.markdown(s)]. *)
Definition markdown (s : string) : M unit :=
  fun w => Done tt (log (EMarkdown s) w).

(** Lines 116-118 and 143-145: produce the figure, display it, close it. *)
Definition show_frame (progress : float) (style phase : string) : M unit :=
  fun w =>
    match create_visualization progress style phase with
    | Raise e => Raised e w
    | Ok fig =>
        let w' := {| running := running w; sleeps := sleeps w;
                     shown := S (shown w); clock_reads := clock_reads w;
                     trace := trace w |} in
        match render_failure env (shown w) with
        | Some e => Raised e w'
        | None => Done tt (log (EFrame phase progress fig) w')
        end
    end.

(** [time.sleep(seconds)]: the loop is suspended; a stop action arriving
    meanwhile clears the flag.  This is [time.sleep] on the durations it
    accepts ([sleep_accepts]), among them the durations of lines 56-58 on
    widget input and the tenth of a second of line 134; on a negative or
    non-finite duration [time.sleep] raises instead, which this definition
    does not show. *)
Definition sleep (seconds : float) : M unit :=
  fun w =>
    Done tt
      {| running := running w && negb (stop_during env (sleeps w));
         sleeps := S (sleeps w); shown := shown w;
         clock_reads := clock_reads w;
         trace := trace w ++ [ESleep seconds] |}.

(** [time.time()]. *)
Definition now : M float :=
  fun w =>
    Done (time_time env (clock_reads w))
      {| running := running w; sleeps := sleeps w; shown := shown w;
         clock_reads := S (clock_reads w); trace := trace w |}.

(** Lines 114-122. *)
Definition inhale_phase (inhale_time : float) (viz_style : string)
  : M unit :=
  for_each (Py.range (steps + 1))
    (fun i =>
       let progress := (Py.float_of_Z i / Py.float_of_Z steps)%float in
       (show_frame progress viz_style "inhale" ;;
        sleep (inhale_time / Py.float_of_Z steps)%float ;;
        r <- get_running ;;
        ret (negb r))%act).

(** Lines 131-134: the polling loop of the hold phase. *)
Fixpoint hold_wait (fuel : nat) (hold_start hold_time : float) : M unit :=
  match fuel with
  | O => fun w => OutOfFuel w
  | S fuel' =>
      (t <- now ;;
       if (t - hold_start <? hold_time)%float then
         (r <- get_running ;;
          if negb r then ret tt
          else (sleep 0.1%float ;; hold_wait fuel' hold_start hold_time))
       else ret tt)%act
  end.

(** Lines 128-134. *)
Definition hold_phase (fuel : nat) (hold_time : float) : M unit :=
  if (0 <? hold_time)%float then
    (markdown "## Hold" ;;
     hold_start <- now ;;
     hold_wait fuel hold_start hold_time)%act
  else ret tt.

(** Lines 141-149. *)
Definition exhale_phase (exhale_time : float) (viz_style : string)
  : M unit :=
  for_each (Py.range (steps + 1))
    (fun i =>
       let progress := (1 - Py.float_of_Z i / Py.float_of_Z steps)%float in
       (show_frame progress viz_style "exhale" ;;
        sleep (exhale_time / Py.float_of_Z steps)%float ;;
        r <- get_running ;;
        ret (negb r))%act).

(** Lines 110-149: the body of the [while] loop; answers [true] when it
    left the loop by [break]. *)
Definition cycle (fuel : nat) (inhale_time exhale_time hold_time : float)
  (viz_style : string) : M bool :=
  (markdown "## Inhale" ;;
   inhale_phase inhale_time viz_style ;;
   r <- get_running ;;
   if negb r then ret true
   else
     (hold_phase fuel hold_time ;;
      r <- get_running ;;
      if negb r then ret true
      else
        (markdown "## Exhale" ;;
         exhale_phase exhale_time viz_style ;;
         ret false)))%act.

(** Lines 109-149: [while st.session_state.running: ...]. *)
Fixpoint animation_loop (fuel : nat)
  (inhale_time exhale_time hold_time : float) (viz_style : string)
  : M unit :=
  match fuel with
  | O => fun w => OutOfFuel w
  | S fuel' =>
      (r <- get_running ;;
       if negb r then ret tt
       else
         (left <- cycle fuel inhale_time exhale_time hold_time viz_style ;;
          if left then ret tt
          else animation_loop fuel' inhale_time exhale_time hold_time
                 viz_style))%act
  end.

(** Lines 106-153: the loop inside [try ... except Exception as e]. *)
Definition run_breathing_animation (fuel : nat)
  (inhale_time exhale_time hold_time : float) (viz_style : string)
  : M unit :=
  fun w =>
    match animation_loop fuel inhale_time exhale_time hold_time viz_style w
    with
    | Raised e w' =>
        if is_Exception e then
          Done tt
            (set_running false
               (log (EError ("Animation error: " ++ exn_str e)%string) w'))
        else Raised e w'
    | o => o
    end.

(** Lines 86-104 after the widgets are read: the session flag follows the
    buttons and the loop runs when the flag is set. *)
Definition create_breathing_app (fuel : nat)
  (breaths_per_minute inhale_percent exhale_percent hold_percent : Z)
  (viz_style : string) (start_button stop_button : bool) : M unit :=
  fun w =>
    match timings breaths_per_minute inhale_percent exhale_percent
            hold_percent with
    | Raise e => Raised e w
    | Ok t =>
        let w1 := if start_button then set_running true w else w in
        let w2 := if stop_button then set_running false w1 else w1 in
        if running w2 then
          run_breathing_animation fuel (inhale_time t) (exhale_time t)
            (hold_time t) viz_style w2
        else Done tt w2
    end.

(** The event of showing one frame, when the figure can be produced. *)
Definition frame_events (style phase : string) (progress : float)
  : list Event :=
  match create_visualization progress style phase with
  | Ok fig => [EFrame phase progress fig]
  | Raise _ => []
  end.

(** One iteration of the loops of lines 114-122 and 141-149, for the phase
    name, the progress of step [i] and the length of the suspension. *)
Definition phase_step (phase : string) (progress_of : Z -> float)
  (seconds : float) (viz_style : string) (i : Z) : M bool :=
  (show_frame (progress_of i) viz_style phase ;;
   sleep seconds ;;
   r <- get_running ;;
   ret (negb r))%act.

(** The events of one such iteration in which the flag is read as [flag]. *)
Definition step_events (phase : string) (progress_of : Z -> float)
  (seconds : float) (viz_style : string) (flag : bool) (i : Z)
  : list Event :=
  frame_events viz_style phase (progress_of i)
  ++ [ESleep seconds; ECheck flag].

Definition inhale_progress (i : Z) : float :=
  (Py.float_of_Z i / Py.float_of_Z steps)%float.

Definition exhale_progress (i : Z) : float :=
  (1 - Py.float_of_Z i / Py.float_of_Z steps)%float.

(** The events of [n] polls of the hold phase that find time left and the
    flag set. *)
Fixpoint hold_polls (n : nat) : list Event :=
  match n with
  | O => []
  | S n' => ECheck true :: ESleep 0.1%float :: hold_polls n'
  end.

(** The world after the loop consumed [ds] suspensions, [dn] frames and
    [dc] clock readings and logged [evs], with the flag at [flag]. *)
Definition advance (w : World) (flag : bool) (ds dn dc : nat)
  (evs : list Event) : World :=
  {| running := flag; sleeps := sleeps w + ds; shown := shown w + dn;
     clock_reads := clock_reads w + dc; trace := trace w ++ evs |}.

(** Whether [Py.int] answers on the label of a progress value. *)
Definition label_defined (progress : float) : bool :=
  match Py.int (progress * 100)%float with
  | Ok _ => true
  | Raise _ => false
  end.

(** Strictly increasing, in the order of the floats. *)
Fixpoint increasing (l : list float) : bool :=
  match l with
  | x :: (y :: _) as rest => (x <? y)%float && increasing rest
  | _ => true
  end.

Fixpoint decreasing (l : list float) : bool :=
  match l with
  | x :: (y :: _) as rest => (y <? x)%float && decreasing rest
  | _ => true
  end.

(** Whether a float lies within [eps] of a rational. *)
Definition near (eps : Q) (x : float) (q : Q) : bool :=
  match Py.to_Q x with
  | Some v => Qle_bool (Qabs (v - q)) eps
  | None => false
  end.

(** Whether the exact difference [y - x] of two floats is a twentieth. *)
Definition exact_step (x y : float) : bool :=
  match Py.to_Q x, Py.to_Q y with
  | Some a, Some b => Qeq_bool (b - a) (1 # 20)
  | _, _ => false
  end.

(** Whether the exact difference [y - x] of two floats is within [eps] of a
    twentieth. *)
Definition near_step (eps : Q) (x y : float) : bool :=
  match Py.to_Q x, Py.to_Q y with
  | Some a, Some b => Qle_bool (Qabs (b - a - (1 # 20))) eps
  | _, _ => false
  end.

(** The binary64 number nearest to [k / 20]. *)
Definition nominal_progress (k : Z) : float :=
  (Py.float_of_Z k / Py.float_of_Z steps)%float.

(** The events between the last inhale frame and the first exhale frame:
    the reads of lines 124 and 136 and, when [hold_time > 0], the heading
    and [n] polls of a tenth of a second. *)
Definition hold_events (hold_time : float) (n : nat) : list Event :=
  [ECheck true]
  ++ (if (0 <? hold_time)%float then EMarkdown "## Hold" :: hold_polls n
      else [])
  ++ [ECheck true].

Definition inhale_events (inhale_time : float) (viz_style : string)
  : list Event :=
  EMarkdown "## Inhale"
  :: flat_map
       (step_events "inhale" inhale_progress
          (inhale_time / Py.float_of_Z steps)%float viz_style true)
       (Py.range (steps + 1)).

Definition exhale_events (exhale_time : float) (viz_style : string)
  : list Event :=
  EMarkdown "## Exhale"
  :: flat_map
       (step_events "exhale" exhale_progress
          (exhale_time / Py.float_of_Z steps)%float viz_style true)
       (Py.range (steps + 1)).


(** *** The checkpoint discipline, as properties of a trace *)

Definition is_heading (e : Event) : Prop := exists s, e = EMarkdown s.

(** Every frame comes right after a read of the flag that found it set, with
    at most headings in between. *)
Definition checked_before_each_frame (tr : list Event) : Prop :=
  forall pre ph p fig post,
    tr = pre ++ EFrame ph p fig :: post ->
    exists pre' heads,
      pre = pre' ++ ECheck true :: heads /\ Forall is_heading heads.

(** Every suspension is followed at once by a read of the flag (unless the
    trace ends there). *)
Definition checked_after_each_sleep (tr : list Event) : Prop :=
  forall pre d post,
    tr = pre ++ ESleep d :: post ->
    post = [] \/ exists b post', post = ECheck b :: post'.

(** After a read that found the flag cleared, no frame, heading, suspension
    or message follows: only further reads of the cleared flag. *)
Definition nothing_after_cancel (tr : list Event) : Prop :=
  forall pre post,
    tr = pre ++ ECheck false :: post ->
    Forall (fun e => e = ECheck false) post.

(** What the monitor's state says about the flag of a world. *)
Definition flag_ok (k : Knowledge) (w : World) : Prop :=
  match k with
  | Unknown => True
  | Checked | Emitted => running w = true
  | Cancelled => running w = false
  end.

(** The world extends the trace [t0] by events the monitor accepts, ending
    in state [k], and its flag agrees with [k]. *)
Definition inv (t0 : list Event) (k : Knowledge) (w : World) : Prop :=
  (exists evs, trace w = t0 ++ evs /\ monitor Unknown evs = Some k)
  /\ flag_ok k w.

Definition inv_in (t0 : list Event) (ks : list Knowledge) (w : World)
  : Prop :=
  exists k, In k ks /\ inv t0 k w.

(** Partial correctness of a statement: postcondition [Q] on normal
    completion, [E] when it raises, [F] when the fuel is used up. *)
Definition triple {A : Type} (P : World -> Prop) (c : M A)
  (Q : A -> World -> Prop) (E F : World -> Prop) : Prop :=
  forall w, P w ->
    match c w with
    | Done a w' => Q a w'
    | Raised _ w' => E w'
    | OutOfFuel w' => F w'
    end.

(** Triples of the loop: an exception leaves the monitor in [Checked], and
    running out of fuel leaves a trace the monitor accepts. *)
Definition spec {A : Type} (t0 : list Event) (P : World -> Prop) (c : M A)
  (Q : A -> World -> Prop) : Prop :=
  triple P c Q (inv t0 Checked)
    (inv_in t0 [Unknown; Checked; Emitted; Cancelled]).

(** *** What the loop can log *)

(** The events the loop of [run_breathing_animation] logs when called with
    these arguments: the three headings; a frame of the style passed in,
    tagged "inhale" with progress [i / 20] or "exhale" with progress
    [1 - i / 20] for a step [i] of [range(steps + 1)], carrying the figure
    [create_visualization] gives for it; a suspension of a twentieth of the
    inhale or exhale time or of a tenth of a second; a read of the flag.  No
    error message is among them. *)
Definition loop_event (inhale_time exhale_time : float) (viz_style : string)
  (e : Event) : Prop :=
  match e with
  | EMarkdown s => s = "## Inhale" \/ s = "## Hold" \/ s = "## Exhale"
  | EFrame phase progress fig =>
      create_visualization progress viz_style phase = Ok fig /\
      exists i, In i (Py.range (steps + 1)) /\
        ((phase = "inhale" /\ progress = inhale_progress i) \/
         (phase = "exhale" /\ progress = exhale_progress i))
  | ESleep seconds =>
      seconds = (inhale_time / Py.float_of_Z steps)%float \/
      seconds = (exhale_time / Py.float_of_Z steps)%float \/
      seconds = 0.1%float
  | ECheck _ => True
  | EError _ => False
  end.

(** A statement that, whatever its outcome, appends to the log only events
    that satisfy [P]. *)
Definition emits {A : Type} (P : Event -> Prop) (c : M A) : Prop :=
  forall w, exists evs,
    trace (world_of (c w)) = trace w ++ evs /\ Forall P evs.

(** The loop is running: the session flag is set. *)
Definition live (w : World) : Prop := running w = true.

(** The postcondition of an outcome that cannot occur. *)
Definition unreachable (w : World) : Prop := False.

(** The label or labels a frame of the given progress shows. *)
Definition frame_labels (progress : float) (style phase : string)
  : list string :=
  match create_visualization progress style phase with
  | Ok fig => labels fig
  | Raise _ => []
  end.

(** The radius of the filled circle of a frame of the Circle style. *)
Definition frame_radii (progress : float) (phase : string) : list float :=
  match create_visualization progress "Circle" phase with
  | Ok fig => filled_radii fig
  | Raise _ => []
  end.

(** The frames of one full cycle, in order. *)
Definition cycle_frames : list (string * float) :=
  map (fun i => ("inhale", inhale_progress i)) (Py.range (steps + 1))
  ++ map (fun i => ("exhale", exhale_progress i)) (Py.range (steps + 1)).

(** The labels of the frames of one phase, in order. *)
Definition phase_labels (phase : string) (progress_of : Z -> float)
  (style : string) : list string :=
  flat_map (fun i => frame_labels (progress_of i) style phase)
    (Py.range (steps + 1)).

(** The radii of the filled circle over the frames of one phase of the
    Circle style, in order. *)
Definition phase_radii (phase : string) (progress_of : Z -> float)
  : list float :=
  flat_map (fun i => frame_radii (progress_of i) phase)
    (Py.range (steps + 1)).

(** The length of the suspension that follows a frame of the given phase
    (lines 119 and 146). *)
Definition step_seconds (inhale_time exhale_time : float) (phase : string)
  : float :=
  if (phase =? "inhale")%string
  then (inhale_time / Py.float_of_Z steps)%float
  else (exhale_time / Py.float_of_Z steps)%float.

(** Every frame of a log is followed at once by the suspension of its
    phase. *)
Fixpoint frames_held (inhale_time exhale_time : float) (tr : list Event)
  : Prop :=
  match tr with
  | [] => True
  | EFrame phase _ _ :: rest =>
      match rest with
      | ESleep seconds :: _ =>
          seconds = step_seconds inhale_time exhale_time phase
      | _ => False
      end
      /\ frames_held inhale_time exhale_time rest
  | _ :: rest => frames_held inhale_time exhale_time rest
  end.

(** A statement that, whatever its outcome, appends to the log a list of
    events that satisfies [L]. *)
Definition logs {A : Type} (L : list Event -> Prop) (c : M A) : Prop :=
  forall w, exists evs, trace (world_of (c w)) = trace w ++ evs /\ L evs.

(** *** Failing frames *)

(** Since the world [w0] every frame the loop tried to display was
    displayed: none of them failed, and each is in the log. *)
Definition frames_fine (w0 w : World) : Prop :=
  (shown w0 <= shown w)%nat /\
  (forall k, (shown w0 <= k < shown w)%nat -> render_failure env k = None) /\
  List.length (frames_of (trace w))
  = (List.length (frames_of (trace w0)) + (shown w - shown w0))%nat.

(** Since the world [w0] the frame the loop tried last failed with [e]; the
    frames it tried before were displayed and are in the log, the failed
    one is not. *)
Definition frame_failed (w0 : World) (e : PyExn) (w : World) : Prop :=
  (shown w0 < shown w)%nat /\
  render_failure env (shown w - 1) = Some e /\
  (forall k, (shown w0 <= k < shown w - 1)%nat ->
             render_failure env k = None) /\
  List.length (frames_of (trace w))
  = (List.length (frames_of (trace w0)) + (shown w - 1 - shown w0))%nat.

(** A statement that raises exactly when a frame it tries to display fails,
    with the exception of that frame and at once. *)
Definition fails_at_once {A : Type} (w0 : World) (c : M A) : Prop :=
  forall w, frames_fine w0 w ->
    match c w with
    | Done _ w' => frames_fine w0 w'
    | Raised e w' => frame_failed w0 e w'
    | OutOfFuel w' => frames_fine w0 w'
    end.

(** [shown] counts the calls of [st.pyplot]: [show_frame] alone increments
    it, also when the call fails.  The run of [c] from [w] calls
    [st.pyplot] for the frame of index [k]. *)
Definition displays {A : Type} (c : M A) (w : World) (k : nat) : Prop :=
  (shown w <= k < shown (world_of (c w)))%nat.

(** ** Exhaustive checks over integer intervals *)

Lemma zrange_In (lo : Z) (n : nat) (z : Z) :
  lo <= z < lo + Z.of_nat n -> In z (zrange lo n).
Proof.
  intros H. unfold zrange. apply in_map_iff.
  exists (Z.to_nat (z - lo)). split; [lia|].
  apply in_seq. lia.
Qed.

Lemma forallb_zrange (P : Z -> bool) (lo : Z) (n : nat) :
  forallb P (zrange lo n) = true ->
  forall z, lo <= z < lo + Z.of_nat n -> P z = true.
Proof.
  intros H z Hz. rewrite forallb_forall in H. apply H, zrange_In, Hz.
Qed.

(** ** Facts on the statements of the loop *)

Lemma bind_Done {A B : Type} (c : M A) (k : A -> M B) (w w' : World) (a : A) :
  c w = Done a w' -> bind c k w = k a w'.
Proof. unfold bind. intros ->. reflexivity. Qed.

Lemma bind_Raised {A B : Type} (c : M A) (k : A -> M B) (w w' : World)
  (e : PyExn) :
  c w = Raised e w' -> bind c k w = Raised e w'.
Proof. unfold bind. intros ->. reflexivity. Qed.

Lemma world_ext (w : World) (b : bool) (s n c : nat) (tr : list Event) :
  running w = b -> sleeps w = s -> shown w = n -> clock_reads w = c ->
  trace w = tr ->
  w = {| running := b; sleeps := s; shown := n; clock_reads := c;
         trace := tr |}.
Proof. destruct w; simpl; intros; subst; reflexivity. Qed.

Lemma advance_nothing (w : World) : advance w (running w) 0 0 0 [] = w.
Proof.
  symmetry. apply world_ext; simpl; try lia; auto using app_nil_r.
Qed.

Lemma advance_advance (w : World) (b b' : bool) (s s' n n' c c' : nat)
  (evs evs' : list Event) :
  advance (advance w b s n c evs) b' s' n' c' evs'
  = advance w b' (s + s') (n + n') (c + c') (evs ++ evs').
Proof.
  unfold advance; simpl. f_equal; try lia. now rewrite app_assoc.
Qed.

Lemma markdown_advance (s : string) (w : World) :
  markdown s w = Done tt (advance w (running w) 0 0 0 [EMarkdown s]).
Proof.
  unfold markdown, log, advance. do 2 f_equal; lia.
Qed.

Lemma get_running_advance (w : World) :
  get_running w
  = Done (running w) (advance w (running w) 0 0 0 [ECheck (running w)]).
Proof.
  unfold get_running, log, advance. do 2 f_equal; lia.
Qed.

Lemma now_advance (w : World) :
  now w = Done (time_time env (clock_reads w))
            (advance w (running w) 0 0 1 []).
Proof.
  unfold now, advance. do 2 f_equal; try lia. now rewrite app_nil_r.
Qed.

Lemma sleep_advance (seconds : float) (w : World) :
  sleep seconds w
  = Done tt (advance w (running w && negb (stop_during env (sleeps w)))
               1 0 0 [ESleep seconds]).
Proof.
  unfold sleep, advance. do 2 f_equal; lia.
Qed.

Lemma create_visualization_defined (progress : float) (style phase : string) :
  label_defined progress = true ->
  exists fig, create_visualization progress style phase = Ok fig.
Proof.
  unfold label_defined, create_visualization.
  destruct (Py.int (progress * 100)) as [z|]; [|discriminate].
  intros _. eexists. reflexivity.
Qed.

Lemma inhale_phase_steps (inhale_time : float) (viz_style : string) :
  inhale_phase inhale_time viz_style
  = for_each (Py.range (steps + 1))
      (phase_step "inhale" inhale_progress
         (inhale_time / Py.float_of_Z steps)%float viz_style).
Proof. reflexivity. Qed.

Lemma exhale_phase_steps (exhale_time : float) (viz_style : string) :
  exhale_phase exhale_time viz_style
  = for_each (Py.range (steps + 1))
      (phase_step "exhale" exhale_progress
         (exhale_time / Py.float_of_Z steps)%float viz_style).
Proof. reflexivity. Qed.

Section Steps.

Variable phase : string.
Variable progress_of : Z -> float.
Variable seconds : float.
Variable viz_style : string.

(** One iteration whose frame is displayed: the flag it reads is the old one
    unless Stop arrived during its suspension. *)
Lemma phase_step_shows (i : Z) (w : World) :
  label_defined (progress_of i) = true ->
  render_failure env (shown w) = None ->
  running w = true ->
  phase_step phase progress_of seconds viz_style i w
  = Done (stop_during env (sleeps w))
      (advance w (negb (stop_during env (sleeps w))) 1 1 0
         (step_events phase progress_of seconds viz_style
            (negb (stop_during env (sleeps w))) i)).
Proof.
  intros Hl Hr Hw.
  destruct (create_visualization_defined _ viz_style phase Hl) as [fig Hfig].
  unfold phase_step, step_events, frame_events, bind, show_frame, sleep,
    get_running, ret, log, advance.
  rewrite Hfig, Hr. simpl. rewrite Hw. simpl.
  rewrite negb_involutive. do 2 f_equal; try lia.
  now rewrite <- !app_assoc.
Qed.

(** All iterations over [xs] when nobody stops the loop. *)
Lemma for_each_live (xs : list Z) :
  forall w : World,
    running w = true ->
    (forall j, (j < List.length xs)%nat -> stop_during env (sleeps w + j) = false) ->
    (forall j, (j < List.length xs)%nat ->
               render_failure env (shown w + j) = None) ->
    (forall x, In x xs -> label_defined (progress_of x) = true) ->
    for_each xs (phase_step phase progress_of seconds viz_style) w
    = Done tt
        (advance w true (List.length xs) (List.length xs) 0
           (flat_map (step_events phase progress_of seconds viz_style true)
              xs)).
Proof.
  induction xs as [|x xs IH]; intros w Hw Hs Hr Hl.
  - simpl. unfold ret. rewrite <- Hw. now rewrite advance_nothing.
  - cbn [for_each].
    erewrite bind_Done.
    2:{ apply phase_step_shows.
        - apply Hl. now left.
        - specialize (Hr 0%nat). rewrite Nat.add_0_r in Hr. apply Hr. simpl; lia.
        - exact Hw. }
    specialize (Hs 0%nat ltac:(simpl; lia)) as Hs0.
    rewrite Nat.add_0_r in Hs0. rewrite Hs0. cbn [negb].
    rewrite IH.
    + rewrite advance_advance. cbn [flat_map List.length].
      f_equal.
    + reflexivity.
    + intros j Hj. cbn [advance sleeps].
      replace (sleeps w + 1 + j)%nat with (sleeps w + S j)%nat by lia.
      apply Hs. simpl; lia.
    + intros j Hj. cbn [advance shown].
      replace (shown w + 1 + j)%nat with (shown w + S j)%nat by lia.
      apply Hr. simpl; lia.
    + intros y Hy. apply Hl. now right.
Qed.

(** The iterations over [pre ++ x :: post] when Stop arrives during the
    suspension of the iteration of [x]: that iteration is the last. *)
Lemma for_each_stopped (pre : list Z) (x : Z) (post : list Z) :
  forall w : World,
    running w = true ->
    (forall j, (j < List.length pre)%nat ->
               stop_during env (sleeps w + j) = false) ->
    stop_during env (sleeps w + List.length pre) = true ->
    (forall j, (j <= List.length pre)%nat ->
               render_failure env (shown w + j) = None) ->
    (forall y, In y (pre ++ [x]) -> label_defined (progress_of y) = true) ->
    for_each (pre ++ x :: post)
      (phase_step phase progress_of seconds viz_style) w
    = Done tt
        (advance w false (S (List.length pre)) (S (List.length pre)) 0
           (flat_map (step_events phase progress_of seconds viz_style true)
              pre
            ++ step_events phase progress_of seconds viz_style false x)).
Proof.
  induction pre as [|p pre IH]; intros w Hw Hs Hstop Hr Hl.
  - cbn [app for_each List.length flat_map].
    erewrite bind_Done.
    2:{ apply phase_step_shows.
        - apply Hl. now left.
        - specialize (Hr 0%nat). rewrite Nat.add_0_r in Hr. apply Hr. simpl; lia.
        - exact Hw. }
    simpl List.length in Hstop. rewrite Nat.add_0_r in Hstop. rewrite Hstop.
    reflexivity.
  - cbn [app for_each].
    erewrite bind_Done.
    2:{ apply phase_step_shows.
        - apply Hl. now left.
        - specialize (Hr 0%nat). rewrite Nat.add_0_r in Hr. apply Hr. simpl; lia.
        - exact Hw. }
    specialize (Hs 0%nat ltac:(simpl; lia)) as Hs0.
    rewrite Nat.add_0_r in Hs0. rewrite Hs0. cbn [negb].
    rewrite IH.
    + rewrite advance_advance. cbn [flat_map List.length].
      rewrite <- app_assoc. f_equal.
    + reflexivity.
    + intros j Hj. cbn [advance sleeps].
      replace (sleeps w + 1 + j)%nat with (sleeps w + S j)%nat by lia.
      apply Hs. simpl; lia.
    + cbn [advance sleeps].
      replace (sleeps w + 1 + List.length pre)%nat
        with (sleeps w + List.length (p :: pre))%nat by (simpl; lia).
      exact Hstop.
    + intros j Hj. cbn [advance shown].
      replace (shown w + 1 + j)%nat with (shown w + S j)%nat by lia.
      apply Hr. simpl; lia.
    + intros y Hy. apply Hl. now right.
Qed.

Lemma frames_of_step_events (flag : bool) (i : Z) :
  label_defined (progress_of i) = true ->
  frames_of (step_events phase progress_of seconds viz_style flag i)
  = [(phase, progress_of i)].
Proof.
  intros Hl.
  destruct (create_visualization_defined _ viz_style phase Hl) as [fig Hfig].
  unfold step_events, frame_events. rewrite Hfig. reflexivity.
Qed.

Lemma headings_of_step_events (flag : bool) (i : Z) :
  headings_of (step_events phase progress_of seconds viz_style flag i) = [].
Proof.
  unfold step_events, frame_events.
  destruct (create_visualization _ _ _); reflexivity.
Qed.

Lemma frames_of_steps (xs : list Z) :
  (forall x, In x xs -> label_defined (progress_of x) = true) ->
  frames_of
    (flat_map (step_events phase progress_of seconds viz_style true) xs)
  = map (fun i => (phase, progress_of i)) xs.
Proof.
  induction xs as [|x xs IH]; intros Hl; [reflexivity|].
  cbn [flat_map map]. unfold frames_of in *. rewrite flat_map_app.
  fold (frames_of (step_events phase progress_of seconds viz_style true x)).
  rewrite frames_of_step_events by (apply Hl; now left).
  rewrite IH by (intros y Hy; apply Hl; now right). reflexivity.
Qed.

Lemma headings_of_steps (xs : list Z) :
  headings_of
    (flat_map (step_events phase progress_of seconds viz_style true) xs)
  = [].
Proof.
  induction xs as [|x xs IH]; [reflexivity|].
  cbn [flat_map]. unfold headings_of in *. rewrite flat_map_app, IH.
  fold (headings_of (step_events phase progress_of seconds viz_style true x)).
  now rewrite headings_of_step_events.
Qed.

End Steps.

(** ** One uninterrupted cycle *)

Ltac by_index H k :=
  etransitivity; [| apply (H k); simpl; lia];
  first [ f_equal; lia | do 3 f_equal; lia ].

Lemma inhale_labels_defined :
  forallb (fun i => label_defined (inhale_progress i)) (Py.range (steps + 1))
  = true.
Proof. vm_compute. reflexivity. Qed.

Lemma exhale_labels_defined :
  forallb (fun i => label_defined (exhale_progress i)) (Py.range (steps + 1))
  = true.
Proof. vm_compute. reflexivity. Qed.

Lemma inhale_label_defined (i : Z) :
  In i (Py.range (steps + 1)) -> label_defined (inhale_progress i) = true.
Proof.
  intros Hi. pose proof inhale_labels_defined as H.
  rewrite forallb_forall in H. now apply H.
Qed.

Lemma exhale_label_defined (i : Z) :
  In i (Py.range (steps + 1)) -> label_defined (exhale_progress i) = true.
Proof.
  intros Hi. pose proof exhale_labels_defined as H.
  rewrite forallb_forall in H. now apply H.
Qed.

Lemma range_length : List.length (Py.range (steps + 1)) = 21%nat.
Proof. reflexivity. Qed.

(** The polling loop of the hold phase leaves after [n] suspensions when the
    clock says so at its [n]-th reading and not before. *)
Lemma hold_wait_polls (hold_start hold_time : float) (n : nat) :
  forall (fuel : nat) (w : World),
    (n < fuel)%nat ->
    running w = true ->
    (forall j, (j < n)%nat -> stop_during env (sleeps w + j) = false) ->
    (forall j, (j < n)%nat ->
       (time_time env (clock_reads w + j) - hold_start <? hold_time)%float
       = true) ->
    (time_time env (clock_reads w + n) - hold_start <? hold_time)%float
    = false ->
    hold_wait fuel hold_start hold_time w
    = Done tt (advance w true n 0 (S n) (hold_polls n)).
Proof.
  induction n as [|n IH]; intros fuel w Hf Hw Hs Ht He;
    (destruct fuel as [|fuel]; [lia|]); cbn [hold_wait];
    rewrite (bind_Done _ _ _ _ _ (now_advance w)).
  - rewrite Nat.add_0_r in He. rewrite He. unfold ret. now rewrite Hw.
  - pose proof (Ht 0%nat ltac:(lia)) as Ht0. rewrite Nat.add_0_r in Ht0.
    rewrite Ht0.
    rewrite (bind_Done _ _ _ _ _ (get_running_advance _)).
    cbn [advance running]. rewrite Hw. cbn [negb].
    rewrite (bind_Done _ _ _ _ _ (sleep_advance _ _)).
    cbn [advance running sleeps].
    pose proof (Hs 0%nat ltac:(lia)) as Hs0.
    rewrite !Nat.add_0_r in *. rewrite Hs0. cbn [negb andb].
    rewrite IH.
    + rewrite !advance_advance. cbn [hold_polls app].
      f_equal.
    + lia.
    + reflexivity.
    + intros j Hj. cbn [advance sleeps]. by_index Hs (S j).
    + intros j Hj. cbn [advance clock_reads]. by_index Ht (S j).
    + cbn [advance clock_reads]. rewrite <- He. do 3 f_equal. lia.
Qed.

Lemma frames_of_app (a b : list Event) :
  frames_of (a ++ b) = frames_of a ++ frames_of b.
Proof. unfold frames_of. apply flat_map_app. Qed.

Lemma headings_of_app (a b : list Event) :
  headings_of (a ++ b) = headings_of a ++ headings_of b.
Proof. unfold headings_of. apply flat_map_app. Qed.

Lemma frames_of_check (b : bool) (l : list Event) :
  frames_of (ECheck b :: l) = frames_of l.
Proof. reflexivity. Qed.

Lemma frames_of_markdown (s : string) (l : list Event) :
  frames_of (EMarkdown s :: l) = frames_of l.
Proof. reflexivity. Qed.

Lemma frames_of_nil : frames_of [] = [].
Proof. reflexivity. Qed.

Lemma headings_of_check (b : bool) (l : list Event) :
  headings_of (ECheck b :: l) = headings_of l.
Proof. reflexivity. Qed.

Lemma headings_of_markdown (s : string) (l : list Event) :
  headings_of (EMarkdown s :: l) = s :: headings_of l.
Proof. reflexivity. Qed.

Lemma headings_of_nil : headings_of [] = [].
Proof. reflexivity. Qed.

Lemma frames_of_hold_polls (n : nat) : frames_of (hold_polls n) = [].
Proof. induction n; [reflexivity | exact IHn]. Qed.

Lemma headings_of_hold_polls (n : nat) : headings_of (hold_polls n) = [].
Proof. induction n; [reflexivity | exact IHn]. Qed.

Create Rewrite HintDb traces.
#[local] Hint Rewrite frames_of_app frames_of_check frames_of_markdown
  frames_of_nil frames_of_hold_polls headings_of_app headings_of_check
  headings_of_markdown headings_of_nil headings_of_hold_polls : traces.

Lemma cycle_uninterrupted (fuel n : nat)
  (inhale_time exhale_time hold_time : float) (viz_style : string)
  (w : World) :
  running w = true ->
  (forall k, stop_during env k = false) ->
  (forall k, render_failure env k = None) ->
  (n < fuel)%nat ->
  ((0 <? hold_time)%float = true ->
   (forall j, (j < n)%nat ->
      (time_time env (clock_reads w + 1 + j)
       - time_time env (clock_reads w) <? hold_time)%float = true) /\
   (time_time env (clock_reads w + 1 + n)
    - time_time env (clock_reads w) <? hold_time)%float = false) ->
  exists w',
    cycle fuel inhale_time exhale_time hold_time viz_style w = Done false w' /\
    running w' = true /\
    trace w'
    = trace w ++ inhale_events inhale_time viz_style
      ++ hold_events hold_time n ++ exhale_events exhale_time viz_style.
Proof.
  intros Hw Hquiet Hrender Hfuel Hhold.
  unfold cycle.
  rewrite (bind_Done _ _ _ _ _ (markdown_advance _ _)).
  rewrite inhale_phase_steps.
  erewrite bind_Done.
  2:{ apply for_each_live; auto using inhale_label_defined. }
  rewrite (bind_Done _ _ _ _ _ (get_running_advance _)).
  cbn [advance running negb].
  assert (Hh : exists w1,
             hold_phase fuel hold_time
               (advance
                  (advance (advance w (running w) 0 0 0 [EMarkdown "## Inhale"])
                     true (List.length (Py.range (steps + 1)))
                     (List.length (Py.range (steps + 1))) 0
                     (flat_map
                        (step_events "inhale" inhale_progress
                           (inhale_time / Py.float_of_Z steps) viz_style true)
                        (Py.range (steps + 1))))
                  true 0 0 0 [ECheck true])
             = Done tt w1 /\ running w1 = true /\
             trace w1
             = trace w ++ inhale_events inhale_time viz_style
               ++ [ECheck true]
               ++ (if (0 <? hold_time)%float
                   then EMarkdown "## Hold" :: hold_polls n else [])).
  { unfold hold_phase. destruct (0 <? hold_time)%float eqn:Hpos.
    - destruct (Hhold eq_refl) as [Ht He].
      rewrite (bind_Done _ _ _ _ _ (markdown_advance _ _)).
      rewrite (bind_Done _ _ _ _ _ (now_advance _)).
      cbn [advance running clock_reads].
      rewrite !Nat.add_0_r.
      erewrite hold_wait_polls with (n := n).
      + eexists. split; [reflexivity|]. split; [reflexivity|].
        cbn [advance trace]. unfold inhale_events.
        rewrite <- !app_assoc. reflexivity.
      + exact Hfuel.
      + reflexivity.
      + intros. apply Hquiet.
      + intros j Hj. cbn [advance clock_reads]. rewrite !Nat.add_0_r. now apply Ht.
      + cbn [advance clock_reads]. rewrite !Nat.add_0_r. exact He.
    - eexists. split; [reflexivity|]. split; [reflexivity|].
      cbn [advance trace]. unfold inhale_events.
      rewrite <- !app_assoc. reflexivity. }
  destruct Hh as (w1 & Hrun & Hw1 & Htr1).
  rewrite (bind_Done _ _ _ _ _ Hrun).
  rewrite (bind_Done _ _ _ _ _ (get_running_advance _)).
  rewrite Hw1. cbn [negb].
  rewrite (bind_Done _ _ _ _ _ (markdown_advance _ _)).
  rewrite exhale_phase_steps.
  erewrite bind_Done.
  2:{ apply for_each_live; auto using exhale_label_defined. }
  eexists. split; [reflexivity|]. split; [reflexivity|].
  cbn [advance trace]. rewrite Htr1.
  unfold hold_events, exhale_events.
  rewrite <- !app_assoc. reflexivity.
Qed.

(** ** The checkpoint discipline of the loop *)

Lemma monitor_app (k : Knowledge) (a b : list Event) :
  monitor k (a ++ b)
  = match monitor k a with
    | Some k' => monitor k' b
    | None => None
    end.
Proof.
  revert k. induction a as [|e a IH]; intros k; [reflexivity|].
  cbn [app monitor]. destruct (monitor_step k e); [apply IH | reflexivity].
Qed.

Lemma monitor_snoc (k k' : Knowledge) (evs : list Event) (e : Event) :
  monitor k evs = Some k' ->
  monitor k (evs ++ [e]) = monitor_step k' e.
Proof.
  intros H. rewrite monitor_app, H. cbn [monitor].
  destruct (monitor_step k' e); reflexivity.
Qed.

Section Discipline.

Variable t0 : list Event.

Lemma inv_log (k k' : Knowledge) (e : Event) (w : World) :
  inv t0 k w -> monitor_step k e = Some k' -> flag_ok k' w ->
  inv t0 k' (log e w).
Proof.
  intros [(evs & Htr & Hm) _] Hstep Hflag. split.
  - exists (evs ++ [e]). split.
    + cbn [log trace]. rewrite Htr. now rewrite app_assoc.
    + rewrite (monitor_snoc _ _ _ _ Hm). exact Hstep.
  - destruct k'; exact Hflag.
Qed.

Lemma inv_in_one (k : Knowledge) (ks : list Knowledge) (w : World) :
  In k ks -> inv t0 k w -> inv_in t0 ks w.
Proof. intros Hin H. exists k. now split. Qed.

Lemma inv_in_any (ks : list Knowledge) (w : World) :
  inv_in t0 ks w -> inv_in t0 [Unknown; Checked; Emitted; Cancelled] w.
Proof.
  intros (k & _ & H). exists k. split; [|exact H].
  destruct k; simpl; auto.
Qed.

Lemma inv_in_incl (ks ks' : list Knowledge) (w : World) :
  incl ks ks' -> inv_in t0 ks w -> inv_in t0 ks' w.
Proof. intros Hi (k & Hk & H). exists k. split; [now apply Hi | exact H]. Qed.

Lemma spec_ret {A : Type} (a : A) (P : World -> Prop)
  (Q : A -> World -> Prop) :
  (forall w, P w -> Q a w) -> spec t0 P (ret a) Q.
Proof. intros H w Hw. cbn. now apply H. Qed.

Lemma spec_bind {A B : Type} (c : M A) (k : A -> M B) (P : World -> Prop)
  (Q : A -> World -> Prop) (R : B -> World -> Prop) :
  spec t0 P c Q -> (forall a, spec t0 (Q a) (k a) R) ->
  spec t0 P (bind c k) R.
Proof.
  intros Hc Hk w Hw. specialize (Hc w Hw). unfold bind.
  destruct (c w) as [a w'|e w'|w']; [|exact Hc|exact Hc].
  exact (Hk a w' Hc).
Qed.

Lemma spec_weaken {A : Type} (c : M A) (P P' : World -> Prop)
  (Q Q' : A -> World -> Prop) :
  spec t0 P c Q -> (forall w, P' w -> P w) ->
  (forall a w, Q a w -> Q' a w) ->
  spec t0 P' c Q'.
Proof.
  intros Hc HP HQ w Hw. specialize (Hc w (HP w Hw)).
  destruct (c w); auto.
Qed.

Lemma spec_out_of_fuel {A : Type} (ks : list Knowledge)
  (Q : A -> World -> Prop) :
  spec t0 (inv_in t0 ks) (fun w => OutOfFuel w) Q.
Proof. intros w Hw. cbn. eapply inv_in_any, Hw. Qed.

Lemma spec_get_running :
  spec t0 (inv_in t0 [Unknown; Checked; Cancelled]) get_running
    (fun b w => inv t0 (if b then Checked else Cancelled) w).
Proof.
  intros w (k & Hk & Hinv). unfold get_running.
  pose proof Hinv as [_ Hflag].
  destruct Hk as [<-|[<-|[<-|[]]]]; cbn [flag_ok] in Hflag.
  - destruct (running w) eqn:Hr;
      (eapply inv_log; [exact Hinv | reflexivity | exact Hr]).
  - rewrite Hflag. eapply inv_log; [exact Hinv | reflexivity | exact Hflag].
  - rewrite Hflag. eapply inv_log; [exact Hinv | reflexivity | exact Hflag].
Qed.

Lemma spec_markdown (s : string) :
  spec t0 (inv t0 Checked) (markdown s) (fun _ w => inv t0 Checked w).
Proof.
  intros w Hinv. unfold markdown.
  eapply inv_log; [exact Hinv | reflexivity | exact (proj2 Hinv)].
Qed.

Lemma spec_show_frame (progress : float) (style phase : string) :
  spec t0 (inv t0 Checked) (show_frame progress style phase)
    (fun _ w => inv t0 Emitted w).
Proof.
  intros w Hinv. unfold show_frame.
  destruct (create_visualization progress style phase) as [fig|e];
    [|exact Hinv].
  destruct (render_failure env (shown w)) as [e|].
  - exact Hinv.
  - apply (inv_log Checked Emitted (EFrame phase progress fig)
             {| running := running w; sleeps := sleeps w;
                shown := S (shown w); clock_reads := clock_reads w;
                trace := trace w |}).
    + exact Hinv.
    + reflexivity.
    + exact (proj2 Hinv).
Qed.

Lemma spec_sleep (seconds : float) :
  spec t0 (inv_in t0 [Checked; Emitted]) (sleep seconds)
    (fun _ w => inv t0 Unknown w).
Proof.
  intros w (k & Hk & (evs & Htr & Hm) & _). unfold sleep. split.
  - exists (evs ++ [ESleep seconds]). split.
    + cbn [trace]. rewrite Htr. now rewrite app_assoc.
    + rewrite (monitor_snoc _ _ _ _ Hm).
      destruct Hk as [<-|[<-|[]]]; reflexivity.
  - exact I.
Qed.

Lemma spec_now (k : Knowledge) :
  spec t0 (inv t0 k) now (fun _ w => inv t0 k w).
Proof.
  intros w [Htr Hflag]. unfold now. split; [exact Htr|].
  destruct k; exact Hflag.
Qed.

Lemma spec_phase_step (phase : string) (progress_of : Z -> float)
  (seconds : float) (viz_style : string) (i : Z) :
  spec t0 (inv t0 Checked)
    (phase_step phase progress_of seconds viz_style i)
    (fun stop w => inv t0 (if stop then Cancelled else Checked) w).
Proof.
  unfold phase_step.
  eapply spec_bind; [apply spec_show_frame|]. intros ?.
  eapply spec_bind.
  { eapply spec_weaken; [apply spec_sleep | | intros ? ? H; exact H].
    intros w H. eapply inv_in_one; [|exact H]. simpl; auto. }
  intros ?.
  eapply spec_bind.
  { eapply spec_weaken; [apply spec_get_running | | intros ? ? H; exact H].
    intros w H. eapply inv_in_one; [|exact H]. simpl; auto. }
  intros r. apply spec_ret. intros w H. destruct r; exact H.
Qed.

Lemma spec_for_each (phase : string) (progress_of : Z -> float)
  (seconds : float) (viz_style : string) (xs : list Z) :
  spec t0 (inv t0 Checked)
    (for_each xs (phase_step phase progress_of seconds viz_style))
    (fun _ w => inv_in t0 [Checked; Cancelled] w).
Proof.
  induction xs as [|x xs IH]; cbn [for_each].
  - apply spec_ret. intros w H. eapply inv_in_one; [|exact H]. simpl; auto.
  - eapply spec_bind; [apply spec_phase_step|].
    intros [|].
    + apply spec_ret. intros w H. eapply inv_in_one; [|exact H]. simpl; auto.
    + exact IH.
Qed.

Lemma spec_hold_wait (hold_start hold_time : float) (fuel : nat) :
  spec t0 (inv_in t0 [Unknown; Checked])
    (hold_wait fuel hold_start hold_time)
    (fun _ w => inv_in t0 [Unknown; Checked; Cancelled] w).
Proof.
  induction fuel as [|fuel IH]; cbn [hold_wait].
  - apply spec_out_of_fuel.
  - intros w (k & Hk & Hinv).
    assert (Hstep : spec t0 (inv t0 k)
              (t <- now ;;
               if (t - hold_start <? hold_time)%float then
                 (r <- get_running ;;
                  if negb r then ret tt
                  else (sleep 0.1%float ;;
                        hold_wait fuel hold_start hold_time))
               else ret tt)%act
              (fun _ w => inv_in t0 [Unknown; Checked; Cancelled] w)).
    { eapply spec_bind; [apply spec_now|]. intros t.
      destruct (t - hold_start <? hold_time)%float.
      - eapply spec_bind.
        { eapply spec_weaken; [apply spec_get_running | | intros ? ? H; exact H].
          intros v H. eapply inv_in_one; [|exact H].
          destruct Hk as [Hk|[Hk|[]]]; rewrite <- Hk; simpl; auto. }
        intros [|]; cbn [negb].
        + eapply spec_bind.
          { eapply spec_weaken; [apply spec_sleep | | intros ? ? H; exact H].
            intros v H. eapply inv_in_one; [|exact H]. simpl; auto. }
          intros ?. eapply spec_weaken; [exact IH | | intros ? ? H; exact H].
          intros v H. eapply inv_in_one; [|exact H]. simpl; auto.
        + apply spec_ret. intros v H. eapply inv_in_one; [|exact H].
          simpl; auto.
      - apply spec_ret. intros v H. eapply inv_in_one; [|exact H].
        destruct Hk as [Hk|[Hk|[]]]; rewrite <- Hk; simpl; auto. }
    exact (Hstep w Hinv).
Qed.

Lemma spec_hold_phase (fuel : nat) (hold_time : float) :
  spec t0 (inv t0 Checked) (hold_phase fuel hold_time)
    (fun _ w => inv_in t0 [Unknown; Checked; Cancelled] w).
Proof.
  unfold hold_phase. destruct (0 <? hold_time)%float.
  - eapply spec_bind; [apply spec_markdown|]. intros ?.
    eapply spec_bind; [apply spec_now|]. intros hold_start.
    eapply spec_weaken; [apply spec_hold_wait | | intros ? ? H; exact H].
    intros v H. eapply inv_in_one; [|exact H]. simpl; auto.
  - apply spec_ret. intros v H. eapply inv_in_one; [|exact H]. simpl; auto.
Qed.

Lemma spec_cycle (fuel : nat) (inhale_time exhale_time hold_time : float)
  (viz_style : string) :
  spec t0 (inv t0 Checked)
    (cycle fuel inhale_time exhale_time hold_time viz_style)
    (fun left w =>
       if left then inv t0 Cancelled w
       else inv_in t0 [Checked; Cancelled] w).
Proof.
  unfold cycle.
  eapply spec_bind; [apply spec_markdown|]. intros ?.
  eapply spec_bind; [rewrite inhale_phase_steps; apply spec_for_each|].
  intros ?.
  eapply spec_bind.
  { eapply spec_weaken; [apply spec_get_running | | intros ? ? H; exact H].
    intros v H. eapply inv_in_incl; [|exact H].
    intros k [<-|[<-|[]]]; simpl; auto. }
  intros [|]; cbn [negb]; [|apply spec_ret; intros v H; exact H].
  eapply spec_bind; [apply spec_hold_phase|]. intros ?.
  eapply spec_bind; [apply spec_get_running|].
  intros [|]; cbn [negb]; [|apply spec_ret; intros v H; exact H].
  eapply spec_bind; [apply spec_markdown|]. intros ?.
  eapply spec_bind; [rewrite exhale_phase_steps; apply spec_for_each|].
  intros ?. apply spec_ret. intros v H. exact H.
Qed.

Lemma spec_animation_loop (fuel : nat)
  (inhale_time exhale_time hold_time : float) (viz_style : string) :
  spec t0 (inv_in t0 [Unknown; Checked; Cancelled])
    (animation_loop fuel inhale_time exhale_time hold_time viz_style)
    (fun _ w => inv t0 Cancelled w).
Proof.
  induction fuel as [|fuel IH]; cbn [animation_loop].
  - apply spec_out_of_fuel.
  - eapply spec_bind; [apply spec_get_running|].
    intros [|]; cbn [negb]; [|apply spec_ret; intros v H; exact H].
    eapply spec_bind; [apply spec_cycle|].
    intros [|].
    + apply spec_ret. intros v H. exact H.
    + eapply spec_weaken; [exact IH | | intros ? ? H; exact H].
      intros v H. eapply inv_in_incl; [|exact H].
      intros k [<-|[<-|[]]]; simpl; auto.
Qed.

End Discipline.

(** *** From the monitor to the properties of the trace *)

Lemma monitor_checked_origin (pre : list Event) :
  monitor Unknown pre = Some Checked ->
  exists pre' heads,
    pre = pre' ++ ECheck true :: heads /\ Forall is_heading heads.
Proof.
  induction pre as [|e pre IH] using rev_ind; [discriminate|].
  rewrite monitor_app. destruct (monitor Unknown pre) as [k|]; [|discriminate].
  cbn [monitor]. destruct (monitor_step k e) as [k'|] eqn:Hstep; [|discriminate].
  intros [= ->].
  destruct e as [s| | |[|]|]; destruct k; try discriminate.
  - destruct (IH eq_refl) as (pre' & heads & -> & Hh).
    exists pre', (heads ++ [EMarkdown s]). split.
    + now rewrite <- app_assoc.
    + apply Forall_app. split; [exact Hh|]. constructor; [|constructor].
      now exists s.
  - exists pre, []. split; [reflexivity | constructor].
  - exists pre, []. split; [reflexivity | constructor].
Qed.

Lemma monitor_cancelled_tail (post : list Event) (k : Knowledge) :
  monitor Cancelled post = Some k ->
  Forall (fun e => e = ECheck false) post.
Proof.
  induction post as [|e post IH]; [constructor|].
  cbn [monitor]. destruct e as [| | |[|]|]; try discriminate.
  cbn [monitor_step]. intros H. constructor; [reflexivity | exact (IH H)].
Qed.

Lemma monitor_discipline (evs : list Event) (k : Knowledge) :
  monitor Unknown evs = Some k ->
  checked_before_each_frame evs /\ checked_after_each_sleep evs /\
  nothing_after_cancel evs.
Proof.
  intros Hm. split; [|split].
  - intros pre ph p fig post ->.
    rewrite monitor_app in Hm.
    destruct (monitor Unknown pre) as [k1|] eqn:Hpre; [|discriminate].
    cbn [monitor] in Hm. destruct k1; try discriminate.
    now apply monitor_checked_origin.
  - intros pre d post ->.
    rewrite monitor_app in Hm.
    destruct (monitor Unknown pre) as [k1|]; [|discriminate].
    cbn [monitor] in Hm.
    destruct (monitor_step k1 (ESleep d)) as [k2|] eqn:Hstep; [|discriminate].
    assert (k2 = Unknown) as -> by (destruct k1; now inversion Hstep).
    destruct post as [|e post]; [now left|right].
    cbn [monitor] in Hm. destruct e as [| | |b|]; try discriminate.
    now exists b, post.
  - intros pre post ->.
    rewrite monitor_app in Hm.
    destruct (monitor Unknown pre) as [k1|]; [|discriminate].
    cbn [monitor] in Hm.
    destruct (monitor_step k1 (ECheck false)) as [k2|] eqn:Hstep;
      [|discriminate].
    assert (k2 = Cancelled) as -> by (destruct k1; now inversion Hstep).
    eapply monitor_cancelled_tail, Hm.
Qed.

Lemma inv_start (w : World) :
  inv_in (trace w) [Unknown; Checked; Cancelled] w.
Proof.
  exists Unknown. split; [simpl; auto|]. split; [|exact I].
  exists []. split; [now rewrite app_nil_r | reflexivity].
Qed.

Lemma run_monitored (fuel : nat) (inhale_time exhale_time hold_time : float)
  (viz_style : string) (w : World) :
  exists evs k,
    trace (world_of (run_breathing_animation fuel inhale_time exhale_time
                       hold_time viz_style w))
    = trace w ++ evs /\
    monitor Unknown evs = Some k.
Proof.
  pose proof (spec_animation_loop (trace w) fuel inhale_time exhale_time
                hold_time viz_style w (inv_start w)) as H.
  unfold run_breathing_animation.
  destruct (animation_loop fuel inhale_time exhale_time hold_time viz_style w)
    as [[] w'|e w'|w'].
  - destruct H as [(evs & Htr & Hm) _]. now exists evs, Cancelled.
  - destruct H as [(evs & Htr & Hm) _].
    destruct (is_Exception e).
    + exists (evs ++ [EError ("Animation error: " ++ exn_str e)%string]),
        Cancelled.
      split.
      * cbn [world_of set_running log trace]. rewrite Htr.
        now rewrite app_assoc.
      * now rewrite (monitor_snoc _ _ _ _ Hm).
    + now exists evs, Checked.
  - destruct H as (k & _ & (evs & Htr & Hm) & _). now exists evs, k.
Qed.

(** ** The claims on the loop *)

Lemma range_split (i : nat) :
  (i <= 20)%nat ->
  Py.range (steps + 1)
  = map Z.of_nat (seq 0 i) ++ Z.of_nat i :: map Z.of_nat (seq (S i) (20 - i)).
Proof.
  intros Hi. unfold Py.range.
  change (Z.to_nat (steps + 1)) with 21%nat.
  replace 21%nat with (i + S (20 - i))%nat by lia.
  rewrite seq_app, map_app. reflexivity.
Qed.

Lemma range_prefix (i : nat) :
  Py.range (Z.of_nat i + 1) = map Z.of_nat (seq 0 i) ++ [Z.of_nat i].
Proof.
  unfold Py.range. replace (Z.to_nat (Z.of_nat i + 1)) with (i + 1)%nat by lia.
  rewrite seq_app, map_app. reflexivity.
Qed.

Lemma in_range_prefix (i : nat) (y : Z) :
  (i <= 20)%nat -> In y (map Z.of_nat (seq 0 i) ++ [Z.of_nat i]) ->
  In y (Py.range (steps + 1)).
Proof.
  intros Hi Hy. rewrite (range_split i Hi).
  apply in_app_or in Hy. apply in_or_app.
  destruct Hy as [Hy|[<-|[]]]; [now left | right; now left].
Qed.

(** A frame that fails in the iteration of [x]: the loop over
    [pre ++ x :: post] raises there. *)
Lemma for_each_fails (phase : string) (progress_of : Z -> float)
  (seconds : float) (viz_style : string) (e : PyExn) (pre : list Z) (x : Z)
  (post : list Z) :
  forall w : World,
    running w = true ->
    (forall j, (j < List.length pre)%nat ->
               stop_during env (sleeps w + j) = false) ->
    (forall j, (j < List.length pre)%nat ->
               render_failure env (shown w + j) = None) ->
    render_failure env (shown w + List.length pre) = Some e ->
    (forall y, In y (pre ++ [x]) -> label_defined (progress_of y) = true) ->
    for_each (pre ++ x :: post)
      (phase_step phase progress_of seconds viz_style) w
    = Raised e
        (advance w true (List.length pre) (S (List.length pre)) 0
           (flat_map (step_events phase progress_of seconds viz_style true)
              pre)).
Proof.
  induction pre as [|p pre IH]; intros w Hw Hs Hr Hfail Hl.
  - cbn [app for_each List.length flat_map].
    destruct (create_visualization_defined (progress_of x) viz_style phase)
      as [fig Hfig]; [apply Hl; now left|].
    rewrite Nat.add_0_r in Hfail.
    unfold phase_step. erewrite bind_Raised; [reflexivity|].
    erewrite bind_Raised; [reflexivity|].
    unfold show_frame. rewrite Hfig, Hfail. unfold advance.
    rewrite <- Hw. do 2 f_equal; try lia. now rewrite app_nil_r.
  - cbn [app for_each].
    erewrite bind_Done.
    2:{ apply phase_step_shows.
        - apply Hl. now left.
        - specialize (Hr 0%nat). rewrite Nat.add_0_r in Hr. apply Hr. simpl; lia.
        - exact Hw. }
    specialize (Hs 0%nat ltac:(simpl; lia)) as Hs0.
    rewrite Nat.add_0_r in Hs0. rewrite Hs0. cbn [negb].
    rewrite IH.
    + rewrite advance_advance. cbn [flat_map List.length]. f_equal.
    + reflexivity.
    + intros j Hj. cbn [advance sleeps]. by_index Hs (S j).
    + intros j Hj. cbn [advance shown]. by_index Hr (S j).
    + cbn [advance shown]. rewrite <- Hfail. f_equal. simpl. lia.
    + intros y Hy. apply Hl. now right.
Qed.

(** ** What the loop logs, whatever happens *)

Lemma emits_ret {A : Type} (P : Event -> Prop) (a : A) : emits P (ret a).
Proof.
  intros w. exists []. cbn. rewrite app_nil_r. split; [reflexivity|constructor].
Qed.

Lemma emits_bind {A B : Type} (P : Event -> Prop) (c : M A) (k : A -> M B) :
  emits P c -> (forall a, emits P (k a)) -> emits P (bind c k).
Proof.
  intros Hc Hk w. destruct (Hc w) as (evs & Ht & Hf). unfold bind.
  destruct (c w) as [a w'|e w'|w']; cbn [world_of] in Ht.
  - destruct (Hk a w') as (evs' & Ht' & Hf'). exists (evs ++ evs'). split.
    + now rewrite Ht', Ht, app_assoc.
    + apply Forall_app. now split.
  - now exists evs.
  - now exists evs.
Qed.

Lemma emits_one {A : Type} (P : Event -> Prop) (e : Event) (c : M A) :
  P e -> (forall w, trace (world_of (c w)) = trace w ++ [e]) -> emits P c.
Proof.
  intros He Hc w. exists [e]. split; [apply Hc|]. constructor; [exact He|constructor].
Qed.

Lemma emits_get_running (P : Event -> Prop) :
  (forall b, P (ECheck b)) -> emits P get_running.
Proof.
  intros H w. exists [ECheck (running w)]. split; [reflexivity|].
  constructor; [apply H|constructor].
Qed.

Lemma emits_markdown (P : Event -> Prop) (s : string) :
  P (EMarkdown s) -> emits P (markdown s).
Proof. intros H. apply (emits_one P (EMarkdown s)); [exact H|reflexivity]. Qed.

Lemma emits_sleep (P : Event -> Prop) (seconds : float) :
  P (ESleep seconds) -> emits P (sleep seconds).
Proof. intros H. apply (emits_one P (ESleep seconds)); [exact H|reflexivity]. Qed.

Lemma emits_now (P : Event -> Prop) : emits P now.
Proof.
  intros w. exists []. cbn. rewrite app_nil_r. split; [reflexivity|constructor].
Qed.

Lemma emits_show_frame (P : Event -> Prop) (progress : float)
  (style phase : string) :
  (forall fig, create_visualization progress style phase = Ok fig ->
               P (EFrame phase progress fig)) ->
  emits P (show_frame progress style phase).
Proof.
  intros H w. unfold show_frame.
  destruct (create_visualization progress style phase) as [fig|e].
  - destruct (render_failure env (shown w)) as [e|].
    + exists []. cbn. rewrite app_nil_r. split; [reflexivity|constructor].
    + exists [EFrame phase progress fig]. split; [reflexivity|].
      constructor; [now apply H|constructor].
  - exists []. cbn. rewrite app_nil_r. split; [reflexivity|constructor].
Qed.

Lemma emits_for_each {X : Type} (P : Event -> Prop) (xs : list X)
  (body : X -> M bool) :
  (forall x, In x xs -> emits P (body x)) -> emits P (for_each xs body).
Proof.
  induction xs as [|x xs IH]; intros H; cbn [for_each].
  - apply emits_ret.
  - apply emits_bind; [apply H; now left|].
    intros [|]; [apply emits_ret|]. apply IH. intros y Hy. apply H. now right.
Qed.

Lemma emits_out_of_fuel {A : Type} (P : Event -> Prop) :
  emits P (fun w => @OutOfFuel A w).
Proof.
  intros w. exists []. cbn. rewrite app_nil_r. split; [reflexivity|constructor].
Qed.

Lemma emits_hold_wait (P : Event -> Prop) (hold_start hold_time : float)
  (fuel : nat) :
  (forall b, P (ECheck b)) -> P (ESleep 0.1%float) ->
  emits P (hold_wait fuel hold_start hold_time).
Proof.
  intros Hc Hs. induction fuel as [|fuel IH]; cbn [hold_wait].
  - apply emits_out_of_fuel.
  - apply emits_bind; [apply emits_now|]. intros t.
    destruct (t - hold_start <? hold_time)%float; [|apply emits_ret].
    apply emits_bind; [now apply emits_get_running|].
    intros [|]; cbn [negb]; [|apply emits_ret].
    apply emits_bind; [now apply emits_sleep|]. intros _. exact IH.
Qed.

Lemma loop_range_unit (i : Z) :
  In i (Py.range (steps + 1)) ->
  (0 <=? inhale_progress i)%float = true /\
  (inhale_progress i <=? 1)%float = true /\
  (0 <=? exhale_progress i)%float = true /\
  (exhale_progress i <=? 1)%float = true.
Proof.
  intros Hi.
  assert (H : forallb (fun i =>
                (0 <=? inhale_progress i)%float
                && (inhale_progress i <=? 1)%float
                && (0 <=? exhale_progress i)%float
                && (exhale_progress i <=? 1)%float) (Py.range (steps + 1))
              = true) by (vm_compute; reflexivity).
  rewrite forallb_forall in H. specialize (H i Hi).
  rewrite !andb_true_iff in H. tauto.
Qed.

Section Alphabet.

Variables inhale_time exhale_time hold_time : float.
Variable viz_style : string.

Lemma emits_inhale_phase : emits (loop_event inhale_time exhale_time viz_style)
    (inhale_phase inhale_time viz_style).
Proof.
  unfold inhale_phase. apply emits_for_each. intros i Hi.
  apply emits_bind.
  { apply emits_show_frame. intros fig Hfig. split; [exact Hfig|].
    exists i. split; [exact Hi|]. left. now split. }
  intros _. apply emits_bind; [apply emits_sleep; now left|].
  intros _. apply emits_bind; [apply emits_get_running; intros; exact I|].
  intros r. apply emits_ret.
Qed.

Lemma emits_exhale_phase : emits (loop_event inhale_time exhale_time viz_style)
    (exhale_phase exhale_time viz_style).
Proof.
  unfold exhale_phase. apply emits_for_each. intros i Hi.
  apply emits_bind.
  { apply emits_show_frame. intros fig Hfig. split; [exact Hfig|].
    exists i. split; [exact Hi|]. right. now split. }
  intros _. apply emits_bind; [apply emits_sleep; right; now left|].
  intros _. apply emits_bind; [apply emits_get_running; intros; exact I|].
  intros r. apply emits_ret.
Qed.

Lemma emits_hold_phase (fuel : nat) : emits (loop_event inhale_time exhale_time viz_style)
    (hold_phase fuel hold_time).
Proof.
  unfold hold_phase. destruct (0 <? hold_time)%float; [|apply emits_ret].
  apply emits_bind; [apply emits_markdown; right; now left|]. intros _.
  apply emits_bind; [apply emits_now|]. intros hold_start.
  apply emits_hold_wait; [intros; exact I | right; now right].
Qed.

Lemma emits_cycle (fuel : nat) :
  emits (loop_event inhale_time exhale_time viz_style)
    (cycle fuel inhale_time exhale_time hold_time viz_style).
Proof.
  unfold cycle.
  apply emits_bind; [apply emits_markdown; now left|]. intros _.
  apply emits_bind; [apply emits_inhale_phase|]. intros _.
  apply emits_bind; [apply emits_get_running; intros; exact I|].
  intros [|]; cbn [negb]; [|apply emits_ret].
  apply emits_bind; [apply emits_hold_phase|]. intros _.
  apply emits_bind; [apply emits_get_running; intros; exact I|].
  intros [|]; cbn [negb]; [|apply emits_ret].
  apply emits_bind; [apply emits_markdown; right; now right|]. intros _.
  apply emits_bind; [apply emits_exhale_phase|]. intros _.
  apply emits_ret.
Qed.

Lemma emits_animation_loop (fuel : nat) :
  emits (loop_event inhale_time exhale_time viz_style)
    (animation_loop fuel inhale_time exhale_time hold_time viz_style).
Proof.
  induction fuel as [|fuel IH]; cbn [animation_loop].
  - apply emits_out_of_fuel.
  - apply emits_bind; [apply emits_get_running; intros; exact I|].
    intros [|]; cbn [negb]; [|apply emits_ret].
    apply emits_bind; [apply emits_cycle|].
    intros [|]; [apply emits_ret | exact IH].
Qed.

End Alphabet.

(** X12.  Whatever the environment does and however long it runs, what
    [run_breathing_animation] logs is a sequence of loop events (headings
    "## Inhale", "## Hold", "## Exhale"; reads of the flag; suspensions of a
    twentieth of the inhale or exhale time or of a tenth of a second; frames)
    followed by at most one error message, which is then the last thing
    logged.  Every frame is the figure [create_visualization] returns for
    the style passed in, and its progress lies between 0 and 1. *)
Theorem only_loop_events (fuel : nat)
  (inhale_time exhale_time hold_time : float) (viz_style : string)
  (w : World) :
  exists evs tail,
    trace (world_of (run_breathing_animation fuel inhale_time exhale_time
                       hold_time viz_style w))
    = trace w ++ evs ++ tail /\
    Forall (loop_event inhale_time exhale_time viz_style) evs /\
    errors_of evs = [] /\
    (tail = [] \/
     exists e, is_Exception e = true /\
               tail = [EError ("Animation error: " ++ exn_str e)%string]) /\
    (forall phase progress fig,
       In (EFrame phase progress fig) evs ->
       create_visualization progress viz_style phase = Ok fig /\
       (0 <=? progress)%float = true /\ (progress <=? 1)%float = true).
Proof.
  destruct (emits_animation_loop inhale_time exhale_time hold_time viz_style
              fuel w) as (evs & Htr & Hok).
  assert (Herr : errors_of evs = []).
  { clear Htr. induction Hok as [|e evs He _ IH]; [reflexivity|].
    destruct e; cbn in He |- *; try exact IH. contradiction. }
  assert (Hfr : forall phase progress fig,
             In (EFrame phase progress fig) evs ->
             create_visualization progress viz_style phase = Ok fig /\
             (0 <=? progress)%float = true /\ (progress <=? 1)%float = true).
  { intros phase progress fig Hin.
    rewrite Forall_forall in Hok. specialize (Hok _ Hin).
    destruct Hok as (Hfig & i & Hi & Hcase).
    split; [exact Hfig|].
    destruct (loop_range_unit i Hi) as (A & B & C & D).
    destruct Hcase as [[_ ->]|[_ ->]]; now split. }
  unfold run_breathing_animation.
  destruct (animation_loop fuel inhale_time exhale_time hold_time viz_style w)
    as [[] w'|e w'|w']; cbn [world_of] in Htr.
  - exists evs, []. rewrite app_nil_r. cbn [world_of]. auto 6.
  - destruct (is_Exception e) eqn:He.
    + exists evs, [EError ("Animation error: " ++ exn_str e)%string].
      cbn [world_of set_running log trace]. rewrite Htr, app_assoc.
      split; [reflexivity|]. split; [exact Hok|]. split; [exact Herr|].
      split; [right; now exists e | exact Hfr].
    + exists evs, []. rewrite app_nil_r. cbn [world_of]. auto 6.
  - exists evs, []. rewrite app_nil_r. cbn [world_of]. auto 6.
Qed.

(** ** Stop during the hold and exhale phases *)

Lemma sleeps_of_app (a b : list Event) :
  sleeps_of (a ++ b) = sleeps_of a ++ sleeps_of b.
Proof. unfold sleeps_of. apply flat_map_app. Qed.

Lemma sleeps_of_hold_polls (n : nat) :
  sleeps_of (hold_polls n) = repeat 0.1%float n.
Proof.
  induction n as [|n IH]; [reflexivity|].
  cbn [hold_polls repeat]. cbn. f_equal. exact IH.
Qed.

Lemma sleeps_of_step_events (phase : string) (progress_of : Z -> float)
  (seconds : float) (viz_style : string) (flag : bool) (i : Z) :
  sleeps_of (step_events phase progress_of seconds viz_style flag i)
  = [seconds].
Proof.
  unfold step_events, frame_events.
  destruct (create_visualization _ _ _); reflexivity.
Qed.

Lemma sleeps_of_steps (phase : string) (progress_of : Z -> float)
  (seconds : float) (viz_style : string) (xs : list Z) :
  sleeps_of
    (flat_map (step_events phase progress_of seconds viz_style true) xs)
  = repeat seconds (List.length xs).
Proof.
  induction xs as [|x xs IH]; [reflexivity|].
  cbn [flat_map List.length repeat].
  now rewrite sleeps_of_app, sleeps_of_step_events, IH.
Qed.

Lemma bind_assoc {A B C : Type} (c : M A) (k : A -> M B) (k' : B -> M C)
  (w : World) :
  bind (bind c k) k' w = bind c (fun a => bind (k a) k') w.
Proof. unfold bind. destruct (c w); reflexivity. Qed.

(** The body of the loop up to the hold phase, when the inhale phase is not
    disturbed. *)
Lemma cycle_to_hold (fuel : nat) (inhale_time exhale_time hold_time : float)
  (viz_style : string) (w : World) :
  running w = true ->
  (forall j, (j < 21)%nat -> stop_during env (sleeps w + j) = false) ->
  (forall j, (j < 21)%nat -> render_failure env (shown w + j) = None) ->
  cycle fuel inhale_time exhale_time hold_time viz_style w
  = (hold_phase fuel hold_time ;;
     r <- get_running ;;
     if negb r then ret true
     else (markdown "## Exhale" ;;
           exhale_phase exhale_time viz_style ;;
           ret false))%act
      (advance w true 21 21 0
         (inhale_events inhale_time viz_style ++ [ECheck true])).
Proof.
  intros Hw Hs Hr. unfold cycle.
  rewrite (bind_Done _ _ _ _ _ (markdown_advance _ _)).
  rewrite inhale_phase_steps.
  erewrite bind_Done.
  2:{ apply for_each_live; rewrite ?range_length.
      - exact Hw.
      - intros j Hj. cbn [advance sleeps]. by_index Hs j.
      - intros j Hj. cbn [advance shown]. by_index Hr j.
      - exact inhale_label_defined. }
  rewrite (bind_Done _ _ _ _ _ (get_running_advance _)).
  cbn [advance running negb]. rewrite range_length.
  unfold inhale_events.
  match goal with
  | |- bind _ _ ?a = bind _ _ ?b => replace a with b; [reflexivity|]
  end.
  unfold advance. cbn [running sleeps shown clock_reads trace].
  f_equal; try lia. cbn [app]. now rewrite <- !app_assoc.
Qed.

(** The body of the loop up to the first exhale frame, when neither the
    inhale phase nor the hold phase is disturbed. *)
Lemma cycle_to_exhale (fuel n : nat)
  (inhale_time exhale_time hold_time : float) (viz_style : string)
  (w : World) :
  running w = true ->
  (forall j, (j < 21 + n)%nat -> stop_during env (sleeps w + j) = false) ->
  (forall j, (j < 21)%nat -> render_failure env (shown w + j) = None) ->
  (n < fuel)%nat ->
  ((0 <? hold_time)%float = false -> n = 0%nat) ->
  ((0 <? hold_time)%float = true ->
   (forall j, (j < n)%nat ->
      (time_time env (clock_reads w + 1 + j)
       - time_time env (clock_reads w) <? hold_time)%float = true) /\
   (time_time env (clock_reads w + 1 + n)
    - time_time env (clock_reads w) <? hold_time)%float = false) ->
  exists c,
    cycle fuel inhale_time exhale_time hold_time viz_style w
    = (exhale_phase exhale_time viz_style ;; ret false)%act
        (advance w true (21 + n) 21 c
           (inhale_events inhale_time viz_style ++ hold_events hold_time n
            ++ [EMarkdown "## Exhale"])).
Proof.
  intros Hw Hs Hr Hfuel Hzero Hclock.
  rewrite cycle_to_hold; [|exact Hw | intros; apply Hs; lia | exact Hr].
  unfold hold_phase, hold_events.
  destruct (0 <? hold_time)%float eqn:Hpos.
  - destruct (Hclock eq_refl) as [Ht He].
    exists (S (S n)).
    rewrite bind_assoc, (bind_Done _ _ _ _ _ (markdown_advance _ _)).
    rewrite bind_assoc, (bind_Done _ _ _ _ _ (now_advance _)).
    erewrite (bind_Done _ _ _ _ _).
    2:{ apply hold_wait_polls with (n := n).
        - exact Hfuel.
        - reflexivity.
        - intros j Hj. cbn [advance sleeps]. by_index Hs (21 + j)%nat.
        - intros j Hj. cbn [advance clock_reads].
          rewrite !Nat.add_0_r. etransitivity; [|apply (Ht j Hj)].
          repeat (f_equal; try lia).
        - cbn [advance clock_reads]. rewrite !Nat.add_0_r.
          rewrite <- He. repeat (f_equal; try lia). }
    rewrite (bind_Done _ _ _ _ _ (get_running_advance _)).
    cbn [advance running negb].
    rewrite (bind_Done _ _ _ _ _ (markdown_advance _ _)).
    cbn [advance running].
    match goal with
    | |- bind _ _ ?a = bind _ _ ?b => replace a with b; [reflexivity|]
    end.
    unfold advance. cbn [running sleeps shown clock_reads trace].
    f_equal; try lia. cbn [app]. now rewrite <- !app_assoc.
  - rewrite (Hzero eq_refl). exists 0%nat.
    unfold ret at 1. cbn [bind].
    rewrite (bind_Done _ _ _ _ _ (get_running_advance _)).
    cbn [advance running negb].
    rewrite (bind_Done _ _ _ _ _ (markdown_advance _ _)).
    cbn [advance running].
    match goal with
    | |- bind _ _ ?a = bind _ _ ?b => replace a with b; [reflexivity|]
    end.
    unfold advance. cbn [running sleeps shown clock_reads trace].
    f_equal; try lia. cbn [app]. now rewrite <- !app_assoc.
Qed.

(** The polling loop of the hold phase when Stop arrives during its
    [k]-th suspension: it polls once more at most. *)
Lemma hold_wait_stopped (hold_start hold_time : float) (k : nat) :
  forall (fuel : nat) (w : World),
    (S k < fuel)%nat ->
    running w = true ->
    (forall j, (j < k)%nat -> stop_during env (sleeps w + j) = false) ->
    stop_during env (sleeps w + k) = true ->
    (forall j, (j <= k)%nat ->
       (time_time env (clock_reads w + j) - hold_start <? hold_time)%float
       = true) ->
    exists evs,
      (evs = [] \/ evs = [ECheck false]) /\
      hold_wait fuel hold_start hold_time w
      = Done tt (advance w false (S k) 0 (S (S k)) (hold_polls (S k) ++ evs)).
Proof.
  induction k as [|k IH]; intros fuel w Hf Hw Hs Hstop Ht;
    (destruct fuel as [|fuel]; [lia|]); cbn [hold_wait];
    rewrite (bind_Done _ _ _ _ _ (now_advance w));
    pose proof (Ht 0%nat ltac:(lia)) as Ht0; rewrite Nat.add_0_r in Ht0;
    rewrite Ht0;
    rewrite (bind_Done _ _ _ _ _ (get_running_advance _));
    cbn [advance running]; rewrite Hw; cbn [negb];
    rewrite (bind_Done _ _ _ _ _ (sleep_advance _ _));
    cbn [advance running sleeps].
  - rewrite !Nat.add_0_r in *. rewrite Hstop. cbn [negb andb].
    destruct fuel as [|fuel]; [lia|]. cbn [hold_wait].
    rewrite (bind_Done _ _ _ _ _ (now_advance _)).
    cbn [advance clock_reads].
    match goal with
    | |- context [(?t - hold_start <? hold_time)%float] =>
        destruct (t - hold_start <? hold_time)%float
    end.
    + exists [ECheck false]. split; [now right|].
      rewrite (bind_Done _ _ _ _ _ (get_running_advance _)).
      cbn [advance running negb]. unfold ret.
      rewrite !advance_advance. reflexivity.
    + exists []. split; [now left|]. unfold ret.
      rewrite !advance_advance. reflexivity.
  - pose proof (Hs 0%nat ltac:(lia)) as Hs0.
    rewrite !Nat.add_0_r in *. rewrite Hs0. cbn [negb andb].
    destruct (IH fuel
                (advance
                   (advance (advance w true 0 0 1 []) true 0 0 0
                      [ECheck true]) true 1 0 0 [ESleep 0.1%float]))
      as (evs & Hevs & Hrun).
    + lia.
    + reflexivity.
    + intros j Hj. cbn [advance sleeps]. by_index Hs (S j).
    + cbn [advance sleeps]. rewrite <- Hstop. f_equal. lia.
    + intros j Hj. cbn [advance clock_reads]. by_index Ht (S j).
    + exists evs. split; [exact Hevs|].
      rewrite Hrun.
      rewrite !advance_advance. cbn [hold_polls app].
      f_equal.
Qed.

(** ** Failing frames leave the loop at once *)

Lemma fails_ret {A : Type} (w0 : World) (a : A) : fails_at_once w0 (ret a).
Proof. intros w Hw. exact Hw. Qed.

Lemma fails_bind {A B : Type} (w0 : World) (c : M A) (k : A -> M B) :
  fails_at_once w0 c -> (forall a, fails_at_once w0 (k a)) ->
  fails_at_once w0 (bind c k).
Proof.
  intros Hc Hk w Hw. specialize (Hc w Hw). unfold bind.
  destruct (c w) as [a w'|e w'|w']; [|exact Hc|exact Hc].
  exact (Hk a w' Hc).
Qed.

(** A statement that displays nothing and logs no frame. *)
Lemma fails_idle {A : Type} (w0 : World) (c : M A) :
  (forall w, exists a w', c w = Done a w' /\ shown w' = shown w /\
                          frames_of (trace w') = frames_of (trace w)) ->
  fails_at_once w0 c.
Proof.
  intros Hc w (Hle & Hnone & Hlen).
  destruct (Hc w) as (a & w' & -> & Hs & Hf).
  unfold frames_fine. rewrite Hs, Hf. auto.
Qed.

Lemma fails_get_running (w0 : World) : fails_at_once w0 get_running.
Proof.
  apply fails_idle. intros w. eexists _, _. split; [reflexivity|].
  cbn [get_running log shown trace]. split; [reflexivity|].
  now rewrite frames_of_app, app_nil_r.
Qed.

Lemma fails_markdown (w0 : World) (s : string) :
  fails_at_once w0 (markdown s).
Proof.
  apply fails_idle. intros w. eexists _, _. split; [reflexivity|].
  cbn [log shown trace]. split; [reflexivity|].
  now rewrite frames_of_app, app_nil_r.
Qed.

Lemma fails_sleep (w0 : World) (seconds : float) :
  fails_at_once w0 (sleep seconds).
Proof.
  apply fails_idle. intros w. eexists _, _. split; [reflexivity|].
  cbn [shown trace]. split; [reflexivity|].
  now rewrite frames_of_app, app_nil_r.
Qed.

Lemma fails_now (w0 : World) : fails_at_once w0 now.
Proof.
  apply fails_idle. intros w. eexists _, _. split; [reflexivity|].
  cbn [shown trace]. now split.
Qed.

Lemma fails_show_frame (w0 : World) (progress : float)
  (style phase : string) :
  label_defined progress = true ->
  fails_at_once w0 (show_frame progress style phase).
Proof.
  intros Hl w (Hle & Hnone & Hlen). unfold show_frame.
  destruct (create_visualization_defined progress style phase Hl)
    as [fig ->].
  destruct (render_failure env (shown w)) as [e|] eqn:Hr.
  - unfold frame_failed. cbn [shown trace].
    replace (S (shown w) - 1)%nat with (shown w) by lia.
    split; [lia|]. split; [exact Hr|]. split; [exact Hnone|].
    rewrite Hlen. lia.
  - unfold frames_fine. cbn [log shown trace]. split; [lia|]. split.
    + intros k Hk. destruct (Nat.eq_dec k (shown w)) as [->|Hne];
        [exact Hr | apply Hnone; lia].
    + rewrite frames_of_app, length_app, Hlen.
      change (List.length (frames_of [EFrame phase progress fig])) with 1%nat.
      lia.
Qed.

Lemma fails_phase_step (w0 : World) (phase : string)
  (progress_of : Z -> float) (seconds : float) (viz_style : string) (i : Z) :
  label_defined (progress_of i) = true ->
  fails_at_once w0 (phase_step phase progress_of seconds viz_style i).
Proof.
  intros Hl. unfold phase_step.
  apply fails_bind; [now apply fails_show_frame|]. intros _.
  apply fails_bind; [apply fails_sleep|]. intros _.
  apply fails_bind; [apply fails_get_running|]. intros r.
  apply fails_ret.
Qed.

Lemma fails_for_each (w0 : World) (phase : string)
  (progress_of : Z -> float) (seconds : float) (viz_style : string)
  (xs : list Z) :
  (forall x, In x xs -> label_defined (progress_of x) = true) ->
  fails_at_once w0
    (for_each xs (phase_step phase progress_of seconds viz_style)).
Proof.
  induction xs as [|x xs IH]; intros Hl; cbn [for_each].
  - apply fails_ret.
  - apply fails_bind; [apply fails_phase_step, Hl; now left|].
    intros [|]; [apply fails_ret|]. apply IH. intros y Hy. apply Hl.
    now right.
Qed.

Lemma fails_hold_wait (w0 : World) (hold_start hold_time : float)
  (fuel : nat) :
  fails_at_once w0 (hold_wait fuel hold_start hold_time).
Proof.
  induction fuel as [|fuel IH]; cbn [hold_wait].
  - intros w Hw. exact Hw.
  - apply fails_bind; [apply fails_now|]. intros t.
    destruct (t - hold_start <? hold_time)%float; [|apply fails_ret].
    apply fails_bind; [apply fails_get_running|].
    intros [|]; cbn [negb]; [|apply fails_ret].
    apply fails_bind; [apply fails_sleep|]. intros _. exact IH.
Qed.

Lemma fails_cycle (w0 : World) (fuel : nat)
  (inhale_time exhale_time hold_time : float) (viz_style : string) :
  fails_at_once w0 (cycle fuel inhale_time exhale_time hold_time viz_style).
Proof.
  unfold cycle.
  apply fails_bind; [apply fails_markdown|]. intros _.
  apply fails_bind.
  { rewrite inhale_phase_steps. apply fails_for_each.
    exact inhale_label_defined. }
  intros _. apply fails_bind; [apply fails_get_running|].
  intros [|]; cbn [negb]; [|apply fails_ret].
  apply fails_bind.
  { unfold hold_phase. destruct (0 <? hold_time)%float; [|apply fails_ret].
    apply fails_bind; [apply fails_markdown|]. intros _.
    apply fails_bind; [apply fails_now|]. intros hold_start.
    apply fails_hold_wait. }
  intros _. apply fails_bind; [apply fails_get_running|].
  intros [|]; cbn [negb]; [|apply fails_ret].
  apply fails_bind; [apply fails_markdown|]. intros _.
  apply fails_bind.
  { rewrite exhale_phase_steps. apply fails_for_each.
    exact exhale_label_defined. }
  intros _. apply fails_ret.
Qed.

Lemma fails_animation_loop (w0 : World) (fuel : nat)
  (inhale_time exhale_time hold_time : float) (viz_style : string) :
  fails_at_once w0
    (animation_loop fuel inhale_time exhale_time hold_time viz_style).
Proof.
  induction fuel as [|fuel IH]; cbn [animation_loop].
  - intros w Hw. exact Hw.
  - apply fails_bind; [apply fails_get_running|].
    intros [|]; cbn [negb]; [|apply fails_ret].
    apply fails_bind; [apply fails_cycle|].
    intros [|]; [apply fails_ret | exact IH].
Qed.

Lemma frames_fine_start (w : World) : frames_fine w w.
Proof.
  unfold frames_fine. split; [lia|]. split; [intros k Hk; lia | lia].
Qed.

(** The loop itself logs no error message. *)
Lemma loop_errors_unchanged (fuel : nat)
  (inhale_time exhale_time hold_time : float) (viz_style : string)
  (w : World) :
  errors_of (trace (world_of (animation_loop fuel inhale_time exhale_time
                                hold_time viz_style w)))
  = errors_of (trace w).
Proof.
  destruct (emits_animation_loop inhale_time exhale_time hold_time viz_style
              fuel w) as (evs & -> & Hok).
  unfold errors_of. rewrite flat_map_app.
  replace (flat_map _ evs) with (@nil string); [now rewrite app_nil_r|].
  induction Hok as [|e evs He _ IH]; [reflexivity|].
  destruct e; cbn in He |- *; try exact IH. contradiction.
Qed.

(** A frame the loop tries to display and that fails: the loop raises the
    exception of that frame at once, with the flag still set, the frames
    tried before in the log and no error message logged. *)
Lemma loop_fails_at_frame (fuel : nat)
  (inhale_time exhale_time hold_time : float) (viz_style : string)
  (w : World) (k : nat) (e : PyExn) :
  displays (animation_loop fuel inhale_time exhale_time hold_time viz_style)
    w k ->
  render_failure env k = Some e ->
  exists w1,
    animation_loop fuel inhale_time exhale_time hold_time viz_style w
    = Raised e w1 /\
    shown w1 = S k /\
    running w1 = true /\
    List.length (frames_of (trace w1))
    = (List.length (frames_of (trace w)) + (k - shown w))%nat /\
    errors_of (trace w1) = errors_of (trace w).
Proof.
  unfold displays. intros Hk Hfail.
  pose proof (fails_animation_loop w fuel inhale_time exhale_time hold_time
                viz_style w (frames_fine_start w)) as Hout.
  pose proof (spec_animation_loop (trace w) fuel inhale_time exhale_time
                hold_time viz_style w (inv_start w)) as Hinv.
  pose proof (loop_errors_unchanged fuel inhale_time exhale_time hold_time
                viz_style w) as Herr.
  destruct (animation_loop fuel inhale_time exhale_time hold_time viz_style w)
    as [[] w'|e' w'|w']; cbn [world_of] in Hk, Herr.
  - destruct Hout as (_ & Hnone & _). rewrite (Hnone k Hk) in Hfail.
    discriminate.
  - destruct Hout as (Hlt & Hlast & Hnone & Hlen).
    destruct (Nat.eq_dec k (shown w' - 1)) as [->|Hne].
    + rewrite Hlast in Hfail. injection Hfail as ->.
      exists w'. split; [reflexivity|]. split; [lia|].
      split; [exact (proj2 Hinv)|]. split; [exact Hlen | exact Herr].
    + rewrite (Hnone k ltac:(lia)) in Hfail. discriminate.
  - destruct Hout as (_ & Hnone & _). rewrite (Hnone k Hk) in Hfail.
    discriminate.
Qed.

Lemma cycle_fails_in_exhale (fuel n i : nat) (e : PyExn)
  (inhale_time exhale_time hold_time : float) (viz_style : string)
  (w : World) :
  running w = true ->
  (i <= 20)%nat ->
  (n < fuel)%nat ->
  ((0 <? hold_time)%float = false -> n = 0%nat) ->
  ((0 <? hold_time)%float = true ->
   (forall j, (j < n)%nat ->
      (time_time env (clock_reads w + 1 + j)
       - time_time env (clock_reads w) <? hold_time)%float = true) /\
   (time_time env (clock_reads w + 1 + n)
    - time_time env (clock_reads w) <? hold_time)%float = false) ->
  (forall j, (j < 21 + n + i)%nat -> stop_during env (sleeps w + j) = false) ->
  (forall j, (j < 21 + i)%nat -> render_failure env (shown w + j) = None) ->
  render_failure env (shown w + (21 + i)) = Some e ->
  exists c,
    cycle fuel inhale_time exhale_time hold_time viz_style w
    = Raised e
        (advance w true (21 + n + i) (S (21 + i)) c
           (inhale_events inhale_time viz_style ++ hold_events hold_time n
            ++ EMarkdown "## Exhale"
               :: flat_map
                    (step_events "exhale" exhale_progress
                       (exhale_time / Py.float_of_Z steps)%float viz_style
                       true)
                    (map Z.of_nat (seq 0 i)))).
Proof.
  intros Hw Hi Hfuel Hzero Hclock Hs Hr Hfail.
  destruct (cycle_to_exhale fuel n inhale_time exhale_time hold_time
              viz_style w Hw) as [c Hc];
    [intros; apply Hs; lia | intros; apply Hr; lia | exact Hfuel
    | exact Hzero | exact Hclock |].
  exists c. rewrite Hc.
  rewrite exhale_phase_steps, (range_split i Hi).
  erewrite bind_Raised.
  2:{ apply for_each_fails; rewrite ?length_map, ?length_seq.
      - reflexivity.
      - intros j Hj. cbn [advance sleeps]. by_index Hs (21 + n + j)%nat.
      - intros j Hj. cbn [advance shown]. by_index Hr (21 + j)%nat.
      - cbn [advance shown]. rewrite <- Hfail. f_equal. lia.
      - intros y Hy. apply exhale_label_defined.
        now apply (in_range_prefix i). }
  rewrite length_map, length_seq, !advance_advance.
  f_equal. unfold advance. f_equal; try lia.
  rewrite <- !app_assoc. reflexivity.
Qed.

Lemma cycle_stopped_in_inhale (fuel i : nat)
  (inhale_time exhale_time hold_time : float) (viz_style : string)
  (w : World) :
  running w = true ->
  (i <= 20)%nat ->
  (forall j, (j < i)%nat -> stop_during env (sleeps w + j) = false) ->
  stop_during env (sleeps w + i) = true ->
  (forall j, (j <= i)%nat -> render_failure env (shown w + j) = None) ->
  cycle fuel inhale_time exhale_time hold_time viz_style w
  = Done true
      (advance w false (S i) (S i) 0
         (EMarkdown "## Inhale"
          :: flat_map
               (step_events "inhale" inhale_progress
                  (inhale_time / Py.float_of_Z steps)%float viz_style true)
               (map Z.of_nat (seq 0 i))
          ++ step_events "inhale" inhale_progress
               (inhale_time / Py.float_of_Z steps)%float viz_style false
               (Z.of_nat i)
          ++ [ECheck false])).
Proof.
  intros Hw Hi Hs Hstop Hr. unfold cycle.
  rewrite (bind_Done _ _ _ _ _ (markdown_advance _ _)).
  rewrite inhale_phase_steps, (range_split i Hi).
  erewrite bind_Done.
  2:{ apply for_each_stopped; rewrite ?length_map, ?length_seq.
      - exact Hw.
      - intros j Hj. cbn [advance sleeps]. by_index Hs j.
      - cbn [advance sleeps]. rewrite <- Hstop. f_equal. lia.
      - intros j Hj. cbn [advance shown]. by_index Hr j.
      - intros y Hy. apply inhale_label_defined. now apply (in_range_prefix i). }
  rewrite (bind_Done _ _ _ _ _ (get_running_advance _)).
  cbn [advance running negb]. unfold ret.
  rewrite length_map, length_seq, !advance_advance.
  f_equal. unfold advance. f_equal; try lia.
  cbn [app]. now rewrite <- !app_assoc.
Qed.

Lemma cycle_fails_in_inhale (fuel i : nat) (e : PyExn)
  (inhale_time exhale_time hold_time : float) (viz_style : string)
  (w : World) :
  running w = true ->
  (i <= 20)%nat ->
  (forall j, (j < i)%nat -> stop_during env (sleeps w + j) = false) ->
  (forall j, (j < i)%nat -> render_failure env (shown w + j) = None) ->
  render_failure env (shown w + i) = Some e ->
  cycle fuel inhale_time exhale_time hold_time viz_style w
  = Raised e
      (advance w true i (S i) 0
         (EMarkdown "## Inhale"
          :: flat_map
               (step_events "inhale" inhale_progress
                  (inhale_time / Py.float_of_Z steps)%float viz_style true)
               (map Z.of_nat (seq 0 i)))).
Proof.
  intros Hw Hi Hs Hr Hfail. unfold cycle.
  rewrite (bind_Done _ _ _ _ _ (markdown_advance _ _)).
  rewrite inhale_phase_steps, (range_split i Hi).
  erewrite bind_Raised.
  2:{ apply for_each_fails; rewrite ?length_map, ?length_seq.
      - exact Hw.
      - intros j Hj. cbn [advance sleeps]. by_index Hs j.
      - intros j Hj. cbn [advance shown]. by_index Hr j.
      - cbn [advance shown]. rewrite <- Hfail. f_equal. lia.
      - intros y Hy. apply inhale_label_defined. now apply (in_range_prefix i). }
  rewrite length_map, length_seq, !advance_advance.
  reflexivity.
Qed.

Lemma progress_values_nominal :
  forallb (fun i => near (1 # 2 ^ 54) (inhale_progress i) (i # 20)
                    && near (1 # 2 ^ 54) (exhale_progress i) ((20 - i) # 20))
    (zrange 0 21)
  = true.
Proof. vm_compute. reflexivity. Qed.

Lemma progress_steps_inexact :
  forallb (fun i => near_step (1 # 2 ^ 53) (inhale_progress i)
                      (inhale_progress (i + 1))
                    && negb (exact_step (inhale_progress i)
                               (inhale_progress (i + 1)))
                    && near_step (1 # 2 ^ 53) (exhale_progress (i + 1))
                         (exhale_progress i)
                    && negb (exact_step (exhale_progress (i + 1))
                               (exhale_progress i)))
    (zrange 0 20)
  = true.
Proof. vm_compute. reflexivity. Qed.

(** C2, as the code has it.  One pass through the body of the loop in which
    nobody presses Stop and no frame fails, from a world whose flag is set
    and with step durations that [time.sleep] accepts: the body completes
    without [break] and logs, after the heading "## Inhale", the 21 inhale
    frames of progress [i / 20] for [i = 0, ..., 20] (the binary64 numbers
    0, 0.05, ..., 1, strictly increasing), then the reads of the flag of
    lines 124 and 136 around the heading "## Hold" and [n] polls exactly when
    [hold_time > 0] (no frame among them), then, after the heading
    "## Exhale", the 21 exhale frames of progress [1 - i / 20], strictly
    decreasing from 1 to 0.  The exhale values are the binary64 differences
    listed below: each is within 2^-54 of [(20 - i) / 20], but at
    [i = 11, 14, 16, 17, 18, 19] it is not the binary64 number nearest to
    [(20 - i) / 20] (0.44999999999999996 is shown where 0.45 is meant).
    Consecutive values of a phase differ by 1/20 only up to rounding: the
    difference is within 2^-53 of 1/20 and never equal to it.  [n] is the
    number of polls after which [time.time()] first reports that
    [hold_time] has elapsed. *)
Theorem one_full_cycle (fuel n : nat)
  (inhale_time exhale_time hold_time : float) (viz_style : string)
  (w : World) :
  sleep_accepts (inhale_time / Py.float_of_Z steps) = true ->
  sleep_accepts (exhale_time / Py.float_of_Z steps) = true ->
  running w = true ->
  (forall k, stop_during env k = false) ->
  (forall k, render_failure env k = None) ->
  (n < fuel)%nat ->
  ((0 <? hold_time)%float = true ->
   (forall j, (j < n)%nat ->
      (time_time env (clock_reads w + 1 + j)
       - time_time env (clock_reads w) <? hold_time)%float = true) /\
   (time_time env (clock_reads w + 1 + n)
    - time_time env (clock_reads w) <? hold_time)%float = false) ->
  exists w',
    cycle fuel inhale_time exhale_time hold_time viz_style w = Done false w' /\
    running w' = true /\
    trace w'
    = trace w ++ inhale_events inhale_time viz_style
      ++ hold_events hold_time n ++ exhale_events exhale_time viz_style /\
    frames_of (inhale_events inhale_time viz_style)
    = map (fun i => ("inhale", inhale_progress i)) (Py.range (steps + 1)) /\
    frames_of (hold_events hold_time n) = [] /\
    headings_of (hold_events hold_time n)
    = (if (0 <? hold_time)%float then ["## Hold"] else []) /\
    frames_of (exhale_events exhale_time viz_style)
    = map (fun i => ("exhale", exhale_progress i)) (Py.range (steps + 1)) /\
    List.length (Py.range (steps + 1)) = 21%nat /\
    map inhale_progress (Py.range (steps + 1))
    = [0; 0.05; 0.1; 0.15; 0.2; 0.25; 0.3; 0.35; 0.4; 0.45; 0.5; 0.55; 0.6;
       0.65; 0.7; 0.75; 0.8; 0.85; 0.9; 0.95; 1]%float /\
    increasing (map inhale_progress (Py.range (steps + 1))) = true /\
    decreasing (map exhale_progress (Py.range (steps + 1))) = true /\
    (forall i, 0 <= i <= 20 ->
       near (1 # 2 ^ 54) (inhale_progress i) (i # 20) = true /\
       near (1 # 2 ^ 54) (exhale_progress i) ((20 - i) # 20) = true) /\
    map exhale_progress (Py.range (steps + 1))
    = [1; 0.95; 0.9; 0.85; 0.8; 0.75; 0.7; 0.65; 0.6; 0.55; 0.5;
       0.44999999999999996; 0.4; 0.35; 0.30000000000000004; 0.25;
       0.19999999999999996; 0.15000000000000002; 0.09999999999999998;
       0.050000000000000044; 0]%float /\
    map (fun i => (exhale_progress i =? nominal_progress (20 - i))%float)
      (Py.range (steps + 1))
    = [true; true; true; true; true; true; true; true; true; true; true;
       false; true; true; false; true; false; false; false; false; true] /\
    (forall i, 0 <= i < 20 ->
       near_step (1 # 2 ^ 53) (inhale_progress i) (inhale_progress (i + 1))
       = true /\
       exact_step (inhale_progress i) (inhale_progress (i + 1)) = false /\
       near_step (1 # 2 ^ 53) (exhale_progress (i + 1)) (exhale_progress i)
       = true /\
       exact_step (exhale_progress (i + 1)) (exhale_progress i) = false).
Proof.
  intros _ _ Hw Hquiet Hrender Hfuel Hhold.
  destruct (cycle_uninterrupted fuel n inhale_time exhale_time hold_time
              viz_style w Hw Hquiet Hrender Hfuel Hhold)
    as (w' & Hrun & Hw' & Htr).
  exists w'.
  split; [exact Hrun|]. split; [exact Hw'|]. split; [exact Htr|].
  split.
  { unfold inhale_events. rewrite frames_of_markdown.
    apply frames_of_steps. exact inhale_label_defined. }
  split.
  { unfold hold_events.
    destruct (0 <? hold_time)%float; now autorewrite with traces. }
  split.
  { unfold hold_events.
    destruct (0 <? hold_time)%float; now autorewrite with traces. }
  split.
  { unfold exhale_events. rewrite frames_of_markdown.
    apply frames_of_steps. exact exhale_label_defined. }
  split; [reflexivity|].
  split; [vm_compute; reflexivity|].
  split; [vm_compute; reflexivity|].
  split; [vm_compute; reflexivity|].
  split.
  { intros i Hi.
    pose proof (forallb_zrange _ _ _ progress_values_nominal i
                  ltac:(simpl; lia)) as Hn.
    now apply andb_true_iff in Hn. }
  split; [vm_compute; reflexivity|].
  split; [vm_compute; reflexivity|].
  intros i Hi.
  pose proof (forallb_zrange _ _ _ progress_steps_inexact i
                ltac:(simpl; lia)) as Hn.
  rewrite !andb_true_iff, !negb_true_iff in Hn. tauto.
Qed.

(** C3.  From the head of the loop with the flag set, when Stop arrives
    during the suspension that follows the [i]-th inhale frame of the cycle
    (the first Stop, [i <= 20]) and the frames up to it are displayed: the
    loop returns without any further suspension and with the flag cleared;
    what it logged for the cycle is the heading "## Inhale" and the inhale
    frames [0 .. i], no heading "## Hold" or "## Exhale" and no exhale
    frame. *)
Theorem stop_during_inhale (fuel i : nat)
  (inhale_time exhale_time hold_time : float) (viz_style : string)
  (w : World) :
  running w = true ->
  (i <= 20)%nat ->
  (forall j, (j < i)%nat -> stop_during env (sleeps w + j) = false) ->
  stop_during env (sleeps w + i) = true ->
  (forall j, (j <= i)%nat -> render_failure env (shown w + j) = None) ->
  exists w' evs,
    run_breathing_animation (S fuel) inhale_time exhale_time hold_time
      viz_style w = Done tt w' /\
    running w' = false /\
    sleeps w' = (sleeps w + S i)%nat /\
    trace w' = trace w ++ evs /\
    frames_of evs
    = map (fun k => ("inhale", inhale_progress k))
        (Py.range (Z.of_nat i + 1)) /\
    headings_of evs = ["## Inhale"].
Proof.
  intros Hw Hi Hs Hstop Hr.
  eexists. eexists. split; [|split; [|split; [|split; [|split]]]].
  - unfold run_breathing_animation. cbn [animation_loop].
    rewrite (bind_Done _ _ _ _ _ (get_running_advance _)).
    rewrite Hw. cbn [negb].
    erewrite bind_Done.
    2:{ apply (cycle_stopped_in_inhale _ i).
        - reflexivity.
        - exact Hi.
        - intros j Hj. cbn [advance sleeps]. by_index Hs j.
        - cbn [advance sleeps]. rewrite <- Hstop. f_equal. lia.
        - intros j Hj. cbn [advance shown]. by_index Hr j. }
    unfold ret. rewrite advance_advance. reflexivity.
  - reflexivity.
  - cbn [advance sleeps]. lia.
  - reflexivity.
  - rewrite range_prefix, map_app. autorewrite with traces.
    rewrite frames_of_steps.
    2:{ intros y Hy. apply inhale_label_defined, (in_range_prefix i y Hi).
        apply in_or_app. now left. }
    rewrite frames_of_step_events.
    2:{ apply inhale_label_defined, (in_range_prefix i _ Hi).
        apply in_or_app. right. now left. }
    reflexivity.
  - autorewrite with traces.
    rewrite headings_of_steps, headings_of_step_events.
    reflexivity.
Qed.

Lemma loop_done_idle (fuel : nat)
  (inhale_time exhale_time hold_time : float) (viz_style : string)
  (w w' : World) :
  animation_loop fuel inhale_time exhale_time hold_time viz_style w
  = Done tt w' ->
  running w' = false.
Proof.
  intros Hrun.
  pose proof (spec_animation_loop (trace w) fuel inhale_time exhale_time
                hold_time viz_style w (inv_start w)) as H.
  rewrite Hrun in H. exact (proj2 H).
Qed.

(** C4, as the code has it.  An exception that is an instance of
    [Exception] and leaves the loop is caught by [run_breathing_animation]:
    the function returns normally, the message "Animation error: " followed
    by [str(e)] is the last thing logged, and the flag is cleared.  Nothing
    that is an instance of [Exception] ever propagates, and every normal
    return leaves the flag cleared.  An exception that is not an instance of
    [Exception] is not caught: it propagates with the world as the loop left
    it.

    Every failing frame reaches the handler, in every phase and every cycle
    and whatever Stop and the clock do: when the loop, run on step durations
    that [time.sleep] accepts, calls [st.pyplot] for a frame [k] that fails
    with [e], the loop raises [e] at that very frame, with the flag still
    set, the frames before it in the log and no error message yet; so
    [run_breathing_animation] logs the message and clears the flag when [e]
    is an instance of [Exception], and propagates [e] otherwise.  No failing
    frame is passed over: neither a normal end of the loop nor a later
    exception follows it.

    Two scenarios of the first cycle spell this out: the [i]-th inhale
    frame fails, or the inhale phase and the hold phase (of [n] polls) pass
    undisturbed and the [i]-th exhale frame fails. *)
Theorem exceptions_contained (fuel : nat)
  (inhale_time exhale_time hold_time : float) (viz_style : string)
  (w : World) :
  (forall e w1,
     animation_loop fuel inhale_time exhale_time hold_time viz_style w
     = Raised e w1 ->
     is_Exception e = true ->
     run_breathing_animation fuel inhale_time exhale_time hold_time
       viz_style w
     = Done tt
         (set_running false
            (log (EError ("Animation error: " ++ exn_str e)%string) w1))) /\
  (forall e w1,
     run_breathing_animation fuel inhale_time exhale_time hold_time
       viz_style w = Raised e w1 ->
     is_Exception e = false) /\
  (forall w1,
     run_breathing_animation fuel inhale_time exhale_time hold_time
       viz_style w = Done tt w1 ->
     running w1 = false) /\
  (forall e i,
     sleep_accepts (inhale_time / Py.float_of_Z steps) = true ->
     running w = true ->
     (i <= 20)%nat ->
     (forall j, (j < i)%nat -> stop_during env (sleeps w + j) = false) ->
     (forall j, (j < i)%nat -> render_failure env (shown w + j) = None) ->
     render_failure env (shown w + i) = Some e ->
     is_Exception e = true ->
     exists w1,
       run_breathing_animation (S fuel) inhale_time exhale_time hold_time
         viz_style w = Done tt w1 /\
       running w1 = false /\
       exists evs,
         trace w1
         = trace w ++ evs
           ++ [EError ("Animation error: " ++ exn_str e)%string] /\
         List.length (frames_of evs) = i) /\
  (forall e w1,
     animation_loop fuel inhale_time exhale_time hold_time viz_style w
     = Raised e w1 ->
     is_Exception e = false ->
     run_breathing_animation fuel inhale_time exhale_time hold_time
       viz_style w = Raised e w1) /\
  (forall k e,
     sleep_accepts (inhale_time / Py.float_of_Z steps) = true ->
     sleep_accepts (exhale_time / Py.float_of_Z steps) = true ->
     displays (animation_loop fuel inhale_time exhale_time hold_time
                 viz_style) w k ->
     render_failure env k = Some e ->
     exists w1,
       animation_loop fuel inhale_time exhale_time hold_time viz_style w
       = Raised e w1 /\
       shown w1 = S k /\
       running w1 = true /\
       List.length (frames_of (trace w1))
       = (List.length (frames_of (trace w)) + (k - shown w))%nat /\
       errors_of (trace w1) = errors_of (trace w) /\
       run_breathing_animation fuel inhale_time exhale_time hold_time
         viz_style w
       = if is_Exception e
         then Done tt
                (set_running false
                   (log (EError ("Animation error: " ++ exn_str e)%string)
                      w1))
         else Raised e w1) /\
  (forall e n i,
     sleep_accepts (inhale_time / Py.float_of_Z steps) = true ->
     sleep_accepts (exhale_time / Py.float_of_Z steps) = true ->
     running w = true ->
     (i <= 20)%nat ->
     (n < fuel)%nat ->
     ((0 <? hold_time)%float = false -> n = 0%nat) ->
     ((0 <? hold_time)%float = true ->
      (forall j, (j < n)%nat ->
         (time_time env (clock_reads w + 1 + j)
          - time_time env (clock_reads w) <? hold_time)%float = true) /\
      (time_time env (clock_reads w + 1 + n)
       - time_time env (clock_reads w) <? hold_time)%float = false) ->
     (forall j, (j < 21 + n + i)%nat ->
                stop_during env (sleeps w + j) = false) ->
     (forall j, (j < 21 + i)%nat ->
                render_failure env (shown w + j) = None) ->
     render_failure env (shown w + (21 + i)) = Some e ->
     is_Exception e = true ->
     exists w1,
       run_breathing_animation (S fuel) inhale_time exhale_time hold_time
         viz_style w = Done tt w1 /\
       running w1 = false /\
       exists evs,
         trace w1
         = trace w ++ evs
           ++ [EError ("Animation error: " ++ exn_str e)%string] /\
         List.length (frames_of evs) = (21 + i)%nat).
Proof.
  split; [|split; [|split; [|split; [|split; [|split]]]]].
  5:{ intros e w1 Hloop He. unfold run_breathing_animation.
      now rewrite Hloop, He. }
  5:{ intros k e _ _ Hk Hfail.
      destruct (loop_fails_at_frame fuel inhale_time exhale_time hold_time
                  viz_style w k e Hk Hfail)
        as (w1 & Hloop & Hshown & Hflag & Hframes & Herr).
      exists w1. repeat (split; [assumption|]).
      unfold run_breathing_animation. now rewrite Hloop. }
  5:{ intros e n i _ _ Hw Hi Hfuel Hzero Hclock Hs Hr Hfail He.
      destruct (cycle_fails_in_exhale (S fuel) n i e inhale_time exhale_time
                  hold_time viz_style (advance w true 0 0 0 [ECheck true]))
        as [c Hc].
      - reflexivity.
      - exact Hi.
      - lia.
      - exact Hzero.
      - intros Hpos. destruct (Hclock Hpos) as [Ht Hn]. cbn [advance clock_reads].
        rewrite !Nat.add_0_r. split; [exact Ht | exact Hn].
      - intros j Hj. cbn [advance sleeps]. by_index Hs j.
      - intros j Hj. cbn [advance shown]. by_index Hr j.
      - cbn [advance shown]. rewrite <- Hfail. f_equal. lia.
      - eexists. split; [|split].
        + unfold run_breathing_animation. cbn [animation_loop].
          rewrite (bind_Done _ _ _ _ _ (get_running_advance _)).
          rewrite Hw. cbn [negb].
          erewrite bind_Raised; [|exact Hc].
          rewrite He, advance_advance. reflexivity.
        + reflexivity.
        + eexists. split.
          * cbn [set_running log advance trace]. rewrite <- app_assoc.
            reflexivity.
          * assert (Hin : frames_of (inhale_events inhale_time viz_style)
                          = map (fun k => ("inhale", inhale_progress k))
                              (Py.range (steps + 1))).
            { unfold inhale_events. rewrite frames_of_markdown.
              apply frames_of_steps. exact inhale_label_defined. }
            assert (Hh : frames_of (hold_events hold_time n) = []).
            { unfold hold_events.
              destruct (0 <? hold_time)%float; now autorewrite with traces. }
            cbn [app]. rewrite frames_of_check, !frames_of_app, Hin, Hh.
            rewrite frames_of_markdown, frames_of_steps.
            -- cbn [app]. rewrite !length_app, !length_map, length_seq.
               rewrite range_length. reflexivity.
            -- intros y Hy. apply exhale_label_defined,
                 (in_range_prefix i y Hi).
               apply in_or_app. now left. }
  - intros e w1 Hloop He. unfold run_breathing_animation.
    now rewrite Hloop, He.
  - intros e w1. unfold run_breathing_animation.
    destruct (animation_loop fuel inhale_time exhale_time hold_time
                viz_style w) as [[] w'|e' w'|w']; try discriminate.
    destruct (is_Exception e') eqn:He'; [discriminate|].
    now intros [= <- _].
  - intros w1. unfold run_breathing_animation.
    destruct (animation_loop fuel inhale_time exhale_time hold_time
                viz_style w) as [[] w'|e' w'|w'] eqn:Hloop; try discriminate.
    + intros [= <-]. eapply loop_done_idle, Hloop.
    + destruct (is_Exception e'); [|discriminate].
      now intros [= <-].
  - intros e i _ Hw Hi Hs Hr Hfail He.
    eexists. split; [|split].
    + unfold run_breathing_animation. cbn [animation_loop].
      rewrite (bind_Done _ _ _ _ _ (get_running_advance _)).
      rewrite Hw. cbn [negb].
      erewrite bind_Raised.
      2:{ apply (cycle_fails_in_inhale _ i e).
          - reflexivity.
          - exact Hi.
          - intros j Hj. cbn [advance sleeps]. by_index Hs j.
          - intros j Hj. cbn [advance shown]. by_index Hr j.
          - cbn [advance shown]. rewrite <- Hfail. f_equal. lia. }
      rewrite He, advance_advance. reflexivity.
    + reflexivity.
    + eexists. split.
      * cbn [set_running log advance trace]. rewrite <- app_assoc.
        reflexivity.
      * autorewrite with traces.
        rewrite frames_of_steps;
          [cbn [app]; now rewrite !length_map, length_seq|].
        intros y Hy. apply inhale_label_defined, (in_range_prefix i y Hi).
        apply in_or_app. now left.
Qed.

(** C6.  Whatever the environment does (Stop at any time, failing frames,
    any clock) and however long the loop runs, what
    [run_breathing_animation] logs obeys the checkpoint discipline: every
    frame comes right after a read of the flag that found it set (with at
    most a heading in between), every suspension is followed at once by a
    read of the flag, and after a read that found the flag cleared nothing
    but further reads of the cleared flag follows, so no later phase
    runs. *)
Theorem checkpoints_respected (fuel : nat)
  (inhale_time exhale_time hold_time : float) (viz_style : string)
  (w : World) :
  exists evs,
    trace (world_of (run_breathing_animation fuel inhale_time exhale_time
                       hold_time viz_style w))
    = trace w ++ evs /\
    checked_before_each_frame evs /\
    checked_after_each_sleep evs /\
    nothing_after_cancel evs.
Proof.
  destruct (run_monitored fuel inhale_time exhale_time hold_time viz_style w)
    as (evs & k & Htr & Hm).
  exists evs. split; [exact Htr|].
  eapply monitor_discipline, Hm.
Qed.

(** C10.  The figure does not depend on the phase argument: for every
    progress and style, any two phases give the same result (the colour of
    line 189 is computed and never used). *)
Theorem phase_is_ignored (progress : float) (style phase1 phase2 : string) :
  create_visualization progress style phase1
  = create_visualization progress style phase2.
Proof. reflexivity. Qed.

(** ** Binary64 facts behind the label *)

Lemma digits2_size (p : positive) : digits2_pos p = Pos.size p.
Proof. induction p; simpl; now rewrite ?IHp. Qed.

Lemma Zdigits2_le (z k : Z) : 0 <= k -> 0 <= z < 2 ^ k -> Zdigits2 z <= k.
Proof.
  intros Hk [Hz Hlt]. destruct z as [|p|p]; [simpl; lia | | lia].
  cbn [Zdigits2]. rewrite digits2_size.
  pose proof (Pos.size_le p) as Hs.
  apply Pos2Z.pos_le_pos in Hs. rewrite Pos2Z.inj_pow in Hs.
  change (Z.pos p~0) with (2 * Z.pos p) in Hs.
  assert (H : 2 ^ Z.pos (Pos.size p) < 2 ^ (k + 1)).
  { rewrite Z.pow_add_r by lia. change (2 ^ 1) with 2. lia. }
  apply Z.pow_lt_mono_r_iff in H; lia.
Qed.

Lemma pos_lt_pow_digits (p : positive) :
  Z.pos p < 2 ^ Z.pos (digits2_pos p).
Proof.
  rewrite digits2_size. pose proof (Pos.size_gt p) as H.
  apply Pos2Z.pos_lt_pos in H. now rewrite Pos2Z.inj_pow in H.
Qed.

Lemma shr_1_bounds (mrs : shr_record) :
  0 <= shr_m mrs -> 0 <= shr_m (shr_1 mrs) <= shr_m mrs.
Proof.
  destruct mrs as [m r s]. cbn [shr_m shr_1].
  destruct m as [|[p|p|]|[p|p|]]; cbn [shr_m]; lia.
Qed.

Lemma iter_shr_1_bounds (p : positive) :
  forall mrs, 0 <= shr_m mrs ->
              0 <= shr_m (iter_pos shr_1 p mrs) <= shr_m mrs.
Proof.
  induction p as [p IH|p IH|]; intros mrs H; cbn [iter_pos].
  - pose proof (shr_1_bounds mrs H) as H1.
    pose proof (IH _ (proj1 H1)) as H2.
    pose proof (IH _ (proj1 H2)) as H3. lia.
  - pose proof (IH _ H) as H2.
    pose proof (IH _ (proj1 H2)) as H3. lia.
  - now apply shr_1_bounds.
Qed.

Lemma shr_fexp_bounds (m e : Z) (l : location) :
  0 <= m ->
  0 <= shr_m (fst (shr_fexp prec emax m e l)) <= m /\
  snd (shr_fexp prec emax m e l)
  = Z.max e (fexp prec emax (Zdigits2 m + e)).
Proof.
  intros Hm. unfold shr_fexp, shr.
  assert (H0 : shr_m (shr_record_of_loc m l) = m)
    by (destruct l as [|[]]; reflexivity).
  destruct (fexp prec emax (Zdigits2 m + e) - e) as [|p|p] eqn:Hn;
    cbn [fst snd].
  - rewrite H0. split; lia.
  - pose proof (iter_shr_1_bounds p (shr_record_of_loc m l)) as H.
    rewrite H0 in H. split; [apply H; lia | lia].
  - rewrite H0. split; lia.
Qed.

Lemma round_nearest_even_bounds (m : Z) (l : location) :
  m <= round_nearest_even m l <= m + 1.
Proof.
  destruct l as [|[]]; cbn [round_nearest_even];
    try destruct (Z.even m); lia.
Qed.

(** Rounding a positive product below 2^106 with exponent at most -98 gives
    a zero or a finite number of the same sign: no overflow. *)
Lemma binary_round_aux_finite (mx ex : Z) :
  0 < mx < 2 ^ 106 -> ex <= -98 ->
  binary_round_aux prec emax false mx ex loc_Exact = S754_zero false \/
  exists m e,
    binary_round_aux prec emax false mx ex loc_Exact = S754_finite false m e.
Proof.
  intros Hmx Hex. unfold binary_round_aux.
  pose proof (shr_fexp_bounds mx ex loc_Exact ltac:(lia)) as [Hm1 He1].
  destruct (shr_fexp prec emax mx ex loc_Exact) as [mrs1 e1].
  cbn [fst snd] in Hm1, He1.
  pose proof (round_nearest_even_bounds (shr_m mrs1)
                (loc_of_shr_record mrs1)) as Hr.
  set (m1 := round_nearest_even (shr_m mrs1) (loc_of_shr_record mrs1)) in *.
  pose proof (shr_fexp_bounds m1 e1 loc_Exact ltac:(lia)) as [Hm2 He2].
  destruct (shr_fexp prec emax m1 e1 loc_Exact) as [mrs2 e2].
  cbn [fst snd] in Hm2, He2.
  assert (Hd : Zdigits2 mx <= 106) by (apply Zdigits2_le; lia).
  assert (Hd1 : Zdigits2 m1 <= 107).
  { apply Zdigits2_le; [lia|]. split; [lia|].
    change (2 ^ 107) with (2 * 2 ^ 106). lia. }
  unfold fexp, SpecFloat.emin, prec, emax in He1, He2.
  destruct (shr_m mrs2) as [|p|p]; [now left | | lia].
  replace (e2 <=? emax - prec) with true
    by (symmetry; apply Z.leb_le; unfold emax, prec; lia).
  right. now exists p, e2.
Qed.

(** The product by 100 of a float between 0 and 1 is zero or a positive
    finite float. *)
Lemma percent_finite (progress : float) :
  (0 <=? progress)%float = true -> (progress <=? 1)%float = true ->
  (exists s, Prim2SF (progress * 100) = S754_zero s) \/
  exists m e, Prim2SF (progress * 100) = S754_finite false m e.
Proof.
  intros H0 H1. rewrite leb_spec in H0, H1.
  pose proof (Prim2SF_valid progress) as Hv.
  rewrite mul_spec.
  change (Prim2SF 100) with (S754_finite false 7036874417766400 (-46)).
  change (Prim2SF 0) with (S754_zero false) in H0.
  change (Prim2SF 1) with (S754_finite false 4503599627370496 (-52)) in H1.
  destruct (Prim2SF progress) as [s|s| |s m e].
  - left. now exists (xorb s false).
  - destruct s; discriminate.
  - discriminate.
  - destruct s; [discriminate|].
    unfold SFleb, SFcompare in H1.
    assert (He : e <= -52).
    { destruct (Z.compare_spec e (-52)); [lia | lia | discriminate]. }
    cbn [valid_binary] in Hv. unfold bounded, canonical_mantissa in Hv.
    apply andb_true_iff in Hv. destruct Hv as [Hc _].
    apply Z.eqb_eq in Hc. unfold fexp, SpecFloat.emin, prec, emax in Hc.
    assert (Hm : Z.pos m < 2 ^ 53).
    { pose proof (pos_lt_pow_digits m) as Hlt.
      assert (Z.pos (digits2_pos m) <= 53) by lia.
      eapply Z.lt_le_trans; [exact Hlt|].
      apply Z.pow_le_mono_r; lia. }
    unfold SF64mul, SFmul. cbn [xorb].
    destruct (binary_round_aux_finite (Z.pos (m * 7036874417766400))
                (e + -46)) as [Hz|Hf].
    + rewrite Pos2Z.inj_mul. change (2 ^ 106) with (2 ^ 53 * 2 ^ 53).
      split; [lia|].
      apply Z.mul_lt_mono_nonneg; lia.
    + lia.
    + left. exists false. exact Hz.
    + right. exact Hf.
Qed.

Lemma floor_of_dyadic (m : positive) (e : Z) :
  Qfloor (inject_Z (Z.pos m) * Qpower 2 e)
  = if 0 <=? e then Z.pos m * 2 ^ e else Z.pos m / 2 ^ (- e).
Proof.
  destruct (Z.leb_spec 0 e) as [He|He].
  - rewrite <- (Qfloor_Z (Z.pos m * 2 ^ e)). apply Qfloor_comp.
    rewrite inject_Z_mult. apply Qmult_comp; [reflexivity|].
    symmetry. exact (Zpower_Qpower 2 e He).
  - rewrite Zdiv_Qdiv. apply Qfloor_comp. unfold Qdiv.
    apply Qmult_comp; [reflexivity|].
    replace e with (- - e) at 1 by lia.
    rewrite Qpower_opp. apply Qinv_comp.
    symmetry. exact (Zpower_Qpower 2 (- e) ltac:(lia)).
Qed.

(** [int(progress * 100)] is defined for a progress between 0 and 1 and is
    the floor of the exact value of the binary64 product. *)
Lemma percent_is_floor (progress : float) :
  (0 <=? progress)%float = true -> (progress <=? 1)%float = true ->
  exists q,
    Py.to_Q (progress * 100) = Some q /\
    Py.int (progress * 100) = Ok (Qfloor q).
Proof.
  intros H0 H1. unfold Py.to_Q, Py.int.
  destruct (percent_finite progress H0 H1) as [[s ->]|(m & e & ->)].
  - exists 0%Q. split; reflexivity.
  - eexists. split; [reflexivity|].
    now rewrite floor_of_dyadic.
Qed.

(** ** Halving in binary64, and the radius of the filled circle *)

Lemma shr_1_m (mrs : shr_record) :
  0 <= shr_m mrs -> shr_m (shr_1 mrs) = shr_m mrs / 2.
Proof.
  destruct mrs as [m r s]. cbn [shr_m shr_1]. intros Hm.
  rewrite <- Z.div2_div.
  destruct m as [|[p|p|]|p]; try reflexivity; lia.
Qed.

Lemma shr_1_r (mrs : shr_record) :
  0 <= shr_m mrs -> shr_r (shr_1 mrs) = Z.testbit (shr_m mrs) 0.
Proof.
  destruct mrs as [m r s]. cbn [shr_m shr_1]. intros Hm.
  destruct m as [|[p|p|]|p]; try reflexivity; lia.
Qed.

Lemma pow2_xO (p : positive) : 2 ^ Z.pos p~0 = 2 ^ Z.pos p * 2 ^ Z.pos p.
Proof.
  assert (E : Z.pos p~0 = Z.pos p + Z.pos p) by lia.
  rewrite E. now rewrite Z.pow_add_r by lia.
Qed.

Lemma pow2_xI (p : positive) :
  2 ^ Z.pos p~1 = 2 * (2 ^ Z.pos p * 2 ^ Z.pos p).
Proof.
  assert (E : Z.pos p~1 = 1 + (Z.pos p + Z.pos p)) by lia.
  rewrite E. now rewrite !Z.pow_add_r by lia.
Qed.

Lemma pow2_pos (n : Z) : 0 < 2 ^ n \/ n < 0.
Proof. destruct (Z.le_gt_cases 0 n); [left; now apply Z.pow_pos_nonneg | now right]. Qed.

Lemma iter_shr_m (p : positive) :
  forall mrs, 0 <= shr_m mrs ->
              shr_m (iter_pos shr_1 p mrs) = shr_m mrs / 2 ^ Z.pos p.
Proof.
  induction p as [p IH|p IH|]; intros mrs H; cbn [iter_pos].
  - pose proof (shr_1_bounds mrs H) as H1.
    pose proof (iter_shr_1_bounds p _ (proj1 H1)) as H2.
    assert (0 < 2 ^ Z.pos p) by (apply Z.pow_pos_nonneg; lia).
    rewrite IH by lia. rewrite IH by lia. rewrite shr_1_m by lia.
    rewrite !Z.div_div by lia. now rewrite pow2_xI, !Z.mul_assoc.
  - pose proof (iter_shr_1_bounds p _ H) as H2.
    assert (0 < 2 ^ Z.pos p) by (apply Z.pow_pos_nonneg; lia).
    rewrite IH by lia. rewrite IH by lia.
    rewrite !Z.div_div by lia. now rewrite pow2_xO.
  - now apply shr_1_m.
Qed.

Lemma iter_shr_r (p : positive) :
  forall mrs, 0 <= shr_m mrs ->
              shr_r (iter_pos shr_1 p mrs)
              = Z.testbit (shr_m mrs) (Z.pos p - 1).
Proof.
  induction p as [p IH|p IH|]; intros mrs H; cbn [iter_pos].
  - pose proof (shr_1_bounds mrs H) as H1.
    pose proof (iter_shr_1_bounds p _ (proj1 H1)) as H2.
    rewrite IH by lia. rewrite iter_shr_m by lia. rewrite shr_1_m by lia.
    rewrite Z.div_pow2_bits by lia. rewrite Z.div2_bits by lia.
    f_equal. lia.
  - pose proof (iter_shr_1_bounds p _ H) as H2.
    rewrite IH by lia. rewrite iter_shr_m by lia.
    rewrite Z.div_pow2_bits by lia. f_equal. lia.
  - now apply shr_1_r.
Qed.

Lemma Zdigits2_ge (z t : Z) : 0 <= t -> 2 ^ t <= z -> t + 1 <= Zdigits2 z.
Proof.
  intros Ht Hz.
  assert (0 < 2 ^ t) by (apply Z.pow_pos_nonneg; lia).
  destruct z as [|p|p]; try lia.
  cbn [Zdigits2]. pose proof (pos_lt_pow_digits p) as Hp.
  assert (Hlt : 2 ^ t < 2 ^ Z.pos (digits2_pos p)) by lia.
  apply Z.pow_lt_mono_r_iff in Hlt; lia.
Qed.

Lemma Zdigits2_eq (z t : Z) :
  0 < t -> 2 ^ (t - 1) <= z < 2 ^ t -> Zdigits2 z = t.
Proof.
  intros Ht [Hlo Hhi].
  assert (0 < 2 ^ (t - 1)) by (apply Z.pow_pos_nonneg; lia).
  pose proof (Zdigits2_le z t ltac:(lia) ltac:(lia)).
  pose proof (Zdigits2_ge z (t - 1) ltac:(lia) Hlo). lia.
Qed.

Lemma Zdigits2_bounds (p : positive) :
  2 ^ (Zdigits2 (Z.pos p) - 1) <= Z.pos p < 2 ^ Zdigits2 (Z.pos p).
Proof.
  cbn [Zdigits2]. split; [|apply pos_lt_pow_digits].
  rewrite digits2_size. pose proof (Pos.size_le p) as Hs.
  apply Pos2Z.pos_le_pos in Hs. rewrite Pos2Z.inj_pow in Hs.
  change (Z.pos p~0) with (2 * Z.pos p) in Hs.
  replace (Z.pos (Pos.size p)) with (1 + (Z.pos (Pos.size p) - 1)) in Hs by lia.
  rewrite Z.pow_add_r in Hs by lia. change (2 ^ 1) with 2 in Hs. lia.
Qed.

Lemma iter_xO (d p : positive) :
  Z.pos (Pos.iter xO p d) = Z.pos p * 2 ^ Z.pos d.
Proof.
  induction d as [|d IH] using Pos.peano_ind.
  - cbn. lia.
  - rewrite Pos.iter_succ, Pos2Z.inj_xO, IH, Pos2Z.inj_succ.
    rewrite Z.pow_succ_r by lia. lia.
Qed.

Lemma nonneg_lt_pow_digits (z : Z) : 0 <= z -> z < 2 ^ Zdigits2 z.
Proof.
  destruct z as [|p|p]; intros H; [reflexivity | apply pos_lt_pow_digits | lia].
Qed.

Lemma fexp_eq (t : Z) : fexp prec emax t = Z.max (t - 53) (-1074).
Proof. reflexivity. Qed.

(** The mantissa and the exponent [shr_fexp] leaves. *)
Lemma shr_fexp_spec (mx ex : Z) (l : location) :
  0 <= mx ->
  let n := fexp prec emax (Zdigits2 mx + ex) - ex in
  shr_m (fst (shr_fexp prec emax mx ex l))
  = (if 0 <? n then mx / 2 ^ n else mx) /\
  snd (shr_fexp prec emax mx ex l) = Z.max ex (fexp prec emax (Zdigits2 mx + ex)).
Proof.
  intros Hm n. unfold shr_fexp, shr. fold n.
  assert (H0 : shr_m (shr_record_of_loc mx l) = mx)
    by (destruct l as [|[]]; reflexivity).
  destruct n as [|p|p] eqn:Hn; cbn [fst snd].
  - split; [exact H0 | lia].
  - split; [|lia]. rewrite iter_shr_m by lia. now rewrite H0.
  - split; [exact H0 | lia].
Qed.

Lemma shr_fexp_small (mx ex : Z) (l : location) :
  0 <= mx ->
  0 <= shr_m (fst (shr_fexp prec emax mx ex l)) < 2 ^ 53.
Proof.
  intros Hm.
  destruct (shr_fexp_spec mx ex l Hm) as [Hs _].
  pose proof (shr_fexp_bounds mx ex l Hm) as [Hb _].
  split; [lia|]. rewrite Hs.
  pose proof (nonneg_lt_pow_digits mx Hm) as Hd.
  assert (Hdn : 0 <= Zdigits2 mx) by (destruct mx; simpl; lia).
  rewrite fexp_eq.
  destruct (Z.ltb_spec 0 (Z.max (Zdigits2 mx + ex - 53) (-1074) - ex)) as [Hn|Hn].
  - apply Z.div_lt_upper_bound; [apply Z.pow_pos_nonneg; lia|].
    rewrite <- Z.pow_add_r by lia.
    eapply Z.lt_le_trans; [exact Hd|]. apply Z.pow_le_mono_r; lia.
  - eapply Z.lt_le_trans; [exact Hd|]. apply Z.pow_le_mono_r; lia.
Qed.

(** Rounding without overflow: a zero or a finite number whose exponent is
    the one [fexp] asks for, or one more. *)
Lemma binary_round_aux_form (s : bool) (mx ex : Z) (l : location) :
  0 <= mx ->
  Z.max ex (Zdigits2 mx + ex - 53) + 1 <= 971 ->
  binary_round_aux prec emax s mx ex l = S754_zero s \/
  exists m e,
    binary_round_aux prec emax s mx ex l = S754_finite s m e /\
    Z.max ex (fexp prec emax (Zdigits2 mx + ex)) <= e
    <= Z.max ex (fexp prec emax (Zdigits2 mx + ex)) + 1.
Proof.
  intros Hmx Hex. unfold binary_round_aux.
  pose proof (shr_fexp_small mx ex l Hmx) as Hm1.
  pose proof (shr_fexp_spec mx ex l Hmx) as [_ He1].
  destruct (shr_fexp prec emax mx ex l) as [mrs1 e1].
  cbn [fst snd] in Hm1, He1.
  pose proof (round_nearest_even_bounds (shr_m mrs1)
                (loc_of_shr_record mrs1)) as Hr.
  set (m1 := round_nearest_even (shr_m mrs1) (loc_of_shr_record mrs1)) in *.
  pose proof (shr_fexp_bounds m1 e1 loc_Exact ltac:(lia)) as [Hm2 He2].
  destruct (shr_fexp prec emax m1 e1 loc_Exact) as [mrs2 e2].
  cbn [fst snd] in Hm2, He2.
  assert (Hd1 : Zdigits2 m1 <= 54).
  { apply Zdigits2_le; [lia|]. split; [lia|].
    change (2 ^ 54) with (2 * 2 ^ 53). lia. }
  rewrite fexp_eq in *.
  destruct (shr_m mrs2) as [|p|p]; [now left | | lia].
  replace (e2 <=? emax - prec) with true
    by (symmetry; apply Z.leb_le; unfold emax, prec; lia).
  right. exists p, e2. split; [reflexivity | lia].
Qed.

(** When the first shift is not clamped at the smallest exponent and leaves
    53 bits, the result is a finite number with a 53-bit mantissa's
    exponent. *)
Lemma binary_round_aux_positive (s : bool) (mx ex : Z) (l : location) :
  0 < mx -> 53 <= Zdigits2 mx ->
  -1074 <= Zdigits2 mx + ex - 53 <= 970 ->
  exists m e,
    binary_round_aux prec emax s mx ex l = S754_finite s m e /\
    Zdigits2 mx + ex - 53 <= e <= Zdigits2 mx + ex - 52 /\
    mx / 2 ^ (Zdigits2 mx - 53)
    <= Z.pos m * 2 ^ (e - (Zdigits2 mx + ex - 53)).
Proof.
  intros Hmx Hd Hu. unfold binary_round_aux.
  pose proof (shr_fexp_spec mx ex l ltac:(lia)) as [Hs1 He1].
  pose proof (shr_fexp_small mx ex l ltac:(lia)) as Hsm.
  destruct (shr_fexp prec emax mx ex l) as [mrs1 e1].
  cbn [fst snd] in Hs1, He1, Hsm.
  assert (Hlow : 2 ^ 52 <= shr_m mrs1).
  { rewrite Hs1, fexp_eq.
    destruct mx as [|p|p]; try lia.
    pose proof (Zdigits2_bounds p) as [Hlo _].
    set (d := Zdigits2 (Z.pos p)) in *.
    replace (Z.max (d + ex - 53) (-1074) - ex) with (d - 53) by lia.
    destruct (Z.ltb_spec 0 (d - 53)) as [Hn|Hn].
    - apply Z.div_le_lower_bound; [apply Z.pow_pos_nonneg; lia|].
      rewrite <- Z.pow_add_r by lia.
      replace (d - 53 + 52) with (d - 1) by lia. exact Hlo.
    - replace d with 53 in Hlo by lia. exact Hlo. }
  pose proof (round_nearest_even_bounds (shr_m mrs1)
                (loc_of_shr_record mrs1)) as Hr.
  set (m1 := round_nearest_even (shr_m mrs1) (loc_of_shr_record mrs1)) in *.
  assert (Hm1 : 2 ^ 52 <= m1 <= 2 ^ 53) by lia.
  pose proof (shr_fexp_spec m1 e1 loc_Exact ltac:(lia)) as [Hs2 He2].
  destruct (shr_fexp prec emax m1 e1 loc_Exact) as [mrs2 e2].
  cbn [fst snd] in Hs2, He2.
  assert (Hd1 : 53 <= Zdigits2 m1 <= 54).
  { split.
    - apply (Zdigits2_ge m1 52); lia.
    - apply Zdigits2_le; [lia|]. change (2 ^ 54) with (2 * 2 ^ 53). lia. }
  rewrite fexp_eq in *.
  assert (Hfloor : mx / 2 ^ (Zdigits2 mx - 53) <= m1).
  { rewrite Hs1 in Hr.
    replace (Z.max (Zdigits2 mx + ex - 53) (-1074) - ex)
      with (Zdigits2 mx - 53) in Hr by lia.
    destruct (Z.ltb_spec 0 (Zdigits2 mx - 53)) as [Hn|Hn]; [lia|].
    replace (Zdigits2 mx - 53) with 0 by lia. rewrite Z.div_1_r. lia. }
  assert (Hm2 : shr_m mrs2 * 2 ^ (e2 - e1) = m1 /\ 0 <= e2 - e1 <= 1).
  { rewrite Hs2, He2.
    destruct (Z.ltb_spec 0 (Z.max (Zdigits2 m1 + e1 - 53) (-1074) - e1))
      as [Hn|Hn].
    - replace (Z.max (Zdigits2 m1 + e1 - 53) (-1074) - e1) with 1 by lia.
      replace (Z.max e1 (Z.max (Zdigits2 m1 + e1 - 53) (-1074)) - e1)
        with 1 by lia.
      assert (Hd54 : Zdigits2 m1 = 54) by lia.
      assert (m1 = 2 ^ 53).
      { pose proof (Zdigits2_le m1 53 ltac:(lia)). lia. }
      subst m1. split; [|lia].
      replace (shr_m mrs1) with (shr_m mrs1) by reflexivity.
      match goal with |- ?a / 2 ^ 1 * 2 ^ 1 = ?a =>
        replace a with (2 ^ 53) by lia end.
      reflexivity.
    - replace (Z.max e1 (Z.max (Zdigits2 m1 + e1 - 53) (-1074)) - e1)
        with 0 by lia.
      split; [lia | lia]. }
  destruct Hm2 as [Hm2 Hde].
  assert (Hpos : 0 < shr_m mrs2).
  { assert (0 < 2 ^ (e2 - e1)) by (apply Z.pow_pos_nonneg; lia). nia. }
  destruct (shr_m mrs2) as [|p|p]; try lia.
  replace (e2 <=? emax - prec) with true
    by (symmetry; apply Z.leb_le; unfold emax, prec; lia).
  exists p, e2. split; [reflexivity|]. split; [lia|].
  replace (Zdigits2 mx + ex - 53) with e1 by lia.
  rewrite Hm2. exact Hfloor.
Qed.

(** Lowering the exponent by one lowers the exponent of the shifted record
    by one and leaves its bits, unless the shift is clamped at the smallest
    exponent. *)
Lemma shr_fexp_half (mx ex : Z) (l : location) :
  0 <= mx ->
  -1073 <= Z.max ex (Zdigits2 mx + ex - 53) ->
  shr_fexp prec emax mx (ex - 1) l
  = (fst (shr_fexp prec emax mx ex l), snd (shr_fexp prec emax mx ex l) - 1).
Proof.
  intros Hm Hc. unfold shr_fexp, shr. rewrite !fexp_eq.
  set (d := Zdigits2 mx) in *.
  destruct (Z.le_gt_cases (-1073) (d + ex - 53)) as [Hu|Hu].
  - replace (Z.max (d + (ex - 1) - 53) (-1074) - (ex - 1))
      with (Z.max (d + ex - 53) (-1074) - ex) by lia.
    destruct (Z.max (d + ex - 53) (-1074) - ex); cbn [fst snd];
      f_equal; lia.
  - assert (Hn : Z.max (d + ex - 53) (-1074) - ex <= 0) by lia.
    assert (Hn' : Z.max (d + (ex - 1) - 53) (-1074) - (ex - 1) <= 0) by lia.
    destruct (Z.max (d + ex - 53) (-1074) - ex);
      destruct (Z.max (d + (ex - 1) - 53) (-1074) - (ex - 1));
      cbn [fst snd]; try lia; reflexivity.
Qed.

Lemma binary_round_aux_half (s : bool) (mx ex : Z) (l : location) :
  0 <= mx ->
  -1073 <= Z.max ex (Zdigits2 mx + ex - 53) ->
  (forall s', binary_round_aux prec emax s mx ex l <> S754_infinity s') ->
  binary_round_aux prec emax s mx (ex - 1) l
  = half_sf (binary_round_aux prec emax s mx ex l).
Proof.
  intros Hm Hc Hfin. revert Hfin. unfold binary_round_aux.
  rewrite (shr_fexp_half mx ex l Hm Hc).
  pose proof (shr_fexp_spec mx ex l Hm) as [_ He1].
  pose proof (shr_fexp_bounds mx ex l Hm) as [Hb1 _].
  destruct (shr_fexp prec emax mx ex l) as [mrs1 e1].
  cbn [fst snd] in *.
  pose proof (round_nearest_even_bounds (shr_m mrs1)
                (loc_of_shr_record mrs1)) as Hr.
  set (m1 := round_nearest_even (shr_m mrs1) (loc_of_shr_record mrs1)) in *.
  rewrite fexp_eq in He1.
  rewrite (shr_fexp_half m1 e1 loc_Exact) by lia.
  destruct (shr_fexp prec emax m1 e1 loc_Exact) as [mrs2 e2].
  cbn [fst snd].
  destruct (shr_m mrs2) as [|p|p]; try reflexivity.
  intros Hfin.
  destruct (Z.leb_spec e2 (emax - prec)) as [Hle|Hgt].
  - replace (e2 - 1 <=? emax - prec) with true
      by (symmetry; apply Z.leb_le; lia).
    reflexivity.
  - exfalso. now apply (Hfin s).
Qed.

Lemma Zdigits2_shift (m : positive) (k : Z) :
  0 <= k -> Zdigits2 (Z.pos m * 2 ^ k) = Zdigits2 (Z.pos m) + k.
Proof.
  intros Hk. pose proof (Zdigits2_bounds m) as [Hlo Hhi].
  assert (Hd : 0 < Zdigits2 (Z.pos m)) by (cbn; lia).
  assert (0 < 2 ^ k) by (apply Z.pow_pos_nonneg; lia).
  apply Zdigits2_eq; [lia|].
  replace (Zdigits2 (Z.pos m) + k - 1) with (Zdigits2 (Z.pos m) - 1 + k) by lia.
  rewrite !Z.pow_add_r by lia. split; nia.
Qed.

Lemma shl_align_spec (mx : positive) (ex ex' : Z) :
  Z.pos (fst (shl_align mx ex ex'))
  = Z.pos mx * 2 ^ (ex - snd (shl_align mx ex ex')) /\
  snd (shl_align mx ex ex') = Z.min ex ex'.
Proof.
  unfold shl_align. destruct (ex' - ex) as [|d|d] eqn:Hd; cbn [fst snd].
  - rewrite Z.sub_diag. split; lia.
  - rewrite Z.sub_diag. split; lia.
  - rewrite iter_xO. replace (ex - ex') with (Z.pos d) by lia. split; lia.
Qed.

(** Adding two positive finite numbers rounds their sum, formed at the
    smaller exponent. *)
Lemma SFadd_pos (mc : positive) (ec : Z) (my : positive) (ey : Z) :
  exists sp : positive,
    Z.pos sp = Z.pos mc * 2 ^ (ec - Z.min ec ey)
               + Z.pos my * 2 ^ (ey - Z.min ec ey) /\
    SF64add (S754_finite false mc ec) (S754_finite false my ey)
    = binary_round prec emax false sp (Z.min ec ey).
Proof.
  unfold SF64add, SFadd. cbn [cond_Zopp].
  pose proof (shl_align_spec mc ec (Z.min ec ey)) as [Ha Hea].
  pose proof (shl_align_spec my ey (Z.min ec ey)) as [Hb Heb].
  destruct (shl_align mc ec (Z.min ec ey)) as [a ea].
  destruct (shl_align my ey (Z.min ec ey)) as [b eb].
  cbn [fst snd] in *.
  exists (a + b)%positive. split; [|reflexivity].
  rewrite Pos2Z.inj_add, Ha, Hb.
  replace ea with (Z.min ec ey) by lia. replace eb with (Z.min ec ey) by lia.
  reflexivity.
Qed.

(** [binary_round] as a call of [binary_round_aux] on a mantissa of at least
    53 bits (when not clamped). *)
Lemma binary_round_spec (s : bool) (m : positive) (e : Z) :
  exists (mz : positive) (ez : Z),
    binary_round prec emax s m e
    = binary_round_aux prec emax s (Z.pos mz) ez loc_Exact /\
    Zdigits2 (Z.pos mz) + ez = Zdigits2 (Z.pos m) + e /\
    ez = Z.min e (fexp prec emax (Zdigits2 (Z.pos m) + e)) /\
    Z.pos mz = Z.pos m * 2 ^ (e - ez) /\
    (-1073 <= Zdigits2 (Z.pos m) + e - 53 ->
     binary_round prec emax s m (e - 1)
     = binary_round_aux prec emax s (Z.pos mz) (ez - 1) loc_Exact).
Proof.
  unfold binary_round.
  change (Z.pos (digits2_pos m)) with (Zdigits2 (Z.pos m)).
  set (d := Zdigits2 (Z.pos m)).
  pose proof (shl_align_spec m e (fexp prec emax (d + e))) as [Ha Hea].
  assert (Hhalf : -1073 <= d + e - 53 ->
            shl_align m (e - 1) (fexp prec emax (d + (e - 1)))
            = (fst (shl_align m e (fexp prec emax (d + e))),
               snd (shl_align m e (fexp prec emax (d + e))) - 1)).
  { intros Hu. unfold shl_align. rewrite !fexp_eq.
    replace (Z.max (d + (e - 1) - 53) (-1074) - (e - 1))
      with (Z.max (d + e - 53) (-1074) - e) by lia.
    destruct (Z.max (d + e - 53) (-1074) - e); cbn [fst snd];
      f_equal; lia. }
  destruct (shl_align m e (fexp prec emax (d + e))) as [mz ez].
  cbn [fst snd] in *.
  exists mz, ez. split; [reflexivity|].
  split; [|split; [exact Hea|split; [exact Ha|]]].
  - rewrite Ha. rewrite Zdigits2_shift by lia. fold d. lia.
  - intros Hu. now rewrite (Hhalf Hu).
Qed.

Lemma binary_round_half (s : bool) (m : positive) (e : Z) :
  -1073 <= Zdigits2 (Z.pos m) + e - 53 ->
  (forall s', binary_round prec emax s m e <> S754_infinity s') ->
  binary_round prec emax s m (e - 1)
  = half_sf (binary_round prec emax s m e).
Proof.
  intros Hu Hfin.
  destruct (binary_round_spec s m e) as (mz & ez & Hr & Hd & Hez & _ & Hr').
  rewrite (Hr' Hu). rewrite Hr in Hfin |- *.
  apply binary_round_aux_half; [lia | lia | exact Hfin].
Qed.

(** The sum of a positive number with a 53-bit mantissa and a positive
    number of at most 53 bits is a finite number, and halving both operands
    halves it. *)
Lemma SFadd_form (mc : positive) (ec : Z) (my : positive) (ey : Z) :
  Zdigits2 (Z.pos mc) = 53 -> Zdigits2 (Z.pos my) <= 53 ->
  -1073 <= ec <= 900 -> ey <= 900 ->
  exists mX eX,
    SF64add (S754_finite false mc ec) (S754_finite false my ey)
    = S754_finite false mX eX /\
    ec <= eX <= Z.max ec ey + 2 /\
    SF64add (S754_finite false mc (ec - 1)) (S754_finite false my (ey - 1))
    = S754_finite false mX (eX - 1) /\
    (eX = ec -> Z.pos mc <= Z.pos mX).
Proof.
  intros Hdc Hdy Hec Hey.
  destruct (SFadd_pos mc ec my ey) as (sp & Hsp & Hadd).
  destruct (SFadd_pos mc (ec - 1) my (ey - 1)) as (sp' & Hsp' & Hadd').
  replace (Z.min (ec - 1) (ey - 1)) with (Z.min ec ey - 1) in * by lia.
  replace (ec - 1 - (Z.min ec ey - 1)) with (ec - Z.min ec ey) in Hsp' by lia.
  replace (ey - 1 - (Z.min ec ey - 1)) with (ey - Z.min ec ey) in Hsp' by lia.
  assert (sp' = sp) as -> by lia.
  set (ez := Z.min ec ey) in *.
  pose proof (Zdigits2_bounds mc) as [Hclo Hchi].
  pose proof (Zdigits2_bounds my) as [Hylo Hyhi].
  rewrite Hdc in Hclo, Hchi.
  assert (Hyhi' : Z.pos my < 2 ^ 53).
  { eapply Z.lt_le_trans; [exact Hyhi|]. apply Z.pow_le_mono_r; lia. }
  assert (Hp1 : 0 < 2 ^ (ec - ez)) by (apply Z.pow_pos_nonneg; lia).
  assert (Hp2 : 0 < 2 ^ (ey - ez)) by (apply Z.pow_pos_nonneg; lia).
  (* the number of bits of the sum *)
  assert (Ht : ec + 53 <= Zdigits2 (Z.pos sp) + ez <= Z.max ec ey + 54).
  { split.
    - enough (52 + (ec - ez) + 1 <= Zdigits2 (Z.pos sp)) by lia.
      apply Zdigits2_ge; [lia|].
      rewrite Z.pow_add_r by lia. rewrite Hsp. nia.
    - enough (Zdigits2 (Z.pos sp) <= Z.max ec ey + 54 - ez) by lia.
      apply Zdigits2_le; [lia|]. split; [lia|].
      rewrite Hsp.
      assert (H1 : 2 ^ 53 * 2 ^ (ec - ez) <= 2 ^ (Z.max ec ey + 53 - ez)).
      { rewrite <- Z.pow_add_r by lia. apply Z.pow_le_mono_r; lia. }
      assert (H2 : 2 ^ 53 * 2 ^ (ey - ez) <= 2 ^ (Z.max ec ey + 53 - ez)).
      { rewrite <- Z.pow_add_r by lia. apply Z.pow_le_mono_r; lia. }
      replace (Z.max ec ey + 54 - ez) with (1 + (Z.max ec ey + 53 - ez)) by lia.
      rewrite Z.pow_add_r by lia. change (2 ^ 1) with 2. nia. }
  destruct (binary_round_spec false sp ez)
    as (mz & eza & Hr & Hd & Heza & Hmz & Hr').
  rewrite fexp_eq in Heza.
  destruct (binary_round_aux_positive false (Z.pos mz) eza loc_Exact)
    as (mX & eX & HX & HeX & HmX); [lia | lia | lia |].
  exists mX, eX. split; [now rewrite Hadd, Hr|]. split; [lia|].
  split.
  - rewrite Hadd', (Hr' ltac:(lia)).
    rewrite binary_round_aux_half; [now rewrite HX | lia | lia |].
    intros s'. rewrite HX. discriminate.
  - intros HeqX. subst eX.
    replace (ec - (Zdigits2 (Z.pos mz) + eza - 53)) with 0 in HmX by lia.
    rewrite Z.mul_1_r in HmX.
    eapply Z.le_trans; [|exact HmX].
    replace (Zdigits2 (Z.pos mz) - 53) with (ec - eza) by lia.
    assert (0 < 2 ^ (ec - eza)) by (apply Z.pow_pos_nonneg; lia).
    assert (0 < 2 ^ (ez - eza)) by (apply Z.pow_pos_nonneg; lia).
    apply Z.div_le_lower_bound; [lia|].
    rewrite Hmz, Hsp.
    replace (ec - eza) with (ec - ez + (ez - eza)) by lia.
    rewrite Z.pow_add_r by lia. nia.
Qed.

(** Dividing a positive normal number by two lowers its exponent by one. *)
Lemma SFdiv_two (mX : positive) (eX : Z) :
  Zdigits2 (Z.pos mX) = 53 -> -1072 <= eX <= 972 ->
  SF64div (S754_finite false mX eX)
    (S754_finite false 4503599627370496 (-51))
  = S754_finite false mX (eX - 1).
Proof.
  intros Hd He. unfold SF64div, SFdiv, SFdiv_core_binary. cbn [xorb].
  rewrite Hd. change (Zdigits2 4503599627370496) with 53.
  rewrite fexp_eq.
  replace (Z.min (Z.max (53 + eX - (53 + -51) - 53) (-1074)) (eX - -51))
    with (eX - 2) by lia.
  replace (eX - -51 - (eX - 2)) with 53 by lia.
  rewrite Z.shiftl_mul_pow2 by lia.
  assert (Hdiv : Z.div_eucl (Z.pos mX * 2 ^ 53) 4503599627370496
                 = (Z.pos mX~0, 0)).
  { pose proof (Z_div_mod (Z.pos mX * 2 ^ 53) 4503599627370496
                  ltac:(reflexivity)) as H.
    destruct (Z.div_eucl (Z.pos mX * 2 ^ 53) 4503599627370496) as [q r].
    destruct H as [H1 H2].
    change (2 ^ 53) with (2 * 4503599627370496) in H1.
    assert (q = 2 * Z.pos mX) by nia.
    assert (r = 0) by nia. subst. reflexivity. }
  rewrite Hdiv.
  change (new_location 4503599627370496 0) with loc_Exact.
  unfold binary_round_aux.
  assert (H1 : shr_fexp prec emax (Z.pos mX~0) (eX - 2) loc_Exact
               = ({| shr_m := Z.pos mX; shr_r := false; shr_s := false |},
                  eX - 1)).
  { unfold shr_fexp, shr. rewrite fexp_eq.
    assert (Hd2 : Zdigits2 (Z.pos mX~0) = 54).
    { cbn [Zdigits2 digits2_pos]. cbn [Zdigits2] in Hd. lia. }
    rewrite Hd2.
    replace (Z.max (54 + (eX - 2) - 53) (-1074) - (eX - 2)) with 1 by lia.
    cbn [iter_pos shr_record_of_loc shr_1]. f_equal. lia. }
  rewrite H1. cbn [shr_m loc_of_shr_record round_nearest_even].
  assert (H2 : shr_fexp prec emax (Z.pos mX) (eX - 1) loc_Exact
               = ({| shr_m := Z.pos mX; shr_r := false; shr_s := false |},
                  eX - 1)).
  { unfold shr_fexp, shr. rewrite fexp_eq, Hd.
    replace (Z.max (53 + (eX - 1) - 53) (-1074) - (eX - 1)) with 0 by lia.
    reflexivity. }
  rewrite H2. cbn [shr_m].
  replace (eX - 1 <=? emax - prec) with true
    by (symmetry; apply Z.leb_le; unfold emax, prec; lia).
  reflexivity.
Qed.

(** A positive number far below half a unit in the last place of a normal
    number is absorbed when added to it. *)
Lemma SFadd_absorb (mc : positive) (ec : Z) (my : positive) (ey : Z) :
  Zdigits2 (Z.pos mc) = 53 -> -1074 <= ec <= 971 -> ey < ec ->
  Z.pos my < 2 ^ (ec - ey - 1) ->
  SF64add (S754_finite false mc ec) (S754_finite false my ey)
  = S754_finite false mc ec.
Proof.
  intros Hdc Hec Hey Hmy.
  destruct (SFadd_pos mc ec my ey) as (sp & Hsp & Hadd).
  rewrite Hadd. clear Hadd.
  replace (Z.min ec ey) with ey in * by lia.
  rewrite Z.sub_diag, Z.mul_1_r in Hsp.
  set (k := ec - ey) in *.
  pose proof (Zdigits2_bounds mc) as [Hclo Hchi]. rewrite Hdc in Hclo, Hchi.
  change (2 ^ (53 - 1)) with (2 ^ 52) in Hclo.
  assert (Hk1 : 0 < 2 ^ (k - 1)) by (apply Z.pow_pos_nonneg; lia).
  assert (Hk : 2 ^ k = 2 * 2 ^ (k - 1)).
  { replace k with (1 + (k - 1)) at 1 by lia. now rewrite Z.pow_add_r by lia. }
  assert (Hds : Zdigits2 (Z.pos sp) = 53 + k).
  { apply Zdigits2_eq; [lia|].
    replace (53 + k - 1) with (52 + k) by lia.
    rewrite !Z.pow_add_r by lia. rewrite Hsp. split; nia. }
  unfold binary_round.
  change (Z.pos (digits2_pos sp)) with (Zdigits2 (Z.pos sp)).
  rewrite Hds, fexp_eq.
  replace (Z.max (53 + k + ey - 53) (-1074)) with ec by lia.
  assert (Hal : shl_align sp ey ec = (sp, ey)).
  { unfold shl_align. destruct (ec - ey) eqn:E; try reflexivity. lia. }
  rewrite Hal. unfold binary_round_aux.
  assert (H1 : exists mrs1,
             shr_fexp prec emax (Z.pos sp) ey loc_Exact = (mrs1, ec) /\
             shr_m mrs1 = Z.pos mc /\ shr_r mrs1 = false).
  { unfold shr_fexp, shr. rewrite Hds, fexp_eq.
    replace (Z.max (53 + k + ey - 53) (-1074) - ey) with k by lia.
    destruct k as [|kp|kp] eqn:Ek; try lia.
    eexists. split; [f_equal; lia|].
    cbn [shr_record_of_loc]. split.
    - rewrite iter_shr_m by (cbn; lia). cbn [shr_m].
      rewrite Hsp.
      replace (Z.pos mc * 2 ^ Z.pos kp + Z.pos my)
        with (Z.pos my + Z.pos mc * 2 ^ Z.pos kp) by lia.
      rewrite Z.div_add by lia.
      rewrite Z.div_small by lia. reflexivity.
    - rewrite iter_shr_r by (cbn; lia). cbn [shr_m].
      apply Z.testbit_false; [lia|].
      rewrite Hsp, Hk.
      replace (Z.pos mc * (2 * 2 ^ (Z.pos kp - 1)) + Z.pos my)
        with (Z.pos my + (2 * Z.pos mc) * 2 ^ (Z.pos kp - 1)) by lia.
      rewrite Z.div_add by lia. rewrite Z.div_small by lia.
      rewrite Z.add_0_l, Z.mul_comm. apply Z.mod_mul. lia. }
  destruct H1 as (mrs1 & -> & Hm1 & Hr1).
  assert (Hround : round_nearest_even (shr_m mrs1) (loc_of_shr_record mrs1)
                   = Z.pos mc).
  { destruct mrs1 as [m r s]. cbn [shr_m shr_r] in *. subst.
    destruct s; reflexivity. }
  rewrite Hround.
  assert (H2 : shr_fexp prec emax (Z.pos mc) ec loc_Exact
               = ({| shr_m := Z.pos mc; shr_r := false; shr_s := false |},
                  ec)).
  { unfold shr_fexp, shr. rewrite fexp_eq, Hdc.
    replace (Z.max (53 + ec - 53) (-1074) - ec) with 0 by lia.
    reflexivity. }
  rewrite H2. cbn [shr_m].
  replace (ec <=? emax - prec) with true
    by (symmetry; apply Z.leb_le; unfold emax, prec; lia).
  reflexivity.
Qed.

Lemma valid_digits (s : bool) (m : positive) (e : Z) :
  SpecFloat.valid_binary prec emax (S754_finite s m e) = true ->
  Zdigits2 (Z.pos m) <= 53 /\ (-1074 < e -> Zdigits2 (Z.pos m) = 53).
Proof.
  cbn [SpecFloat.valid_binary]. unfold bounded, canonical_mantissa. intros H.
  apply andb_true_iff in H. destruct H as [Hc _].
  apply Z.eqb_eq in Hc. rewrite fexp_eq in Hc.
  change (Z.pos (digits2_pos m)) with (Zdigits2 (Z.pos m)) in Hc. lia.
Qed.

(** Something at most 2^-1020 added to a tenth or a twentieth changes
    nothing. *)
Lemma tiny_absorbed (mc : positive) (ec : Z) (y : spec_float) :
  Zdigits2 (Z.pos mc) = 53 -> -100 <= ec <= 971 ->
  SpecFloat.valid_binary prec emax y = true ->
  y = S754_zero false \/
  (exists my ey, y = S754_finite false my ey /\ ey <= -1073) ->
  SF64add (S754_finite false mc ec) y = S754_finite false mc ec.
Proof.
  intros Hdc Hec Hv [->|(my & ey & -> & Hey)]; [reflexivity|].
  destruct (valid_digits _ _ _ Hv) as [Hd _].
  pose proof (Zdigits2_bounds my) as [_ Hhi].
  apply SFadd_absorb; try lia.
  eapply Z.lt_le_trans; [exact Hhi|]. apply Z.pow_le_mono_r; lia.
Qed.

(** The radius of the filled circle: halving [0.1 + progress * 0.8] gives
    the float [0.05 + progress * 0.4], for every progress between 0 and
    1. *)
Lemma radius_formula (progress : float) :
  (0 <=? progress)%float = true -> (progress <=? 1)%float = true ->
  ((0.1 + progress * 0.8) / 2 = 0.05 + progress * 0.4)%float.
Proof.
  intros H0 H1. apply Prim2SF_inj.
  pose proof (Prim2SF_valid (progress * 0.8)) as V8.
  pose proof (Prim2SF_valid (progress * 0.4)) as V4.
  pose proof (Prim2SF_valid (0.1 + progress * 0.8)) as VX.
  rewrite div_spec, !add_spec, !mul_spec.
  rewrite add_spec, mul_spec in VX. rewrite mul_spec in V8, V4.
  rewrite leb_spec in H0, H1.
  pose proof (Prim2SF_valid progress) as Hv.
  change (Prim2SF 0.1) with (S754_finite false 7205759403792794 (-56)) in *.
  change (Prim2SF 0.05) with (S754_finite false 7205759403792794 (-57)).
  change (Prim2SF 0.8) with (S754_finite false 7205759403792794 (-53)) in *.
  change (Prim2SF 0.4) with (S754_finite false 7205759403792794 (-54)) in *.
  change (Prim2SF 2) with (S754_finite false 4503599627370496 (-51)).
  change (Prim2SF 0) with (S754_zero false) in H0.
  change (Prim2SF 1) with (S754_finite false 4503599627370496 (-52)) in H1.
  destruct (Prim2SF progress) as [s|s| |s m e].
  - destruct s; reflexivity.
  - destruct s; discriminate.
  - discriminate.
  - destruct s; [discriminate|].
    unfold SFleb, SFcompare in H1.
    assert (He : e <= -52).
    { destruct (Z.compare_spec e (-52)); [lia | lia | discriminate]. }
    destruct (valid_digits _ _ _ Hv) as [Hdm _].
    unfold SF64mul, SFmul in *. cbn [xorb] in *.
    replace (e + -54) with (e + -53 - 1) in * by lia.
    set (mx := Z.pos (m * 7205759403792794)) in *.
    set (ex := e + -53) in *.
    assert (Hd : 53 <= Zdigits2 mx <= 106).
    { unfold mx. rewrite Pos2Z.inj_mul. split.
      - apply (Zdigits2_ge _ 52); [lia|]. change (2 ^ 52) with 4503599627370496.
        lia.
      - apply Zdigits2_le; [lia|]. split; [lia|].
        pose proof (Zdigits2_bounds m) as [_ Hhi].
        assert (Z.pos m < 2 ^ 53).
        { eapply Z.lt_le_trans; [exact Hhi|]. apply Z.pow_le_mono_r; lia. }
        change (2 ^ 106) with (2 ^ 53 * 2 ^ 53).
        apply Z.mul_lt_mono_nonneg; lia. }
    destruct (Z.le_gt_cases (-1073) (Zdigits2 mx + ex - 53)) as [Hu|Hc].
    + (* the product is a normal number: everything scales *)
      destruct (binary_round_aux_positive false mx ex loc_Exact)
        as (my & ey & HY & Hey & _); [unfold mx; lia | lia | lia |].
      rewrite binary_round_aux_half by
        (try (unfold mx; lia); try lia; intros s'; rewrite HY; discriminate).
      rewrite HY in *. cbn [half_sf].
      destruct (valid_digits _ _ _ V8) as [Hdy _].
      destruct (SFadd_form 7205759403792794 (-56) my ey)
        as (mX & eX & HX & HeX & HX' & _); [reflexivity | lia | lia | lia |].
      change (-56 - 1) with (-57) in HX'.
      rewrite HX in *. rewrite HX'.
      destruct (valid_digits _ _ _ VX) as [_ HdX].
      apply SFdiv_two; [apply HdX; lia | lia].
    + (* the product is negligible: both sums are absorbed *)
      assert (T8 : binary_round_aux prec emax false mx ex loc_Exact
                   = S754_zero false \/
                   exists my ey,
                     binary_round_aux prec emax false mx ex loc_Exact
                     = S754_finite false my ey /\ ey <= -1073).
      { destruct (binary_round_aux_form false mx ex loc_Exact)
          as [Hz|(my & ey & Hf & Hey)]; [unfold mx; lia | lia | now left |].
        right. exists my, ey. split; [exact Hf|]. rewrite fexp_eq in Hey. lia. }
      assert (T4 : binary_round_aux prec emax false mx (ex - 1) loc_Exact
                   = S754_zero false \/
                   exists my ey,
                     binary_round_aux prec emax false mx (ex - 1) loc_Exact
                     = S754_finite false my ey /\ ey <= -1073).
      { destruct (binary_round_aux_form false mx (ex - 1) loc_Exact)
          as [Hz|(my & ey & Hf & Hey)]; [unfold mx; lia | lia | now left |].
        right. exists my, ey. split; [exact Hf|]. rewrite fexp_eq in Hey. lia. }
      rewrite (tiny_absorbed 7205759403792794 (-56) _ eq_refl ltac:(lia) V8 T8).
      rewrite (tiny_absorbed 7205759403792794 (-57) _ eq_refl ltac:(lia) V4 T4).
      reflexivity.
Qed.

(** The radius never falls below the twentieth it has at progress 0. *)
Lemma radius_minimum (progress : float) :
  (0 <=? progress)%float = true -> (progress <=? 1)%float = true ->
  (0.05 <=? 0.05 + progress * 0.4)%float = true.
Proof.
  intros H0 H1.
  pose proof (Prim2SF_valid (progress * 0.4)) as V4.
  rewrite leb_spec, add_spec, mul_spec.
  rewrite mul_spec in V4.
  rewrite leb_spec in H0, H1.
  pose proof (Prim2SF_valid progress) as Hv.
  change (Prim2SF 0.05) with (S754_finite false 7205759403792794 (-57)).
  change (Prim2SF 0.4) with (S754_finite false 7205759403792794 (-54)) in *.
  change (Prim2SF 0) with (S754_zero false) in H0.
  change (Prim2SF 1) with (S754_finite false 4503599627370496 (-52)) in H1.
  destruct (Prim2SF progress) as [s|s| |s m e].
  - destruct s; reflexivity.
  - destruct s; discriminate.
  - discriminate.
  - destruct s; [discriminate|].
    unfold SFleb, SFcompare in H1.
    assert (He : e <= -52).
    { destruct (Z.compare_spec e (-52)); [lia | lia | discriminate]. }
    destruct (valid_digits _ _ _ Hv) as [Hdm _].
    unfold SF64mul, SFmul in *. cbn [xorb] in *.
    set (mx := Z.pos (m * 7205759403792794)) in *.
    set (ex := e + -54) in *.
    assert (Hd : 53 <= Zdigits2 mx <= 106).
    { unfold mx. rewrite Pos2Z.inj_mul. split.
      - apply (Zdigits2_ge _ 52); [lia|]. change (2 ^ 52) with 4503599627370496.
        lia.
      - apply Zdigits2_le; [lia|]. split; [lia|].
        pose proof (Zdigits2_bounds m) as [_ Hhi].
        assert (Z.pos m < 2 ^ 53).
        { eapply Z.lt_le_trans; [exact Hhi|]. apply Z.pow_le_mono_r; lia. }
        change (2 ^ 106) with (2 ^ 53 * 2 ^ 53).
        apply Z.mul_lt_mono_nonneg; lia. }
    destruct (Z.le_gt_cases (-1073) (Zdigits2 mx + ex - 53)) as [Hu|Hc].
    + destruct (binary_round_aux_positive false mx ex loc_Exact)
        as (my & ey & HY & Hey & _); [unfold mx; lia | lia | lia |].
      rewrite HY in *.
      destruct (valid_digits _ _ _ V4) as [Hdy _].
      destruct (SFadd_form 7205759403792794 (-57) my ey)
        as (mX & eX & HX & HeX & _ & HmX); [reflexivity | lia | lia | lia |].
      rewrite HX. unfold SFleb, SFcompare.
      destruct (Z.compare_spec (-57) eX) as [Heq|Hlt|Hgt]; [|reflexivity|lia].
      specialize (HmX (eq_sym Heq)).
      rewrite Pos.compare_cont_spec. cbn [Pos.switch_Eq].
      assert (Hc : (7205759403792794 ?= mX)%positive <> Gt) by exact HmX.
      clear - Hc.
      destruct (7205759403792794 ?= mX)%positive;
        [reflexivity | reflexivity | now elim Hc].
    + assert (T4 : binary_round_aux prec emax false mx ex loc_Exact
                   = S754_zero false \/
                   exists my ey,
                     binary_round_aux prec emax false mx ex loc_Exact
                     = S754_finite false my ey /\ ey <= -1073).
      { destruct (binary_round_aux_form false mx ex loc_Exact)
          as [Hz|(my & ey & Hf & Hey)]; [unfold mx; lia | lia | now left |].
        right. exists my, ey. split; [exact Hf|]. rewrite fexp_eq in Hey. lia. }
      rewrite (tiny_absorbed 7205759403792794 (-57) _ eq_refl ltac:(lia) V4 T4).
      reflexivity.
Qed.

(** ** The claims on the renderer *)

Lemma shapes_no_text (progress : float) (style : string) :
  flat_map (fun a => match a with
                     | Text _ _ s _ _ _ _ => [s]
                     | _ => []
                     end) (shapes progress style) = [].
Proof.
  unfold shapes.
  destruct (style =? "Circle")%string; [reflexivity|].
  destruct (style =? "Lung")%string; [reflexivity|].
  destruct (style =? "Wave")%string; reflexivity.
Qed.

(** C8, as the code has it.  For every progress between 0 and 1, every
    style and every phase, the figure is produced and its last artist, the
    only text, is anchored at (0.5, 0.05) with centre alignment and reads
    [int(progress * 100)] followed by "%": the floor, not the rounding, of
    the binary64 product.  For the Circle style the filled circle has radius
    [(0.1 + progress * 0.8) / 2], which is the very float
    [0.05 + progress * 0.4]; it is 0.25 at progress 0.5 and 0.05 at
    progress 0, and never less than 0.05. *)
Theorem label_is_truncated_percent (progress : float) (style phase : string) :
  (0 <=? progress)%float = true -> (progress <=? 1)%float = true ->
  exists fig q,
    create_visualization progress style phase = Ok fig /\
    Py.to_Q (progress * 100) = Some q /\
    artists fig
    = shapes progress style
      ++ [Text 0.5%float 0.05%float (Py.str (Qfloor q) ++ "%")%string
            "center" "center" 16 "black"] /\
    labels fig = [(Py.str (Qfloor q) ++ "%")%string] /\
    (style = "Circle" ->
     shapes progress style
     = [ CirclePatch (0.5, 0.5)%float ((0.1 + progress * 0.8) / 2)%float true
           "skyblue" None 0.7%float;
         CirclePatch (0.5, 0.5)%float 0.45%float false "gray" (Some "--")
           0.5%float ] /\
     filled_radii fig = [((0.1 + progress * 0.8) / 2)%float]) /\
    ((0.1 + 0.5 * 0.8) / 2 = 0.25)%float /\
    ((0.1 + 0 * 0.8) / 2 = 0.05)%float /\
    ((0.1 + progress * 0.8) / 2 = 0.05 + progress * 0.4)%float /\
    (0.05 <=? (0.1 + progress * 0.8) / 2)%float = true.
Proof.
  intros H0 H1.
  destruct (percent_is_floor progress H0 H1) as (q & Hq & Hint).
  unfold create_visualization. rewrite Hint. cbn [res_bind].
  eexists. exists q.
  split; [reflexivity|]. split; [exact Hq|].
  cbn [artists]. split; [reflexivity|].
  split.
  { unfold labels. cbn [artists]. rewrite flat_map_app, shapes_no_text.
    reflexivity. }
  split.
  { intros ->. split; [reflexivity|]. reflexivity. }
  split; [reflexivity|]. split; [reflexivity|].
  split; [exact (radius_formula progress H0 H1)|].
  rewrite (radius_formula progress H0 H1).
  exact (radius_minimum progress H0 H1).
Qed.

(** ** The loop when nobody stops it *)

Lemma triple_ret {A : Type} (a : A) (P : World -> Prop)
  (Q : A -> World -> Prop) (E F : World -> Prop) :
  (forall w, P w -> Q a w) -> triple P (ret a) Q E F.
Proof. intros H w Hw. cbn. now apply H. Qed.

Lemma triple_bind {A B : Type} (c : M A) (k : A -> M B) (P : World -> Prop)
  (Q : A -> World -> Prop) (R : B -> World -> Prop) (E F : World -> Prop) :
  triple P c Q E F -> (forall a, triple (Q a) (k a) R E F) ->
  triple P (bind c k) R E F.
Proof.
  intros Hc Hk w Hw. specialize (Hc w Hw). unfold bind.
  destruct (c w) as [a w'|e w'|w']; [|exact Hc|exact Hc].
  exact (Hk a w' Hc).
Qed.

Lemma triple_post {A : Type} (c : M A) (P : World -> Prop)
  (Q Q' : A -> World -> Prop) (E F : World -> Prop) :
  triple P c Q E F -> (forall a w, Q a w -> Q' a w) -> triple P c Q' E F.
Proof.
  intros Hc HQ w Hw. specialize (Hc w Hw). destruct (c w); auto.
Qed.

Section Quiet.

Hypothesis nobody_stops : forall k, stop_during env k = false.
Hypothesis nothing_fails : forall k, render_failure env k = None.

Lemma live_get_running :
  triple live get_running (fun r w => r = true /\ live w) unreachable live.
Proof. intros w Hw. cbn. split; exact Hw. Qed.

Lemma live_markdown (s : string) :
  triple live (markdown s) (fun _ w => live w) unreachable live.
Proof. intros w Hw. exact Hw. Qed.

Lemma live_now : triple live now (fun _ w => live w) unreachable live.
Proof. intros w Hw. exact Hw. Qed.

Lemma live_sleep (seconds : float) :
  triple live (sleep seconds) (fun _ w => live w) unreachable live.
Proof.
  intros w Hw. unfold sleep, live. cbn.
  rewrite nobody_stops. now rewrite Hw.
Qed.

Lemma live_show_frame (progress : float) (style phase : string) :
  label_defined progress = true ->
  triple live (show_frame progress style phase) (fun _ w => live w) unreachable
    live.
Proof.
  intros Hl w Hw. unfold show_frame.
  destruct (create_visualization_defined progress style phase Hl)
    as [fig ->].
  rewrite nothing_fails. exact Hw.
Qed.

Lemma live_phase_step (phase : string) (progress_of : Z -> float)
  (seconds : float) (viz_style : string) (i : Z) :
  label_defined (progress_of i) = true ->
  triple live (phase_step phase progress_of seconds viz_style i)
    (fun stop w => stop = false /\ live w) unreachable live.
Proof.
  intros Hl. unfold phase_step.
  eapply triple_bind; [now apply live_show_frame|]. intros ?.
  eapply triple_bind; [apply live_sleep|]. intros ?.
  eapply triple_bind; [apply live_get_running|]. intros r.
  apply triple_ret. intros w [-> Hw]. now split.
Qed.

Lemma live_for_each (phase : string) (progress_of : Z -> float)
  (seconds : float) (viz_style : string) (xs : list Z) :
  (forall x, In x xs -> label_defined (progress_of x) = true) ->
  triple live (for_each xs (phase_step phase progress_of seconds viz_style))
    (fun _ w => live w) unreachable live.
Proof.
  induction xs as [|x xs IH]; intros Hl; cbn [for_each].
  - apply triple_ret. auto.
  - eapply triple_bind; [apply live_phase_step, Hl; now left|].
    intros stop w [-> Hw]. apply IH; [|exact Hw].
    intros y Hy. apply Hl. now right.
Qed.

Lemma live_hold_wait (hold_start hold_time : float) (fuel : nat) :
  triple live (hold_wait fuel hold_start hold_time) (fun _ w => live w)
    unreachable live.
Proof.
  induction fuel as [|fuel IH]; cbn [hold_wait].
  - intros w Hw. exact Hw.
  - eapply triple_bind; [apply live_now|]. intros t.
    destruct (t - hold_start <? hold_time)%float; [|apply triple_ret; auto].
    eapply triple_bind; [apply live_get_running|].
    intros r w [-> Hw]. cbn [negb].
    revert w Hw. eapply triple_bind; [apply live_sleep|]. intros ?. exact IH.
Qed.

Lemma live_hold_phase (fuel : nat) (hold_time : float) :
  triple live (hold_phase fuel hold_time) (fun _ w => live w) unreachable live.
Proof.
  unfold hold_phase. destruct (0 <? hold_time)%float; [|apply triple_ret; auto].
  eapply triple_bind; [apply live_markdown|]. intros ?.
  eapply triple_bind; [apply live_now|]. intros hold_start.
  apply live_hold_wait.
Qed.

Lemma live_cycle (fuel : nat) (inhale_time exhale_time hold_time : float)
  (viz_style : string) :
  triple live (cycle fuel inhale_time exhale_time hold_time viz_style)
    (fun left w => left = false /\ live w) unreachable live.
Proof.
  unfold cycle.
  eapply triple_bind; [apply live_markdown|]. intros ?.
  eapply triple_bind.
  { rewrite inhale_phase_steps. apply live_for_each.
    exact inhale_label_defined. }
  intros ?.
  eapply triple_bind; [apply live_get_running|].
  intros r w [-> Hw]. cbn [negb]. revert w Hw.
  eapply triple_bind; [apply live_hold_phase|]. intros ?.
  eapply triple_bind; [apply live_get_running|].
  intros r w [-> Hw]. cbn [negb]. revert w Hw.
  eapply triple_bind; [apply live_markdown|]. intros ?.
  eapply triple_bind.
  { rewrite exhale_phase_steps. apply live_for_each.
    exact exhale_label_defined. }
  intros ?. apply triple_ret. intros w Hw. now split.
Qed.

Lemma live_animation_loop (fuel : nat)
  (inhale_time exhale_time hold_time : float) (viz_style : string) :
  triple live
    (animation_loop fuel inhale_time exhale_time hold_time viz_style)
    (fun _ _ => False) unreachable live.
Proof.
  induction fuel as [|fuel IH]; cbn [animation_loop].
  - intros w Hw. exact Hw.
  - eapply triple_bind; [apply live_get_running|].
    intros r w [-> Hw]. cbn [negb]. revert w Hw.
    eapply triple_bind; [apply live_cycle|].
    intros left w [-> Hw]. now apply IH.
Qed.

(** Without a hold phase, [n] iterations of the loop log [n] full cycles. *)
Lemma loop_cycles (inhale_time exhale_time hold_time : float)
  (viz_style : string) :
  (0 <? hold_time)%float = false ->
  forall (n : nat) (w : World),
    running w = true ->
    exists w',
      animation_loop n inhale_time exhale_time hold_time viz_style w
      = OutOfFuel w' /\
      running w' = true /\
      frames_of (trace w')
      = frames_of (trace w) ++ List.concat (repeat cycle_frames n) /\
      headings_of (trace w')
      = headings_of (trace w)
        ++ List.concat (repeat ["## Inhale"; "## Exhale"] n).
Proof.
  intros Hhold. induction n as [|n IH]; intros w Hw.
  - exists w. cbn. rewrite !app_nil_r. auto.
  - cbn [animation_loop].
    rewrite (bind_Done _ _ _ _ _ (get_running_advance _)).
    rewrite Hw. cbn [negb].
    destruct (cycle_uninterrupted (S n) 0 inhale_time exhale_time hold_time
                viz_style (advance w true 0 0 0 [ECheck true]) eq_refl
                nobody_stops nothing_fails ltac:(lia))
      as (w1 & Hrun & Hw1 & Htr1).
    { rewrite Hhold. discriminate. }
    rewrite (bind_Done _ _ _ _ _ Hrun).
    destruct (IH w1 Hw1) as (w' & Hloop & Hw' & Hfr & Hhd).
    exists w'. split; [exact Hloop|]. split; [exact Hw'|].
    rewrite Hfr, Hhd, Htr1. cbn [advance trace repeat List.concat].
    unfold hold_events, inhale_events, exhale_events. rewrite Hhold.
    autorewrite with traces.
    rewrite !frames_of_steps
      by (first [exact inhale_label_defined | exact exhale_label_defined]).
    rewrite !headings_of_steps. unfold cycle_frames.
    cbn [app]. rewrite <- !app_assoc. split; reflexivity.
Qed.

End Quiet.

(** X10.  If Stop never arrives and no frame fails, the animation never ends
    on its own: from a world whose flag is set and for step durations that
    [time.sleep] accepts (not negative, finite), for every bound on the
    number of iterations [run_breathing_animation] neither returns nor
    raises, the flag is still set and no error message is logged; whatever
    the clock and the length of the hold.  (On a negative or non-finite
    duration [time.sleep] raises, and line 151 ends the animation with an
    error message.) *)
Theorem animation_never_ends (fuel : nat)
  (inhale_time exhale_time hold_time : float) (viz_style : string)
  (w : World) :
  sleep_accepts (inhale_time / Py.float_of_Z steps) = true ->
  sleep_accepts (exhale_time / Py.float_of_Z steps) = true ->
  running w = true ->
  (forall k, stop_during env k = false) ->
  (forall k, render_failure env k = None) ->
  exists w',
    run_breathing_animation fuel inhale_time exhale_time hold_time viz_style
      w = OutOfFuel w' /\
    running w' = true /\
    errors_of (trace w') = errors_of (trace w).
Proof.
  intros _ _ Hw Hquiet Hrender.
  pose proof (live_animation_loop Hquiet Hrender fuel inhale_time exhale_time
                hold_time viz_style w Hw) as H.
  destruct (emits_animation_loop inhale_time exhale_time hold_time viz_style
              fuel w) as (evs & Htr & Hok).
  unfold run_breathing_animation.
  destruct (animation_loop fuel inhale_time exhale_time hold_time viz_style w)
    as [[] w'|e w'|w']; [contradiction|contradiction|].
  exists w'. split; [reflexivity|]. split; [exact H|].
  cbn [world_of] in Htr. rewrite Htr. unfold errors_of.
  rewrite flat_map_app.
  replace (flat_map _ evs) with (@nil string); [now rewrite app_nil_r|].
  clear Htr. induction Hok as [|e evs He _ IH]; [reflexivity|].
  destruct e; cbn in He |- *; try exact IH. contradiction.
Qed.

(** X11.  Without a hold phase ([hold_time] not above 0), each iteration of
    the [while] loop shows one full cycle: after [n] iterations in which
    nobody stops the loop and nothing fails, the frames shown are [n] times
    the 21 inhale frames followed by the 21 exhale frames, the headings
    alternate between "## Inhale" and "## Exhale", and the loop is still
    running. *)
Theorem loop_repeats (n : nat)
  (inhale_time exhale_time hold_time : float) (viz_style : string)
  (w : World) :
  running w = true ->
  (forall k, stop_during env k = false) ->
  (forall k, render_failure env k = None) ->
  (0 <? hold_time)%float = false ->
  exists w',
    run_breathing_animation n inhale_time exhale_time hold_time viz_style w
    = OutOfFuel w' /\
    running w' = true /\
    frames_of (trace w')
    = frames_of (trace w) ++ List.concat (repeat cycle_frames n) /\
    headings_of (trace w')
    = headings_of (trace w) ++ List.concat (repeat ["## Inhale"; "## Exhale"] n).
Proof.
  intros Hw Hquiet Hrender Hhold.
  destruct (loop_cycles Hquiet Hrender inhale_time exhale_time hold_time
              viz_style Hhold n w Hw) as (w' & Hloop & Hrest).
  exists w'. split; [|exact Hrest].
  unfold run_breathing_animation. now rewrite Hloop.
Qed.

Lemma sleeps_of_check (b : bool) (l : list Event) :
  sleeps_of (ECheck b :: l) = sleeps_of l.
Proof. reflexivity. Qed.

Lemma sleeps_of_markdown (s : string) (l : list Event) :
  sleeps_of (EMarkdown s :: l) = sleeps_of l.
Proof. reflexivity. Qed.

Lemma sleeps_of_nil : sleeps_of [] = [].
Proof. reflexivity. Qed.

Lemma frames_of_inhale_events (inhale_time : float) (viz_style : string) :
  frames_of (inhale_events inhale_time viz_style)
  = map (fun i => ("inhale", inhale_progress i)) (Py.range (steps + 1)).
Proof.
  unfold inhale_events. rewrite frames_of_markdown.
  apply frames_of_steps. exact inhale_label_defined.
Qed.

Lemma headings_of_inhale_events (inhale_time : float) (viz_style : string) :
  headings_of (inhale_events inhale_time viz_style) = ["## Inhale"].
Proof.
  unfold inhale_events. rewrite headings_of_markdown.
  now rewrite headings_of_steps.
Qed.

Lemma sleeps_of_inhale_events (inhale_time : float) (viz_style : string) :
  sleeps_of (inhale_events inhale_time viz_style)
  = repeat (inhale_time / Py.float_of_Z steps)%float 21.
Proof.
  unfold inhale_events. rewrite sleeps_of_markdown.
  now rewrite sleeps_of_steps, range_length.
Qed.

Lemma frames_of_hold_events (hold_time : float) (n : nat) :
  frames_of (hold_events hold_time n) = [].
Proof.
  unfold hold_events.
  destruct (0 <? hold_time)%float; now autorewrite with traces.
Qed.

Lemma headings_of_hold_events (hold_time : float) (n : nat) :
  headings_of (hold_events hold_time n)
  = if (0 <? hold_time)%float then ["## Hold"] else [].
Proof.
  unfold hold_events.
  destruct (0 <? hold_time)%float; now autorewrite with traces.
Qed.

Lemma sleeps_of_hold_events (hold_time : float) (n : nat) :
  sleeps_of (hold_events hold_time n)
  = if (0 <? hold_time)%float then repeat 0.1%float n else [].
Proof.
  unfold hold_events.
  destruct (0 <? hold_time)%float; cbn [app];
    rewrite ?sleeps_of_check, ?sleeps_of_markdown, ?sleeps_of_app,
      ?sleeps_of_hold_polls, ?sleeps_of_check, ?sleeps_of_nil, ?app_nil_r;
    reflexivity.
Qed.

(** X8.  Stop during the exhale phase.  From the head of the loop with the
    flag set, when the inhale phase and the hold phase (of [n] polls) pass
    undisturbed and Stop arrives during the suspension that follows the
    [i]-th exhale frame ([i <= 20]): the loop returns with the flag cleared
    and without any further suspension; it has shown the 21 inhale frames
    and the exhale frames [0 .. i], and no second cycle begins. *)
Theorem stop_during_exhale (fuel n i : nat)
  (inhale_time exhale_time hold_time : float) (viz_style : string)
  (w : World) :
  running w = true ->
  (i <= 20)%nat ->
  (n < fuel)%nat ->
  ((0 <? hold_time)%float = false -> n = 0%nat) ->
  ((0 <? hold_time)%float = true ->
   (forall j, (j < n)%nat ->
      (time_time env (clock_reads w + 1 + j)
       - time_time env (clock_reads w) <? hold_time)%float = true) /\
   (time_time env (clock_reads w + 1 + n)
    - time_time env (clock_reads w) <? hold_time)%float = false) ->
  (forall j, (j < 21 + n + i)%nat -> stop_during env (sleeps w + j) = false) ->
  stop_during env (sleeps w + (21 + n + i)) = true ->
  (forall j, (j <= 21 + i)%nat -> render_failure env (shown w + j) = None) ->
  exists w' evs,
    run_breathing_animation (S fuel) inhale_time exhale_time hold_time
      viz_style w = Done tt w' /\
    running w' = false /\
    sleeps w' = (sleeps w + 21 + n + S i)%nat /\
    trace w' = trace w ++ evs /\
    frames_of evs
    = map (fun k => ("inhale", inhale_progress k)) (Py.range (steps + 1))
      ++ map (fun k => ("exhale", exhale_progress k))
           (Py.range (Z.of_nat i + 1)) /\
    headings_of evs
    = "## Inhale"
      :: (if (0 <? hold_time)%float then ["## Hold"] else [])
      ++ ["## Exhale"].
Proof.
  intros Hw Hi Hfuel Hzero Hclock Hs Hstop Hr.
  destruct (cycle_to_exhale (S fuel) n inhale_time exhale_time hold_time
              viz_style (advance w true 0 0 0 [ECheck true]))
    as (c & Hc).
  { reflexivity. }
  { intros j Hj. cbn [advance sleeps]. by_index Hs j. }
  { intros j Hj. cbn [advance shown]. by_index Hr j. }
  { lia. }
  { exact Hzero. }
  { intros Hpos. destruct (Hclock Hpos) as [Ht He].
    cbn [advance clock_reads]. rewrite !Nat.add_0_r. now split. }
  destruct fuel as [|fuel]; [lia|].
  eexists. eexists. split; [|split; [|split; [|split; [|split]]]].
  - unfold run_breathing_animation. cbn [animation_loop].
    rewrite (bind_Done _ _ _ _ _ (get_running_advance _)).
    rewrite Hw. cbn [negb].
    erewrite bind_Done.
    2:{ rewrite Hc. rewrite exhale_phase_steps, (range_split i Hi).
        erewrite bind_Done.
        2:{ apply for_each_stopped; rewrite ?length_map, ?length_seq.
            - reflexivity.
            - intros j Hj. cbn [advance sleeps]. by_index Hs (21 + n + j)%nat.
            - cbn [advance sleeps]. rewrite <- Hstop. f_equal. lia.
            - intros j Hj. cbn [advance shown]. by_index Hr (21 + j)%nat.
            - intros y Hy. apply exhale_label_defined.
              now apply (in_range_prefix i). }
        unfold ret. reflexivity. }
    cbv iota.
    rewrite (bind_Done _ _ _ _ _ (get_running_advance _)).
    cbn [advance running negb]. unfold ret.
    rewrite length_map, length_seq, !advance_advance. reflexivity.
  - reflexivity.
  - cbn [advance sleeps]. lia.
  - reflexivity.
  - rewrite range_prefix, map_app. autorewrite with traces.
    rewrite frames_of_inhale_events, frames_of_hold_events.
    rewrite frames_of_steps.
    2:{ intros y Hy. apply exhale_label_defined, (in_range_prefix i y Hi).
        apply in_or_app. now left. }
    rewrite frames_of_step_events.
    2:{ apply exhale_label_defined, (in_range_prefix i _ Hi).
        apply in_or_app. right. now left. }
    cbn [app map]. now rewrite !app_nil_r.
  - autorewrite with traces.
    rewrite headings_of_inhale_events, headings_of_hold_events.
    rewrite headings_of_steps, headings_of_step_events.
    cbn [app]. now rewrite ?app_nil_r.
Qed.

(** X9.  Stop during the hold phase.  From the head of the loop with the
    flag set, when the inhale phase passes undisturbed, the hold time is
    positive and Stop arrives during the [k]-th suspension of the hold phase
    (the clock having left time at every poll up to it): the loop returns
    with the flag cleared after that suspension; it has shown the 21 inhale
    frames under the headings "## Inhale" and "## Hold", no heading
    "## Exhale" and no exhale frame. *)
Theorem stop_during_hold (fuel k : nat)
  (inhale_time exhale_time hold_time : float) (viz_style : string)
  (w : World) :
  running w = true ->
  (0 <? hold_time)%float = true ->
  (S k < fuel)%nat ->
  (forall j, (j <= k)%nat ->
     (time_time env (clock_reads w + 1 + j)
      - time_time env (clock_reads w) <? hold_time)%float = true) ->
  (forall j, (j < 21 + k)%nat -> stop_during env (sleeps w + j) = false) ->
  stop_during env (sleeps w + (21 + k)) = true ->
  (forall j, (j < 21)%nat -> render_failure env (shown w + j) = None) ->
  exists w' evs,
    run_breathing_animation fuel inhale_time exhale_time hold_time
      viz_style w = Done tt w' /\
    running w' = false /\
    sleeps w' = (sleeps w + 21 + S k)%nat /\
    trace w' = trace w ++ evs /\
    frames_of evs
    = map (fun i => ("inhale", inhale_progress i)) (Py.range (steps + 1)) /\
    headings_of evs = ["## Inhale"; "## Hold"] /\
    sleeps_of evs
    = repeat (inhale_time / Py.float_of_Z steps)%float 21
      ++ repeat 0.1%float (S k).
Proof.
  intros Hw Hpos Hfuel Ht Hs Hstop Hr.
  destruct fuel as [|fuel]; [lia|].
  destruct (hold_wait_stopped
              (time_time env (clock_reads w)) hold_time k (S fuel)
              (advance
                 (advance
                    (advance (advance w true 0 0 0 [ECheck true]) true 21 21
                       0 (inhale_events inhale_time viz_style
                          ++ [ECheck true]))
                    true 0 0 0 [EMarkdown "## Hold"])
                 true 0 0 1 []))
    as (tail & Htail & Hwait).
  { exact Hfuel. }
  { reflexivity. }
  { intros j Hj. cbn [advance sleeps]. by_index Hs (21 + j)%nat. }
  { cbn [advance sleeps]. rewrite <- Hstop. f_equal. lia. }
  { intros j Hj. cbn [advance clock_reads].
    etransitivity; [|apply (Ht j Hj)]. repeat (f_equal; try lia). }
  eexists. eexists. split; [|split; [|split; [|split; [|split; [|split]]]]].
  - unfold run_breathing_animation. cbn [animation_loop].
    rewrite (bind_Done _ _ _ _ _ (get_running_advance _)).
    rewrite Hw. cbn [negb].
    erewrite bind_Done.
    2:{ rewrite cycle_to_hold.
        2:{ reflexivity. }
        2:{ intros j Hj. cbn [advance sleeps]. by_index Hs j. }
        2:{ intros j Hj. cbn [advance shown]. by_index Hr j. }
        unfold hold_phase. rewrite Hpos.
        rewrite bind_assoc, (bind_Done _ _ _ _ _ (markdown_advance _ _)).
        rewrite bind_assoc, (bind_Done _ _ _ _ _ (now_advance _)).
        cbn [advance running clock_reads]. rewrite !Nat.add_0_r.
        rewrite (bind_Done _ _ _ _ _ Hwait).
        rewrite (bind_Done _ _ _ _ _ (get_running_advance _)).
        cbn [advance running negb]. unfold ret. reflexivity. }
    cbv iota. unfold ret. rewrite !advance_advance. reflexivity.
  - reflexivity.
  - cbn [advance sleeps]. lia.
  - reflexivity.
  - autorewrite with traces. rewrite frames_of_inhale_events.
    destruct Htail as [-> | ->]; now autorewrite with traces.
  - autorewrite with traces. rewrite headings_of_inhale_events.
    destruct Htail as [-> | ->]; now autorewrite with traces.
  - rewrite !sleeps_of_app, sleeps_of_inhale_events, sleeps_of_hold_polls.
    destruct Htail as [-> | ->]; cbn [app sleeps_of flat_map];
      now rewrite ?app_nil_r.
Qed.

(** X13.  The suspensions of one undisturbed cycle: 21 of a twentieth of the
    inhale time (one after each inhale frame, the last included), then, when
    the hold time is positive, [n] of a tenth of a second, then 21 of a
    twentieth of the exhale time.  The loop suspends nowhere else. *)
Theorem cycle_suspensions (fuel n : nat)
  (inhale_time exhale_time hold_time : float) (viz_style : string)
  (w : World) :
  running w = true ->
  (forall k, stop_during env k = false) ->
  (forall k, render_failure env k = None) ->
  (n < fuel)%nat ->
  ((0 <? hold_time)%float = true ->
   (forall j, (j < n)%nat ->
      (time_time env (clock_reads w + 1 + j)
       - time_time env (clock_reads w) <? hold_time)%float = true) /\
   (time_time env (clock_reads w + 1 + n)
    - time_time env (clock_reads w) <? hold_time)%float = false) ->
  exists w',
    cycle fuel inhale_time exhale_time hold_time viz_style w = Done false w' /\
    sleeps_of (trace w')
    = sleeps_of (trace w)
      ++ repeat (inhale_time / Py.float_of_Z steps)%float 21
      ++ (if (0 <? hold_time)%float then repeat 0.1%float n else [])
      ++ repeat (exhale_time / Py.float_of_Z steps)%float 21.
Proof.
  intros Hw Hquiet Hrender Hfuel Hhold.
  destruct (cycle_uninterrupted fuel n inhale_time exhale_time hold_time
              viz_style w Hw Hquiet Hrender Hfuel Hhold)
    as (w' & Hrun & _ & Htr).
  exists w'. split; [exact Hrun|].
  rewrite Htr, !sleeps_of_app, sleeps_of_inhale_events, sleeps_of_hold_events.
  unfold exhale_events. rewrite sleeps_of_markdown.
  now rewrite sleeps_of_steps, range_length.
Qed.

(** When the hold time is positive the hold phase starts by showing its
    heading, and whatever it logs afterwards is neither a heading nor a
    frame. *)
Lemma hold_phase_announced (fuel : nat) (hold_time : float) (w : World) :
  (0 <? hold_time)%float = true ->
  exists evs,
    trace (world_of (hold_phase fuel hold_time w))
    = trace w ++ EMarkdown "## Hold" :: evs /\
    headings_of evs = [] /\ frames_of evs = [].
Proof.
  intros Hpos. unfold hold_phase. rewrite Hpos.
  rewrite (bind_Done _ _ _ _ _ (markdown_advance _ _)).
  set (quiet := fun e : Event => headings_of [e] = [] /\ frames_of [e] = []).
  assert (Hem : emits quiet
                  (hold_start <- now ;; hold_wait fuel hold_start hold_time)%act).
  { apply emits_bind; [apply emits_now|]. intros hold_start.
    apply emits_hold_wait; [intros b|]; now split. }
  destruct (Hem (advance w (running w) 0 0 0 [EMarkdown "## Hold"]))
    as (evs & Htr & Hq).
  exists evs. split.
  - rewrite Htr. cbn [advance trace]. now rewrite <- app_assoc.
  - clear Htr. induction Hq as [|e evs [He1 He2] _ [IH1 IH2]];
      [now split|].
    change (e :: evs) with ([e] ++ evs).
    now rewrite headings_of_app, frames_of_app, He1, He2, IH1, IH2.
Qed.

(** ** Further facts on the renderer *)

(** X14.  A style other than "Circle", "Lung" and "Wave" draws no shape: for
    every progress between 0 and 1 the figure holds the percent label and
    nothing else, with the x-limits (0, 1) and the automatic aspect of the
    fallback branches of lines 199 and 201. *)
Theorem unknown_style_label_only (progress : float) (style phase : string) :
  style <> "Circle" -> style <> "Lung" -> style <> "Wave" ->
  (0 <=? progress)%float = true -> (progress <=? 1)%float = true ->
  exists fig q,
    create_visualization progress style phase = Ok fig /\
    Py.to_Q (progress * 100) = Some q /\
    artists fig
    = [Text 0.5%float 0.05%float (Py.str (Qfloor q) ++ "%")%string
         "center" "center" 16 "black"] /\
    xlim fig = (0%float, 1%float) /\
    ylim fig = (0%float, 1%float) /\
    aspect fig = "auto".
Proof.
  intros Hc Hl Hw H0 H1.
  destruct (percent_is_floor progress H0 H1) as (q & Hq & Hint).
  apply String.eqb_neq in Hc, Hl, Hw.
  unfold create_visualization, shapes. rewrite Hint, Hc, Hl, Hw.
  cbn [res_bind]. eexists. exists q.
  split; [reflexivity|]. split; [exact Hq|].
  cbn [artists xlim ylim aspect app]. repeat split.
Qed.

Lemma frame_labels_eq (progress : float) (style phase : string) :
  frame_labels progress style phase
  = match Py.int (progress * 100)%float with
    | Ok percent => [(Py.str percent ++ "%")%string]
    | Raise _ => []
    end.
Proof.
  unfold frame_labels, create_visualization.
  destruct (Py.int (progress * 100)) as [z|e]; [|reflexivity].
  cbn [res_bind]. unfold labels. cbn [artists].
  now rewrite flat_map_app, shapes_no_text.
Qed.

(** X16.  The labels of one cycle, for every style: the 21 inhale frames
    read 0%, 5%, ..., 100%; the 21 exhale frames read 100%, 95%, ... down to
    0% except that the frames of progress [1 - 11/20], [1 - 16/20] and
    [1 - 18/20] read 44%, 19% and 9%, their binary64 progress lying just
    below 0.45, 0.2 and 0.1. *)
Theorem labels_over_cycle (style : string) :
  phase_labels "inhale" inhale_progress style
  = ["0%"; "5%"; "10%"; "15%"; "20%"; "25%"; "30%"; "35%"; "40%"; "45%";
     "50%"; "55%"; "60%"; "65%"; "70%"; "75%"; "80%"; "85%"; "90%"; "95%";
     "100%"] /\
  phase_labels "exhale" exhale_progress style
  = ["100%"; "95%"; "90%"; "85%"; "80%"; "75%"; "70%"; "65%"; "60%"; "55%";
     "50%"; "44%"; "40%"; "35%"; "30%"; "25%"; "19%"; "15%"; "9%"; "5%";
     "0%"].
Proof.
  unfold phase_labels.
  split; (erewrite flat_map_ext by (intros; apply frame_labels_eq));
    vm_compute; reflexivity.
Qed.

(** X17.  The filled circle over one cycle of the Circle style: along the
    21 inhale frames its radius grows strictly from 0.05 to 0.45, the radius
    of the dashed reference circle, and along the 21 exhale frames it
    shrinks strictly from 0.45 back to 0.05. *)
Theorem circle_over_cycle :
  List.length (phase_radii "inhale" inhale_progress) = 21%nat /\
  increasing (phase_radii "inhale" inhale_progress) = true /\
  hd 0%float (phase_radii "inhale" inhale_progress) = 0.05%float /\
  last (phase_radii "inhale" inhale_progress) 0%float = 0.45%float /\
  List.length (phase_radii "exhale" exhale_progress) = 21%nat /\
  decreasing (phase_radii "exhale" exhale_progress) = true /\
  hd 0%float (phase_radii "exhale" exhale_progress) = 0.45%float /\
  last (phase_radii "exhale" exhale_progress) 0%float = 0.05%float.
Proof. repeat split; vm_compute; reflexivity. Qed.

(** *** The Lung and Wave curves at progress 0 *)

Lemma product_digits (a b : positive) :
  Zdigits2 (Z.pos a) <= 53 -> Zdigits2 (Z.pos b) <= 53 ->
  Zdigits2 (Z.pos (a * b)) <= 106.
Proof.
  intros Ha Hb. apply Zdigits2_le; [lia|]. split; [lia|].
  pose proof (Zdigits2_bounds a) as [_ Ha'].
  pose proof (Zdigits2_bounds b) as [_ Hb'].
  assert (Z.pos a < 2 ^ 53).
  { eapply Z.lt_le_trans; [exact Ha'|]. apply Z.pow_le_mono_r; lia. }
  assert (Z.pos b < 2 ^ 53).
  { eapply Z.lt_le_trans; [exact Hb'|]. apply Z.pow_le_mono_r; lia. }
  rewrite Pos2Z.inj_mul. change (2 ^ 106) with (2 ^ 53 * 2 ^ 53).
  apply Z.mul_lt_mono_nonneg; lia.
Qed.

Lemma valid_exponent (s : bool) (m : positive) (e : Z) :
  SpecFloat.valid_binary prec emax (S754_finite s m e) = true -> e <= 971.
Proof.
  cbn [SpecFloat.valid_binary]. unfold bounded. intros H.
  apply andb_true_iff in H. destruct H as [_ He].
  apply Z.leb_le in He. exact He.
Qed.

(** A product of two finite numbers whose exponents are not too large is a
    zero or a finite number. *)
Lemma SFmul_finite (sx : bool) (mx : positive) (ex : Z) (sy : bool)
  (my : positive) (ey : Z) :
  Zdigits2 (Z.pos mx) <= 53 -> Zdigits2 (Z.pos my) <= 53 ->
  ex + ey + 54 <= 971 ->
  SFmul prec emax (S754_finite sx mx ex) (S754_finite sy my ey)
  = S754_zero (xorb sx sy) \/
  exists m e,
    SFmul prec emax (S754_finite sx mx ex) (S754_finite sy my ey)
    = S754_finite (xorb sx sy) m e.
Proof.
  intros Hx Hy He. unfold SFmul.
  pose proof (product_digits mx my Hx Hy) as Hd.
  destruct (binary_round_aux_form (xorb sx sy) (Z.pos (mx * my)) (ex + ey)
              loc_Exact) as [Hz|(m & e & Hf & _)]; [lia | lia | now left |].
  right. now exists m, e.
Qed.

Lemma lung_flat (s : float) :
  isfinite s = true ->
  (0.5 + 0.2 * s * 0 = 0.5)%float /\ (0.5 - 0.2 * s * 0 = 0.5)%float.
Proof.
  unfold isfinite. intros Hs.
  pose proof (Prim2SF_valid s) as Hv.
  assert (Hp : exists z, Prim2SF (0.2 * s * 0) = S754_zero z).
  { rewrite !mul_spec.
    change (Prim2SF 0.2) with (S754_finite false 7205759403792794 (-55)).
    change (Prim2SF 0) with (S754_zero false).
    destruct (Prim2SF s) as [z|z| |z m e]; try discriminate.
    - now exists (xorb (xorb false z) false).
    - destruct (valid_digits _ _ _ Hv) as [Hd _].
      pose proof (valid_exponent _ _ _ Hv) as He.
      unfold SF64mul at 2.
      destruct (SFmul_finite false 7205759403792794 (-55) z m e)
        as [Hz|(m' & e' & Hf)]; [reflexivity | exact Hd | lia | |].
      + rewrite Hz. now eexists.
      + rewrite Hf. now eexists. }
  destruct Hp as [z Hz].
  split; apply Prim2SF_inj.
  - rewrite add_spec, Hz. destruct z; reflexivity.
  - rewrite sub_spec, Hz. destruct z; reflexivity.
Qed.

Lemma wave_flat (s : float) :
  isfinite s = true -> (0.5 + 0 * 0.4 * s = 0.5)%float.
Proof.
  unfold isfinite. intros Hs. apply Prim2SF_inj.
  rewrite add_spec, mul_spec.
  change (Prim2SF (0 * 0.4)) with (S754_zero false).
  destruct (Prim2SF s) as [z|z| |z m e]; try discriminate;
    destruct z; reflexivity.
Qed.

(** X15.  At progress 0 the Lung and Wave shapes are flat: when numpy's
    sine is finite at the sample points, both outlines of the Lung style
    and the curve of the Wave style are the constant 0.5 at every sample
    point, and the label reads 0%. *)
Theorem flat_at_zero (phase : string) :
  (forallb (fun xi => isfinite (np_sin (np_pi * xi)))
     (np_linspace 0%float 1%float 100) = true ->
   let x := np_linspace 0%float 1%float 100 in
   let flat := map (fun _ => 0.5%float) x in
   exists fig,
     create_visualization 0%float "Lung" phase = Ok fig /\
     artists fig
     = [ FillBetween x (YArray flat) flat "pink" 0.7%float;
         Line2D x flat "red" (Some 0.8%float) None;
         Line2D x flat "red" (Some 0.8%float) None;
         Text 0.5%float 0.05%float "0%" "center" "center" 16 "black" ]) /\
  (forallb (fun xi => isfinite (np_sin xi))
     (np_linspace 0%float (2 * np_pi)%float 100) = true ->
   let x := np_linspace 0%float (2 * np_pi)%float 100 in
   let flat := map (fun _ => 0.5%float) x in
   exists fig,
     create_visualization 0%float "Wave" phase = Ok fig /\
     artists fig
     = [ Line2D x flat "blue" None (Some 3);
         FillBetween x (YScalar 0.5%float) flat "lightblue" 0.7%float;
         Text 0.5%float 0.05%float "0%" "center" "center" 16 "black" ]).
Proof.
  split; intros Hfin x flat; rewrite forallb_forall in Hfin.
  - assert (H1 : map (fun b => (0.5 + b)%float)
                   (map (fun xi => (0.2 * np_sin (np_pi * xi) * 0)%float) x)
                 = flat).
    { rewrite map_map. apply map_ext_in. intros xi Hxi.
      apply (lung_flat _ (Hfin xi Hxi)). }
    assert (H2 : map (fun b => (0.5 - b)%float)
                   (map (fun xi => (0.2 * np_sin (np_pi * xi) * 0)%float) x)
                 = flat).
    { rewrite map_map. apply map_ext_in. intros xi Hxi.
      apply (lung_flat _ (Hfin xi Hxi)). }
    eexists. split; [reflexivity|].
    cbn [artists]. unfold shapes. cbn [String.eqb Ascii.eqb Bool.eqb].
    fold x. rewrite H1, H2. reflexivity.
  - assert (H1 : map (fun xi => (0.5 + 0 * 0.4 * np_sin xi)%float) x = flat).
    { apply map_ext_in. intros xi Hxi. apply (wave_flat _ (Hfin xi Hxi)). }
    eexists. split; [reflexivity|].
    cbn [artists]. unfold shapes. cbn [String.eqb Ascii.eqb Bool.eqb].
    fold x. rewrite H1. reflexivity.
Qed.

(** X22.  The axes follow the style (lines 198-204): for every progress
    between 0 and 1 the figure is 8 by 6 with y-limits (0, 1), hidden axes
    and a tight layout; the x-limits are (0, 2 pi) for the Wave style and
    (0, 1) for every other style; the aspect is "equal" for the Circle
    style and "auto" for every other style. *)
Theorem axes_follow_style (progress : float) (style phase : string) :
  (0 <=? progress)%float = true -> (progress <=? 1)%float = true ->
  exists fig,
    create_visualization progress style phase = Ok fig /\
    figsize fig = (8, 6) /\
    ylim fig = (0%float, 1%float) /\
    axis_off fig = true /\ tight_layout fig = true /\
    (style = "Wave" -> xlim fig = (0, 2 * np_pi)%float) /\
    (style <> "Wave" -> xlim fig = (0, 1)%float) /\
    (style = "Circle" -> aspect fig = "equal") /\
    (style <> "Circle" -> aspect fig = "auto").
Proof.
  intros H0 H1.
  destruct (percent_is_floor progress H0 H1) as (q & _ & Hint).
  unfold create_visualization. rewrite Hint. cbn [res_bind].
  eexists. split; [reflexivity|].
  cbn [figsize xlim ylim aspect axis_off tight_layout].
  repeat (split; [reflexivity|]).
  destruct (String.eqb_spec style "Circle") as [Hc|Hc];
    destruct (String.eqb_spec style "Wave") as [Hw|Hw];
    repeat split; intros; congruence.
Qed.

(** ** Every frame is held for its step *)

Lemma frames_held_app (inhale_time exhale_time : float)
  (a b : list Event) :
  frames_held inhale_time exhale_time a ->
  frames_held inhale_time exhale_time b ->
  frames_held inhale_time exhale_time (a ++ b).
Proof.
  induction a as [|e a IH]; intros Ha Hb; [exact Hb|].
  destruct e as [s|ph p fig|d|c|msg]; cbn [app frames_held] in *;
    try (apply IH; assumption).
  destruct Ha as [Hnext Ha]. split; [|now apply IH].
  destruct a as [|[| |d| |] a]; try contradiction. exact Hnext.
Qed.

Lemma frames_held_found (inhale_time exhale_time : float)
  (pre : list Event) (phase : string) (progress : float) (fig : Figure)
  (post : list Event) :
  frames_held inhale_time exhale_time (pre ++ EFrame phase progress fig :: post) ->
  exists post',
    post = ESleep (step_seconds inhale_time exhale_time phase) :: post'.
Proof.
  induction pre as [|e pre IH]; cbn [app frames_held].
  - intros [Hnext _]. destruct post as [|[| |d| |] post]; try contradiction.
    exists post. now rewrite Hnext.
  - destruct e; try exact IH. intros [_ H]. exact (IH H).
Qed.

Section Held.

Variables inhale_time exhale_time : float.

Lemma logs_ret {A : Type} (a : A) :
  logs (frames_held inhale_time exhale_time) (ret a).
Proof.
  intros w. exists []. cbn. rewrite app_nil_r. now split.
Qed.

Lemma logs_bind {A B : Type} (c : M A) (k : A -> M B) :
  logs (frames_held inhale_time exhale_time) c ->
  (forall a, logs (frames_held inhale_time exhale_time) (k a)) ->
  logs (frames_held inhale_time exhale_time) (bind c k).
Proof.
  intros Hc Hk w. destruct (Hc w) as (evs & Ht & Hf). unfold bind.
  destruct (c w) as [a w'|e w'|w']; cbn [world_of] in Ht.
  - destruct (Hk a w') as (evs' & Ht' & Hf'). exists (evs ++ evs'). split.
    + now rewrite Ht', Ht, app_assoc.
    + now apply frames_held_app.
  - now exists evs.
  - now exists evs.
Qed.

(** A statement that logs no frame. *)
Lemma logs_no_frame {A : Type} (c : M A) :
  emits (fun e => forall ph p fig, e <> EFrame ph p fig) c ->
  logs (frames_held inhale_time exhale_time) c.
Proof.
  intros Hc w. destruct (Hc w) as (evs & Ht & Hf). exists evs.
  split; [exact Ht|]. clear Ht.
  induction Hf as [|e evs He _ IH]; [exact I|].
  destruct e as [s|ph p fig|d|c'|msg]; cbn [frames_held]; try exact IH.
  now elim (He ph p fig).
Qed.

Lemma logs_phase_step (phase : string) (progress_of : Z -> float)
  (viz_style : string) (i : Z) :
  logs (frames_held inhale_time exhale_time)
    (phase_step phase progress_of
       (step_seconds inhale_time exhale_time phase) viz_style i).
Proof.
  intros w. unfold phase_step, bind, show_frame.
  destruct (create_visualization (progress_of i) viz_style phase) as [fig|e].
  - destruct (render_failure env (shown w)) as [e|].
    + exists []. cbn. rewrite app_nil_r. now split.
    + eexists [EFrame phase (progress_of i) fig; ESleep _; ECheck _].
      cbn [sleep get_running ret world_of log trace].
      rewrite <- !app_assoc. split; [reflexivity|].
      cbn [frames_held]. auto.
  - exists []. cbn. rewrite app_nil_r. now split.
Qed.

Lemma logs_for_each {X : Type} (xs : list X) (body : X -> M bool) :
  (forall x, logs (frames_held inhale_time exhale_time) (body x)) ->
  logs (frames_held inhale_time exhale_time) (for_each xs body).
Proof.
  intros H. induction xs as [|x xs IH]; cbn [for_each].
  - apply logs_ret.
  - apply logs_bind; [apply H|]. intros [|]; [apply logs_ret | exact IH].
Qed.

Lemma logs_cycle (fuel : nat) (hold_time : float) (viz_style : string) :
  logs (frames_held inhale_time exhale_time)
    (cycle fuel inhale_time exhale_time hold_time viz_style).
Proof.
  assert (Hcheck : logs (frames_held inhale_time exhale_time) get_running).
  { apply logs_no_frame, emits_get_running. discriminate. }
  assert (Hmark : forall s,
             logs (frames_held inhale_time exhale_time) (markdown s)).
  { intros s. apply logs_no_frame, emits_markdown. discriminate. }
  unfold cycle.
  apply logs_bind; [apply Hmark|]. intros _.
  apply logs_bind.
  { rewrite inhale_phase_steps. apply logs_for_each. intros i.
    apply (logs_phase_step "inhale"). }
  intros _. apply logs_bind; [exact Hcheck|].
  intros [|]; cbn [negb]; [|apply logs_ret].
  apply logs_bind.
  { apply logs_no_frame. unfold hold_phase.
    destruct (0 <? hold_time)%float; [|apply emits_ret].
    apply emits_bind; [apply emits_markdown; discriminate|]. intros _.
    apply emits_bind; [apply emits_now|]. intros hold_start.
    apply emits_hold_wait; discriminate. }
  intros _. apply logs_bind; [exact Hcheck|].
  intros [|]; cbn [negb]; [|apply logs_ret].
  apply logs_bind; [apply Hmark|]. intros _.
  apply logs_bind.
  { rewrite exhale_phase_steps. apply logs_for_each. intros i.
    apply (logs_phase_step "exhale"). }
  intros _. apply logs_ret.
Qed.

Lemma logs_animation_loop (fuel : nat) (hold_time : float)
  (viz_style : string) :
  logs (frames_held inhale_time exhale_time)
    (animation_loop fuel inhale_time exhale_time hold_time viz_style).
Proof.
  induction fuel as [|fuel IH]; cbn [animation_loop].
  - intros w. exists []. cbn. rewrite app_nil_r. now split.
  - apply logs_bind.
    { apply logs_no_frame, emits_get_running. discriminate. }
    intros [|]; cbn [negb]; [|apply logs_ret].
    apply logs_bind; [apply logs_cycle|].
    intros [|]; [apply logs_ret | exact IH].
Qed.

End Held.

(** What [run_breathing_animation] adds to the log of its loop: nothing, or
    the error message of the exception it caught. *)
Lemma run_trace (fuel : nat) (inhale_time exhale_time hold_time : float)
  (viz_style : string) (w : World) :
  exists tail,
    trace (world_of (run_breathing_animation fuel inhale_time exhale_time
                       hold_time viz_style w))
    = trace (world_of (animation_loop fuel inhale_time exhale_time hold_time
                         viz_style w)) ++ tail /\
    (tail = [] \/
     exists e, is_Exception e = true /\
               tail = [EError ("Animation error: " ++ exn_str e)%string]).
Proof.
  unfold run_breathing_animation.
  destruct (animation_loop fuel inhale_time exhale_time hold_time viz_style w)
    as [[] w'|e w'|w']; cbn [world_of].
  - exists []. rewrite app_nil_r. auto.
  - destruct (is_Exception e) eqn:He.
    + eexists. split; [reflexivity|]. right. now exists e.
    + exists []. cbn [world_of]. rewrite app_nil_r. auto.
  - exists []. rewrite app_nil_r. auto.
Qed.

(** X20.  Every frame is held for its step: whatever the environment does,
    in what [run_breathing_animation] logs each frame is followed at once
    by a suspension, of a twentieth of the inhale time after an inhale frame
    and of a twentieth of the exhale time after an exhale frame; no two
    frames are shown back to back and no frame is the last thing logged. *)
Theorem frames_are_held (fuel : nat)
  (inhale_time exhale_time hold_time : float) (viz_style : string)
  (w : World) :
  exists evs,
    trace (world_of (run_breathing_animation fuel inhale_time exhale_time
                       hold_time viz_style w))
    = trace w ++ evs /\
    forall pre phase progress fig post,
      evs = pre ++ EFrame phase progress fig :: post ->
      (phase = "inhale" \/ phase = "exhale") /\
      exists post',
        post
        = ESleep (if (phase =? "inhale")%string
                  then inhale_time / Py.float_of_Z steps
                  else exhale_time / Py.float_of_Z steps)%float :: post'.
Proof.
  destruct (run_trace fuel inhale_time exhale_time hold_time viz_style w)
    as (tail & Hrun & Htail).
  destruct (logs_animation_loop inhale_time exhale_time fuel hold_time
              viz_style w) as (evs & Htr & Hheld).
  destruct (emits_animation_loop inhale_time exhale_time hold_time viz_style
              fuel w) as (evs' & Htr' & Hok).
  assert (evs' = evs) as ->.
  { rewrite Htr in Htr'. now apply app_inv_head in Htr'. }
  exists (evs ++ tail). split; [now rewrite Hrun, Htr, app_assoc|].
  assert (Hall : frames_held inhale_time exhale_time (evs ++ tail)).
  { apply frames_held_app; [exact Hheld|].
    destruct Htail as [->|(e & _ & ->)]; exact I. }
  assert (Hok' : Forall (fun e => forall ph p fig,
                           e = EFrame ph p fig ->
                           ph = "inhale" \/ ph = "exhale") (evs ++ tail)).
  { apply Forall_app. split.
    - eapply Forall_impl; [|exact Hok].
      intros e He ph p fig ->. destruct He as (_ & i & _ & [[-> _]|[-> _]]);
        auto.
    - destruct Htail as [->|(e & _ & ->)]; repeat constructor; discriminate. }
  intros pre phase progress fig post Heq. split.
  - rewrite Forall_forall in Hok'.
    apply (Hok' (EFrame phase progress fig)) with (p := progress) (fig := fig);
      [|reflexivity].
    rewrite Heq. apply in_or_app. right. now left.
  - rewrite Heq in Hall.
    exact (frames_held_found _ _ _ _ _ _ _ Hall).
Qed.

(** The suspensions [run_breathing_animation] asks for. *)
Lemma run_sleeps (fuel : nat) (inhale_time exhale_time hold_time : float)
  (viz_style : string) (w : World) :
  exists evs,
    trace (world_of (run_breathing_animation fuel inhale_time exhale_time
                       hold_time viz_style w))
    = trace w ++ evs /\
    forall seconds,
      In seconds (sleeps_of evs) ->
      seconds = (inhale_time / Py.float_of_Z steps)%float \/
      seconds = (exhale_time / Py.float_of_Z steps)%float \/
      seconds = 0.1%float.
Proof.
  destruct (run_trace fuel inhale_time exhale_time hold_time viz_style w)
    as (tail & Hrun & Htail).
  destruct (emits_animation_loop inhale_time exhale_time hold_time viz_style
              fuel w) as (evs & Htr & Hok).
  exists (evs ++ tail). split; [now rewrite Hrun, Htr, app_assoc|].
  intros seconds Hin. rewrite sleeps_of_app in Hin.
  apply in_app_or in Hin. destruct Hin as [Hin|Hin].
  - unfold sleeps_of in Hin. apply in_flat_map in Hin.
    destruct Hin as (e & He & Hs). rewrite Forall_forall in Hok.
    specialize (Hok e He).
    destruct e; cbn in Hs; try contradiction.
    destruct Hs as [<-|[]]. exact Hok.
  - destruct Htail as [->|(e & _ & ->)]; cbn in Hin; contradiction.
Qed.

End App.

(** ** The claims on the percentages and the timings *)

Lemma scaled_is_floor_all :
  forallb (fun s => forallb (scaled_is_floor s) (zrange 10 71)) (zrange 20 221)
  = true.
Proof. vm_compute. reflexivity. Qed.

Lemma scaled_floor (s x : Z) :
  20 <= s <= 240 -> 10 <= x <= 80 ->
  exists scale_factor,
    Py.truediv 100 s = Ok scale_factor /\
    Py.int (Py.imul x scale_factor) = Ok (x * 100 / s).
Proof.
  intros Hs Hx.
  pose proof (forallb_zrange _ _ _ scaled_is_floor_all s ltac:(simpl; lia)) as H.
  cbv beta in H.
  pose proof (forallb_zrange _ _ _ H x ltac:(simpl; lia)) as H1.
  unfold scaled_is_floor in H1.
  destruct (Py.truediv 100 s) as [sf|]; [|discriminate].
  exists sf. split; [reflexivity|].
  destruct (Py.int (Py.imul x sf)) as [v|]; [|discriminate].
  apply Z.eqb_eq in H1. now subst.
Qed.

Lemma normalize_adjusts (i e h : Z) :
  10 <= i <= 80 -> 10 <= e <= 80 -> 0 <= h <= 80 -> i + e + h <> 100 ->
  normalize i e h
  = Ok (i * 100 / (i + e + h), e * 100 / (i + e + h),
        100 - i * 100 / (i + e + h) - e * 100 / (i + e + h)).
Proof.
  intros Hi He Hh Hne. unfold normalize.
  destruct (Z.eqb_spec (i + e + h) 100) as [|_]; [contradiction|]. simpl negb. cbv iota.
  destruct (scaled_floor (i + e + h) i ltac:(lia) Hi) as (sf & Hsf & Hi').
  destruct (scaled_floor (i + e + h) e ltac:(lia) He) as (sf' & Hsf' & He').
  rewrite Hsf in Hsf'. injection Hsf' as <-.
  rewrite Hsf. simpl res_bind. rewrite Hi'. simpl res_bind. rewrite He'. reflexivity.
Qed.

Lemma floors_fit (i e h : Z) :
  0 <= i -> 0 <= e -> 0 <= h -> 0 < i + e + h ->
  0 <= i * 100 / (i + e + h) /\ 0 <= e * 100 / (i + e + h) /\
  i * 100 / (i + e + h) + e * 100 / (i + e + h) <= 100.
Proof.
  intros Hi He Hh Hs.
  set (s := i + e + h) in *.
  assert (A : 0 <= i * 100 / s) by (apply Z.div_pos; lia).
  assert (B : 0 <= e * 100 / s) by (apply Z.div_pos; lia).
  repeat split; try assumption.
  pose proof (Z.mul_div_le (i * 100) s Hs).
  pose proof (Z.mul_div_le (e * 100) s Hs).
  assert (s * (i * 100 / s + e * 100 / s) <= s * 100) by lia.
  apply Z.mul_le_mono_pos_l in H1; assumption.
Qed.

(** C1.  For percentages within the bounds of the widgets whose sum is not
    100, lines 42-53 (with their binary64 arithmetic) give the triple
    [inhale' = floor(inhale * 100 / sum)], [exhale' = floor(exhale * 100 /
    sum)], [hold' = 100 - inhale' - exhale']; its components are
    non-negative and sum to 100. *)
Theorem normalize_rescales (inhale exhale hold : Z) :
  10 <= inhale <= 80 -> 10 <= exhale <= 80 -> 0 <= hold <= 80 ->
  inhale + exhale + hold <> 100 ->
  let sum := inhale + exhale + hold in
  let inhale' := inhale * 100 / sum in
  let exhale' := exhale * 100 / sum in
  let hold' := 100 - inhale' - exhale' in
  normalize inhale exhale hold = Ok (inhale', exhale', hold') /\
  0 <= inhale' /\ 0 <= exhale' /\ 0 <= hold' /\
  inhale' + exhale' + hold' = 100.
Proof.
  intros Hi He Hh Hne. cbv zeta.
  split; [apply normalize_adjusts; assumption|].
  destruct (floors_fit inhale exhale hold) as (A & B & C); lia.
Qed.

Lemma normalize_rescales_example :
  normalize 50 50 20 = Ok (41, 41, 18) /\
  0 <= 41 /\ 0 <= 41 /\ 0 <= 18 /\ 41 + 41 + 18 = 100.
Proof.
  exact (normalize_rescales 50 50 20 ltac:(lia) ltac:(lia) ltac:(lia) ltac:(lia)).
Defined.

(** C7.  When the three percentages sum to 100 they are passed through
    unchanged. *)
Theorem normalize_identity (inhale exhale hold : Z) :
  inhale + exhale + hold = 100 ->
  normalize inhale exhale hold = Ok (inhale, exhale, hold).
Proof.
  intros Hsum. unfold normalize.
  rewrite Hsum. reflexivity.
Qed.

Lemma normalize_identity_example : normalize 40 40 20 = Ok (40, 40, 20).
Proof. apply normalize_identity. reflexivity. Defined.

(** C9.  For percentages within the bounds of the widgets the hold
    percentage after lines 42-53 is never negative; when the sum is not 100
    it is [100 - floor(inhale * 100 / sum) - floor(exhale * 100 / sum)], and
    the two floors add up to at most 100. *)
Theorem hold_never_negative (inhale exhale hold : Z) :
  10 <= inhale <= 80 -> 10 <= exhale <= 80 -> 0 <= hold <= 80 ->
  exists inhale' exhale' hold',
    normalize inhale exhale hold = Ok (inhale', exhale', hold') /\
    0 <= hold' /\
    (inhale + exhale + hold <> 100 ->
     let sum := inhale + exhale + hold in
     hold' = 100 - inhale * 100 / sum - exhale * 100 / sum /\
     inhale * 100 / sum + exhale * 100 / sum <= 100).
Proof.
  intros Hi He Hh.
  destruct (Z.eq_dec (inhale + exhale + hold) 100) as [E|N].
  - exists inhale, exhale, hold. split; [unfold normalize; now rewrite E|].
    split; [lia|]. intros; contradiction.
  - eexists _, _, _. split; [apply normalize_adjusts; assumption|].
    destruct (floors_fit inhale exhale hold) as (A & B & C); try lia.
    cbv zeta. repeat split; lia.
Qed.

Lemma hold_never_negative_example :
  exists inhale' exhale' hold',
    normalize 80 80 0 = Ok (inhale', exhale', hold') /\
    0 <= hold' /\
    (80 + 80 + 0 <> 100 ->
     let sum := 80 + 80 + 0 in
     hold' = 100 - 80 * 100 / sum - 80 * 100 / sum /\
     80 * 100 / sum + 80 * 100 / sum <= 100).
Proof.
  exact (hold_never_negative 80 80 0 ltac:(lia) ltac:(lia) ltac:(lia)).
Defined.

Lemma phase_time_close_all :
  forallb (fun bpm => forallb (phase_time_close bpm) (zrange 0 101)) (zrange 1 30) = true.
Proof. vm_compute. reflexivity. Qed.

Lemma float_sums_close_all : forallb float_sums_close (zrange 1 30) = true.
Proof. vm_compute. reflexivity. Qed.

Lemma lookup_duration (bpm p : Z) :
  0 <= p <= 100 -> lookup (duration_table bpm) p = duration bpm p.
Proof.
  intros Hp. unfold lookup, duration_table, zrange.
  rewrite map_map.
  rewrite nth_indep with (d' := duration bpm (0 + Z.of_nat 0)).
  - rewrite (map_nth (fun k => duration bpm (0 + Z.of_nat k)) (seq 0 101) 0%nat).
    rewrite seq_nth by lia. f_equal. lia.
  - rewrite length_map, length_seq. lia.
Qed.

Lemma exact_seconds_sum (bpm a b c : Z) :
  0 < bpm -> a + b + c = 100 ->
  (exact_seconds bpm a + exact_seconds bpm b + exact_seconds bpm c
   == 60 # Z.to_pos bpm)%Q.
Proof.
  intros Hb Hs. unfold exact_seconds, Qdiv.
  rewrite <- !Qmult_plus_distr_l, <- !inject_Z_plus.
  replace (a * 60 + b * 60 + c * 60) with 6000 by lia.
  destruct bpm as [|p|p]; try lia.
  unfold Qeq, Qmult, Qinv, inject_Z. simpl. lia.
Qed.

(** C5.  For percentages that are non-negative and sum to 100 and a rate
    between 1 and 30 breaths per minute, each phase time of lines 56-58 is
    [(percent / 100) * (60 / breaths_per_minute)] in binary64; the exact sum
    of the three binary64 values is within 1e-9 of [60 / breaths_per_minute],
    and so is their binary64 sum of the binary64 cycle time. *)
Theorem durations_sum_to_cycle (bpm inhale exhale hold : Z) :
  1 <= bpm <= 30 -> 0 <= inhale -> 0 <= exhale -> 0 <= hold ->
  inhale + exhale + hold = 100 ->
  let total := (60 / Py.float_of_Z bpm)%float in
  let seconds := fun percent => (Py.float_of_Z percent / 100 * total)%float in
  total_cycle_time bpm = Ok total /\
  phase_times inhale exhale hold total
  = Ok {| inhale_time := seconds inhale; exhale_time := seconds exhale;
          hold_time := seconds hold |} /\
  (exists qi qe qh : Q,
      Py.to_Q (seconds inhale) = Some qi /\
      Py.to_Q (seconds exhale) = Some qe /\
      Py.to_Q (seconds hold) = Some qh /\
      (Qabs (qi + qe + qh - (60 # Z.to_pos bpm)) <= 1 # 1000000000)%Q) /\
  (abs (seconds inhale + seconds exhale + seconds hold - total) <=? 1e-9)%float
  = true.
Proof.
  intros Hb Hi He Hh Hs. cbv zeta.
  change (fun percent => (Py.float_of_Z percent / 100 * (60 / Py.float_of_Z bpm))%float)
    with (duration bpm).
  split; [|split; [|split]].
  - unfold total_cycle_time, Py.truediv.
    destruct (Z.eqb_spec bpm 0); [lia|]. reflexivity.
  - reflexivity.
  - pose proof (forallb_zrange _ _ _ phase_time_close_all bpm ltac:(simpl; lia)) as H.
    cbv beta in H.
    assert (close : forall p, 0 <= p <= 100 ->
              exists q, Py.to_Q (duration bpm p) = Some q /\
                        (Qabs (q - exact_seconds bpm p) <= 1 # 10000000000)%Q).
    { intros p Hp.
      pose proof (forallb_zrange _ _ _ H p ltac:(simpl; lia)) as H1.
      unfold phase_time_close in H1.
      destruct (Py.to_Q (duration bpm p)) as [q|]; [|discriminate].
      exists q. split; [reflexivity|]. now apply Qle_bool_iff. }
    destruct (close inhale ltac:(lia)) as (qi & Ei & Bi).
    destruct (close exhale ltac:(lia)) as (qe & Ee & Be).
    destruct (close hold ltac:(lia)) as (qh & Eh & Bh).
    exists qi, qe, qh. repeat split; try assumption.
    pose proof (exact_seconds_sum bpm inhale exhale hold ltac:(lia) Hs) as S.
    apply Qabs_Qle_condition in Bi, Be, Bh.
    apply Qabs_Qle_condition.
    rewrite <- S. split; lra.
  - pose proof (forallb_zrange _ _ _ float_sums_close_all bpm ltac:(simpl; lia)) as H.
    unfold float_sums_close in H.
    pose proof (forallb_zrange _ _ _ H inhale ltac:(simpl; lia)) as H1.
    cbv beta in H1.
    pose proof (forallb_zrange _ _ _ H1 exhale ltac:(simpl; lia)) as H2.
    unfold float_sum_close in H2.
    destruct (Z.ltb_spec 100 (inhale + exhale)); [lia|]. rewrite orb_false_l in H2.
    rewrite !lookup_duration in H2 by lia.
    replace (100 - inhale - exhale) with hold in H2 by lia. exact H2.
Qed.

Lemma durations_sum_to_cycle_example :
  total_cycle_time 6 = Ok 10%float /\
  phase_times 40 40 20 10%float
  = Ok {| inhale_time := 4%float; exhale_time := 4%float;
          hold_time := 2%float |} /\
  (exists qi qe qh : Q,
      Py.to_Q 4%float = Some qi /\
      Py.to_Q 4%float = Some qe /\
      Py.to_Q 2%float = Some qh /\
      (Qabs (qi + qe + qh - (60 # 6)) <= 1 # 1000000000)%Q) /\
  (abs (4 + 4 + 2 - 10) <=? 1e-9)%float = true.
Proof.
  exact (durations_sum_to_cycle 6 40 40 20 ltac:(lia) ltac:(lia) ltac:(lia)
           ltac:(lia) ltac:(reflexivity)).
Defined.

(** ** Further facts on the percentages *)

(** Quotient and remainder of a share scaled to a sum of 100. *)
Lemma share_division (x s : Z) :
  0 <= x -> 0 < s ->
  0 <= x * 100 / s /\
  s * (x * 100 / s) <= x * 100 < s * (x * 100 / s) + s.
Proof.
  intros Hx Hs.
  pose proof (Z.div_mod (x * 100) s ltac:(lia)) as Hdm.
  pose proof (Z.mod_pos_bound (x * 100) s Hs) as Hm.
  split; [apply Z.div_pos; lia | lia].
Qed.

(** What lines 42-53 give for percentages within the bounds of the
    widgets. *)
Lemma normalize_cases (i e h : Z) :
  10 <= i <= 80 -> 10 <= e <= 80 -> 0 <= h <= 80 ->
  exists i' e' h',
    normalize i e h = Ok (i', e', h') /\
    i' + e' + h' = 100 /\
    1 <= i' /\ 1 <= e' /\ 0 <= h' /\
    ((i + e + h = 100 /\ i' = i /\ e' = e /\ h' = h) \/
     (i + e + h <> 100 /\
      i' = i * 100 / (i + e + h) /\ e' = e * 100 / (i + e + h))).
Proof.
  intros Hi He Hh.
  destruct (Z.eq_dec (i + e + h) 100) as [E|N].
  - exists i, e, h. split; [unfold normalize; now rewrite E|].
    split; [exact E|]. repeat (split; [lia|]). left. auto.
  - eexists _, _, _. split; [now apply normalize_adjusts|].
    split; [lia|].
    destruct (floors_fit i e h) as (A & B & C); [lia..|].
    destruct (share_division i (i + e + h)) as (_ & Bi); [lia..|].
    destruct (share_division e (i + e + h)) as (_ & Be); [lia..|].
    split; [nia|]. split; [nia|]. split; [lia|]. right. auto.
Qed.

(** X1.  Lines 42-53 are idempotent on widget input: the percentages they
    return sum to 100, so applying the same lines to them returns them
    unchanged. *)
Theorem normalize_idempotent (inhale exhale hold : Z) :
  10 <= inhale <= 80 -> 10 <= exhale <= 80 -> 0 <= hold <= 80 ->
  exists inhale' exhale' hold',
    normalize inhale exhale hold = Ok (inhale', exhale', hold') /\
    normalize inhale' exhale' hold' = Ok (inhale', exhale', hold').
Proof.
  intros Hi He Hh.
  destruct (normalize_cases inhale exhale hold Hi He Hh)
    as (i' & e' & h' & Hn & Hsum & _).
  exists i', e', h'. split; [exact Hn|].
  unfold normalize. now rewrite Hsum.
Qed.

(** X2.  The adjustment rounds the inhale and exhale shares down and gives
    the whole remainder to the hold share: when the sum is not 100, the
    adjusted inhale and exhale percentages are at most their exact shares,
    the adjusted hold percentage is at least its exact share and exceeds the
    floor of that share by at most 2; a hold of 0 becomes 0 or 1. *)
Theorem hold_takes_remainder (inhale exhale hold : Z) :
  10 <= inhale <= 80 -> 10 <= exhale <= 80 -> 0 <= hold <= 80 ->
  inhale + exhale + hold <> 100 ->
  exists inhale' exhale' hold',
    normalize inhale exhale hold = Ok (inhale', exhale', hold') /\
    inhale' * (inhale + exhale + hold) <= inhale * 100 /\
    exhale' * (inhale + exhale + hold) <= exhale * 100 /\
    hold * 100 <= hold' * (inhale + exhale + hold) /\
    hold * 100 / (inhale + exhale + hold) <= hold'
    <= hold * 100 / (inhale + exhale + hold) + 2 /\
    (hold = 0 -> 0 <= hold' <= 1).
Proof.
  intros Hi He Hh Hne.
  rewrite (normalize_adjusts inhale exhale hold Hi He Hh Hne).
  set (s := inhale + exhale + hold) in *.
  assert (Hs : 0 < s) by (unfold s; lia).
  destruct (share_division inhale s ltac:(lia) Hs) as (Ai & Bi).
  destruct (share_division exhale s ltac:(lia) Hs) as (Ae & Be).
  destruct (share_division hold s ltac:(lia) Hs) as (Ah & Bh).
  set (qi := inhale * 100 / s) in *.
  set (qe := exhale * 100 / s) in *.
  set (qh := hold * 100 / s) in *.
  assert (Htot : inhale * 100 + exhale * 100 + hold * 100 = s * 100)
    by (unfold s; lia).
  assert (Hlo : qh <= 100 - qi - qe) by nia.
  assert (Hhi : 100 - qi - qe <= qh + 2) by nia.
  eexists _, _, _. split; [reflexivity|].
  split; [lia|]. split; [lia|]. split; [nia|]. split; [lia|].
  intros H0. subst hold. unfold qh in *.
  rewrite Z.mul_0_l, Z.div_0_l in * by lia. split; [lia|nia].
Qed.

(** X3.  The adjustment keeps the order of inhale and exhale and moves both
    towards the sum of 100: equal inputs give equal outputs, the smaller
    input never gets the larger output, neither percentage grows when the
    sum was above 100 and neither shrinks when it was below. *)
Theorem normalize_keeps_order (inhale exhale hold : Z) :
  10 <= inhale <= 80 -> 10 <= exhale <= 80 -> 0 <= hold <= 80 ->
  exists inhale' exhale' hold',
    normalize inhale exhale hold = Ok (inhale', exhale', hold') /\
    (inhale <= exhale -> inhale' <= exhale') /\
    (inhale = exhale -> inhale' = exhale') /\
    (100 < inhale + exhale + hold -> inhale' <= inhale /\ exhale' <= exhale) /\
    (inhale + exhale + hold < 100 -> inhale <= inhale' /\ exhale <= exhale').
Proof.
  intros Hi He Hh.
  destruct (normalize_cases inhale exhale hold Hi He Hh)
    as (i' & e' & h' & Hn & _ & _ & _ & _
        & [(E & -> & -> & ->)|(N & -> & ->)]).
  - exists inhale, exhale, hold. split; [exact Hn|]. repeat split; lia.
  - eexists _, _, _. split; [exact Hn|].
    set (s := inhale + exhale + hold) in *.
    assert (Hs : 0 < s) by (unfold s; lia).
    destruct (share_division inhale s ltac:(lia) Hs) as (Ai & Bi).
    destruct (share_division exhale s ltac:(lia) Hs) as (Ae & Be).
    split; [intros; apply Z.div_le_mono; lia|].
    split; [now intros ->|].
    split; intros Hcmp; split; nia.
Qed.

(** X4.  The range of the adjusted percentages on widget input: inhale and
    exhale end between 5 and 88 and hold between 0 and 81, so they can
    leave the ranges the widgets enforce (10 to 80, and 0 to 80). *)
Theorem normalize_range (inhale exhale hold : Z) :
  10 <= inhale <= 80 -> 10 <= exhale <= 80 -> 0 <= hold <= 80 ->
  exists inhale' exhale' hold',
    normalize inhale exhale hold = Ok (inhale', exhale', hold') /\
    5 <= inhale' <= 88 /\ 5 <= exhale' <= 88 /\ 0 <= hold' <= 81.
Proof.
  intros Hi He Hh.
  destruct (normalize_cases inhale exhale hold Hi He Hh)
    as (i' & e' & h' & Hn & Hsum & _ & _ & _
        & [(E & -> & -> & ->)|(N & -> & ->)]).
  - exists inhale, exhale, hold. split; [exact Hn|]. lia.
  - eexists _, _, h'. split; [exact Hn|].
    set (s := inhale + exhale + hold) in *.
    assert (Hs : 0 < s) by (unfold s; lia).
    destruct (share_division inhale s ltac:(lia) Hs) as (Ai & Bi).
    destruct (share_division exhale s ltac:(lia) Hs) as (Ae & Be).
    set (qi := inhale * 100 / s) in *.
    set (qe := exhale * 100 / s) in *.
    assert (5 <= qi <= 88) by (unfold s in *; split; nia).
    assert (5 <= qe <= 88) by (unfold s in *; split; nia).
    assert (19 <= qi + qe <= 100) by (unfold s in *; split; nia).
    lia.
Qed.

(** ** Further facts on the timings *)

Lemma timings_value (bpm i e h i' e' h' : Z) :
  bpm <> 0 ->
  normalize i e h = Ok (i', e', h') ->
  timings bpm i e h
  = Ok {| inhale_time := duration bpm i'; exhale_time := duration bpm e';
          hold_time := duration bpm h' |}.
Proof.
  intros Hb Hn. unfold timings, total_cycle_time, Py.truediv.
  destruct (Z.eqb_spec bpm 0); [contradiction|].
  cbn [res_bind]. rewrite Hn. reflexivity.
Qed.

Lemma durations_in_cycle_all :
  forallb (fun bpm => cycle_time_in_range bpm
                      && negb (0 <? duration bpm 0)%float
                      && forallb (fun p =>
                                    (0 <=? duration bpm p)%float
                                    && (duration bpm p
                                        <=? 60 / Py.float_of_Z bpm)%float)
                           (zrange 0 101)
                      && forallb (duration_in_cycle bpm) (zrange 1 100))
    (zrange 1 30)
  = true.
Proof. vm_compute. reflexivity. Qed.

Lemma duration_facts (bpm p : Z) :
  1 <= bpm <= 30 -> 0 <= p <= 100 ->
  (0 <? duration bpm p)%float = (0 <? p) /\
  (0 <=? duration bpm p)%float = true /\
  (duration bpm p <=? 60 / Py.float_of_Z bpm)%float = true /\
  (2 <=? 60 / Py.float_of_Z bpm)%float = true /\
  (60 / Py.float_of_Z bpm <=? 60)%float = true.
Proof.
  intros Hb Hp.
  pose proof (forallb_zrange _ _ _ durations_in_cycle_all bpm
                ltac:(simpl; lia)) as H.
  cbv beta in H. rewrite !andb_true_iff in H.
  destruct H as [[[Hc Hz] Hin] Hall].
  unfold cycle_time_in_range in Hc. apply andb_true_iff in Hc.
  apply negb_true_iff in Hz.
  pose proof (forallb_zrange _ _ _ Hin p ltac:(simpl; lia)) as Hp'.
  cbv beta in Hp'. apply andb_true_iff in Hp'.
  split; [|tauto].
  destruct (Z.eq_dec p 0) as [->|Hp0]; [exact Hz|].
  pose proof (forallb_zrange _ _ _ Hall p ltac:(simpl; lia)) as H1.
  unfold duration_in_cycle in H1. apply andb_true_iff in H1.
  destruct H1 as [H1 _]. rewrite H1.
  symmetry. apply Z.ltb_lt. lia.
Qed.

(** X5.  On widget input (rate 1 to 30, inhale and exhale 10 to 80, hold 0
    to 80) lines 26-58 never fail: no division by zero occurs, the inhale
    and exhale times are positive, the hold time is not negative, none
    exceeds the cycle time, and the cycle time lies between 2 and 60
    seconds. *)
Theorem timings_defined (bpm inhale exhale hold : Z) :
  1 <= bpm <= 30 ->
  10 <= inhale <= 80 -> 10 <= exhale <= 80 -> 0 <= hold <= 80 ->
  exists t total,
    timings bpm inhale exhale hold = Ok t /\
    total_cycle_time bpm = Ok total /\
    (0 <? inhale_time t)%float = true /\
    (0 <? exhale_time t)%float = true /\
    (0 <=? hold_time t)%float = true /\
    (inhale_time t <=? total)%float = true /\
    (exhale_time t <=? total)%float = true /\
    (hold_time t <=? total)%float = true /\
    (2 <=? total)%float = true /\ (total <=? 60)%float = true.
Proof.
  intros Hb Hi He Hh.
  destruct (normalize_cases inhale exhale hold Hi He Hh)
    as (i' & e' & h' & Hn & Hsum & Ri & Re & Rh & _).
  rewrite (timings_value bpm inhale exhale hold i' e' h' ltac:(lia) Hn).
  destruct (duration_facts bpm i' Hb ltac:(lia)) as (Pi & _ & Ti & T2 & T60).
  destruct (duration_facts bpm e' Hb ltac:(lia)) as (Pe & _ & Te & _).
  destruct (duration_facts bpm h' Hb ltac:(lia)) as (_ & Ph & Th & _).
  eexists. exists (60 / Py.float_of_Z bpm)%float.
  split; [reflexivity|]. cbn [inhale_time exhale_time hold_time].
  split.
  { unfold total_cycle_time, Py.truediv.
    destruct (Z.eqb_spec bpm 0); [lia | reflexivity]. }
  rewrite Pi, Pe.
  repeat split; try assumption; apply Z.ltb_lt; lia.
Qed.

Lemma sorted_by_nth (before : float -> float -> bool) (l : list float) :
  sorted_by before l = true ->
  forall (a b : nat) (d : float),
    (a < b < List.length l)%nat -> before (nth a l d) (nth b l d) = true.
Proof.
  induction l as [|x l IH]; intros H a b d [Hab Hb]; [simpl in Hb; lia|].
  cbn [sorted_by] in H. apply andb_true_iff in H. destruct H as [Hx Hl].
  destruct b as [|b]; [lia|]. cbn [List.length] in Hb.
  destruct a as [|a]; cbn [nth].
  - rewrite forallb_forall in Hx. apply Hx, nth_In. lia.
  - apply IH; [exact Hl | lia].
Qed.

Lemma durations_sorted_all :
  forallb (fun bpm => sorted_by PrimFloat.ltb (duration_table bpm))
    (zrange 1 30)
  = true.
Proof. vm_compute. reflexivity. Qed.

Lemma rates_sorted_all :
  forallb (fun p => sorted_by (fun x y => (y <? x)%float) (rate_table p))
    (zrange 1 100)
  = true.
Proof. vm_compute. reflexivity. Qed.

Lemma lookup_rate (bpm p : Z) :
  1 <= bpm <= 30 ->
  nth (Z.to_nat (bpm - 1)) (rate_table p) 0%float = duration bpm p.
Proof.
  intros Hb. unfold rate_table, zrange. rewrite map_map.
  rewrite nth_indep with (d' := duration (1 + Z.of_nat 0) p).
  - rewrite (map_nth (fun k => duration (1 + Z.of_nat k) p) (seq 0 30) 0%nat).
    rewrite seq_nth by lia. f_equal. lia.
  - rewrite length_map, length_seq. lia.
Qed.

(** X6.  The phase times are monotone in both widgets: at every rate a
    larger percentage gives a strictly longer phase, and for every positive
    percentage a faster rate gives a strictly shorter phase (binary64
    values, rates 1 to 30, percentages 0 to 100). *)
Theorem durations_monotone (bpm bpm' p q : Z) :
  1 <= bpm -> bpm < bpm' -> bpm' <= 30 ->
  0 <= p -> p < q -> q <= 100 ->
  (duration bpm p <? duration bpm q)%float = true /\
  (duration bpm' p <? duration bpm' q)%float = true /\
  (duration bpm' q <? duration bpm q)%float = true.
Proof.
  intros Hb1 Hb Hb2 Hp Hpq Hq.
  assert (rows : forall r, 1 <= r <= 30 ->
            (duration r p <? duration r q)%float = true).
  { intros r Hr.
    pose proof (forallb_zrange _ _ _ durations_sorted_all r
                  ltac:(simpl; lia)) as H.
    pose proof (sorted_by_nth _ _ H (Z.to_nat p) (Z.to_nat q) 0%float) as H1.
    fold (lookup (duration_table r) p) in H1.
    fold (lookup (duration_table r) q) in H1.
    rewrite !lookup_duration in H1 by lia.
    apply H1. unfold duration_table, zrange.
    rewrite !length_map, length_seq. lia. }
  split; [apply rows; lia|]. split; [apply rows; lia|].
  pose proof (forallb_zrange _ _ _ rates_sorted_all q ltac:(simpl; lia)) as H.
  pose proof (sorted_by_nth _ _ H (Z.to_nat (bpm - 1)) (Z.to_nat (bpm' - 1))
                0%float) as H1.
  cbv beta in H1. rewrite !lookup_rate in H1 by lia.
  apply H1. unfold rate_table, zrange. rewrite !length_map, length_seq. lia.
Qed.

(** X7.  The hold phase follows the adjusted hold percentage: on widget
    input the hold time is positive exactly when the adjusted hold
    percentage is; with a percentage of 0 the hold phase does nothing at all
    (no heading, no reading of the clock), and with a positive one it shows
    the heading "## Hold" and, after it, neither a heading nor a frame. *)
Theorem hold_phase_follows_percent (env : Env) (fuel : nat)
  (bpm inhale exhale hold : Z) (w : World) :
  1 <= bpm <= 30 ->
  10 <= inhale <= 80 -> 10 <= exhale <= 80 -> 0 <= hold <= 80 ->
  exists inhale' exhale' hold' t,
    normalize inhale exhale hold = Ok (inhale', exhale', hold') /\
    timings bpm inhale exhale hold = Ok t /\
    (0 <? hold_time t)%float = (0 <? hold') /\
    (hold' = 0 -> hold_phase env fuel (hold_time t) w = Done tt w) /\
    (0 < hold' ->
     exists evs,
       trace (world_of (hold_phase env fuel (hold_time t) w))
       = trace w ++ EMarkdown "## Hold" :: evs /\
       headings_of evs = [] /\ frames_of evs = []).
Proof.
  intros Hb Hi He Hh.
  destruct (normalize_cases inhale exhale hold Hi He Hh)
    as (i' & e' & h' & Hn & Hsum & Ri & Re & Rh & _).
  exists i', e', h'. eexists. split; [exact Hn|].
  rewrite (timings_value bpm inhale exhale hold i' e' h' ltac:(lia) Hn).
  split; [reflexivity|]. cbn [hold_time].
  destruct (duration_facts bpm h' Hb ltac:(lia)) as (Ph & _).
  split; [exact Ph|]. split.
  - intros ->. unfold hold_phase. now rewrite Ph.
  - intros Hpos. apply hold_phase_announced. rewrite Ph.
    apply Z.ltb_lt, Hpos.
Qed.

(** ** The buttons *)

Lemma set_running_same (w : World) : set_running (running w) w = w.
Proof. destruct w; reflexivity. Qed.

(** X18.  The buttons decide what a run of the script does.  On widget
    input the timings are computed without error; then Stop wins over Start:
    with Stop pressed nothing is shown and the flag is cleared.  Without
    Stop, the animation runs with the timings of lines 56-58 when Start is
    pressed or when the flag is still set from an earlier run; otherwise
    nothing happens. *)
Theorem buttons_decide (np_sin : float -> float)
  (np_linspace : float -> float -> nat -> list float) (env : Env)
  (fuel : nat) (bpm inhale exhale hold : Z) (viz_style : string)
  (start_button stop_button : bool) (w : World) :
  1 <= bpm <= 30 ->
  10 <= inhale <= 80 -> 10 <= exhale <= 80 -> 0 <= hold <= 80 ->
  exists t,
    timings bpm inhale exhale hold = Ok t /\
    create_breathing_app np_sin np_linspace env fuel bpm inhale exhale hold
      viz_style start_button stop_button w
    = if stop_button then Done tt (set_running false w)
      else if start_button || running w
           then run_breathing_animation np_sin np_linspace env fuel
                  (inhale_time t) (exhale_time t) (hold_time t) viz_style
                  (set_running true w)
           else Done tt w.
Proof.
  intros Hb Hi He Hh.
  destruct (normalize_cases inhale exhale hold Hi He Hh)
    as (i' & e' & h' & Hn & _).
  pose proof (timings_value bpm inhale exhale hold i' e' h' ltac:(lia) Hn)
    as Ht.
  eexists. split; [exact Ht|].
  unfold create_breathing_app. rewrite Ht.
  cbn [inhale_time exhale_time hold_time].
  destruct stop_button, start_button; cbn [orb set_running running];
    try reflexivity.
  destruct (running w) eqn:Hw; [|reflexivity].
  assert (E : set_running true w = w)
    by (rewrite <- Hw; apply set_running_same).
  now rewrite E.
Qed.

Lemma steps_in_range_all :
  forallb (fun bpm => forallb (step_in_range bpm) (zrange 1 100))
    (zrange 1 30)
  = true.
Proof. vm_compute. reflexivity. Qed.

(** On widget input (rate 1 to 30, a share of 1 to 100 percent) the
    suspension after a frame is a duration that [time.sleep] accepts. *)
Lemma widget_steps_accepted (bpm p : Z) :
  1 <= bpm <= 30 -> 1 <= p <= 100 ->
  sleep_accepts (duration bpm p / Py.float_of_Z steps) = true.
Proof.
  intros Hb Hp.
  assert (H : forallb (fun b => forallb
                         (fun q => sleep_accepts
                                     (duration b q / Py.float_of_Z steps))
                         (zrange 1 100))
                (zrange 1 30) = true) by (vm_compute; reflexivity).
  pose proof (forallb_zrange _ _ _ H bpm ltac:(simpl; lia)) as H1.
  exact (forallb_zrange _ _ _ H1 p ltac:(simpl; lia)).
Qed.

(** X19.  On widget input every suspension the animation asks for is
    positive and at most three seconds long, whatever happens during the
    run: [time.sleep] is never called with a negative or non-finite
    argument. *)
Theorem sleeps_positive (np_sin : float -> float)
  (np_linspace : float -> float -> nat -> list float) (env : Env)
  (fuel : nat) (bpm inhale exhale hold : Z) (viz_style : string)
  (w : World) :
  1 <= bpm <= 30 ->
  10 <= inhale <= 80 -> 10 <= exhale <= 80 -> 0 <= hold <= 80 ->
  exists t evs,
    timings bpm inhale exhale hold = Ok t /\
    trace (world_of (run_breathing_animation np_sin np_linspace env fuel
                       (inhale_time t) (exhale_time t) (hold_time t)
                       viz_style w))
    = trace w ++ evs /\
    forall seconds,
      In seconds (sleeps_of evs) ->
      (0 <? seconds)%float = true /\ (seconds <=? 3)%float = true.
Proof.
  intros Hb Hi He Hh.
  destruct (normalize_cases inhale exhale hold Hi He Hh)
    as (i' & e' & h' & Hn & Hsum & Ri & Re & Rh & _).
  pose proof (timings_value bpm inhale exhale hold i' e' h' ltac:(lia) Hn)
    as Ht.
  destruct (run_sleeps np_sin np_linspace env fuel (duration bpm i')
              (duration bpm e') (duration bpm h') viz_style w)
    as (evs & Htr & Hs).
  eexists. exists evs. split; [exact Ht|].
  cbn [inhale_time exhale_time hold_time]. split; [exact Htr|].
  assert (Hstep : forall p, 1 <= p <= 100 ->
            (0 <? duration bpm p / Py.float_of_Z steps)%float = true /\
            (duration bpm p / Py.float_of_Z steps <=? 3)%float = true).
  { intros p Hp.
    pose proof (forallb_zrange _ _ _ steps_in_range_all bpm
                  ltac:(simpl; lia)) as H.
    pose proof (forallb_zrange _ _ _ H p ltac:(simpl; lia)) as H1.
    unfold step_in_range in H1. now apply andb_true_iff in H1. }
  intros seconds Hin.
  destruct (Hs seconds Hin) as [->|[->| ->]].
  - apply Hstep. lia.
  - apply Hstep. lia.
  - split; reflexivity.
Qed.

(** ** The filled circle stays within the reference circle *)

(** Rounding to nearest goes up only when the first dropped bit is set. *)
Lemma round_up_needs_bit (mrs : shr_record) :
  round_nearest_even (shr_m mrs) (loc_of_shr_record mrs)
  <= shr_m mrs + (if shr_r mrs then 1 else 0).
Proof.
  destruct mrs as [m r s]. cbn [shr_m shr_r].
  destruct r, s; cbn; try destruct (Z.even m); lia.
Qed.

(** The first dropped bit of [shr_fexp] on an exact number. *)
Lemma shr_fexp_r (mx ex : Z) :
  0 <= mx ->
  let n := fexp prec emax (Zdigits2 mx + ex) - ex in
  shr_r (fst (shr_fexp prec emax mx ex loc_Exact))
  = if 0 <? n then Z.testbit mx (n - 1) else false.
Proof.
  intros Hm n. unfold shr_fexp, shr. fold n.
  destruct n as [|p|p]; cbn [fst snd]; try reflexivity.
  rewrite iter_shr_r by (cbn; lia). reflexivity.
Qed.

(** A set bit [k - 1] puts the number at least half a unit above the
    multiple of [2 ^ k] below it. *)
Lemma bit_above_half (mx k : Z) :
  0 <= mx -> 0 < k -> Z.testbit mx (k - 1) = true ->
  2 * (mx / 2 ^ k) * 2 ^ k + 2 ^ k <= 2 * mx.
Proof.
  intros Hm Hk Hb.
  apply Z.testbit_true in Hb; [|lia].
  assert (Hp : 0 < 2 ^ (k - 1)) by (apply Z.pow_pos_nonneg; lia).
  assert (Hk2 : 2 ^ k = 2 ^ (k - 1) * 2).
  { replace k with (k - 1 + 1) at 1 by lia. rewrite Z.pow_add_r by lia.
    reflexivity. }
  pose proof (Z.div_mod (mx / 2 ^ (k - 1)) 2 ltac:(lia)) as Hdm.
  rewrite Hb in Hdm. rewrite Z.div_div in Hdm by lia. rewrite <- Hk2 in Hdm.
  pose proof (Z.mul_div_le mx (2 ^ (k - 1)) Hp) as Hle.
  rewrite Hk2 at 2 3. nia.
Qed.

(** Rounding a number of at least 53 bits, away from the smallest and the
    largest exponents: the result is a normal number at most half a unit in
    the last place above the number. *)
Lemma binary_round_aux_nearest (mx ex : Z) :
  0 < mx -> 53 <= Zdigits2 mx ->
  -1074 <= Zdigits2 mx + ex - 53 <= 970 ->
  exists m e,
    binary_round_aux prec emax false mx ex loc_Exact = S754_finite false m e /\
    Zdigits2 mx + ex - 53 <= e <= Zdigits2 mx + ex - 52 /\
    2 ^ 52 <= Z.pos m < 2 ^ 53 /\
    2 * (Z.pos m * 2 ^ (e - (Zdigits2 mx + ex - 53)))
      * 2 ^ (Zdigits2 mx - 53)
    <= 2 * mx + 2 ^ (Zdigits2 mx - 53).
Proof.
  intros Hmx Hd Hu. unfold binary_round_aux.
  pose proof (shr_fexp_spec mx ex loc_Exact ltac:(lia)) as [Hs1 He1].
  pose proof (shr_fexp_r mx ex ltac:(lia)) as Hr1.
  pose proof (shr_fexp_small mx ex loc_Exact ltac:(lia)) as Hsm.
  destruct (shr_fexp prec emax mx ex loc_Exact) as [mrs1 e1].
  cbn [fst snd] in Hs1, He1, Hsm, Hr1. cbv zeta in Hs1, Hr1.
  rewrite fexp_eq in Hs1, He1, Hr1.
  set (k := Zdigits2 mx - 53) in *.
  replace (Z.max (Zdigits2 mx + ex - 53) (-1074) - ex) with k
    in Hs1, Hr1 by (unfold k; lia).
  assert (Hk : 0 <= k) by (unfold k; lia).
  assert (Hpk : 0 < 2 ^ k) by (apply Z.pow_pos_nonneg; lia).
  assert (Hlow : 2 ^ 52 <= shr_m mrs1).
  { rewrite Hs1. destruct mx as [|p|p]; try lia.
    pose proof (Zdigits2_bounds p) as [Hlo _].
    destruct (Z.ltb_spec 0 k) as [Hn|Hn].
    - apply Z.div_le_lower_bound; [lia|].
      rewrite <- Z.pow_add_r by lia.
      replace (k + 52) with (Zdigits2 (Z.pos p) - 1) by (unfold k; lia).
      exact Hlo.
    - replace (Zdigits2 (Z.pos p)) with 53 in Hlo by (unfold k in *; lia).
      exact Hlo. }
  pose proof (round_nearest_even_bounds (shr_m mrs1)
                (loc_of_shr_record mrs1)) as Hr.
  pose proof (round_up_needs_bit mrs1) as Hup.
  set (m1 := round_nearest_even (shr_m mrs1) (loc_of_shr_record mrs1)) in *.
  assert (Hm1 : 2 ^ 52 <= m1 <= 2 ^ 53) by lia.
  assert (Hnear : 2 * m1 * 2 ^ k <= 2 * mx + 2 ^ k).
  { destruct (Z.ltb_spec 0 k) as [Hn|Hn].
    - pose proof (Z.mul_div_le mx (2 ^ k) Hpk) as Hq.
      destruct (shr_r mrs1) eqn:Hbit.
      + pose proof (bit_above_half mx k ltac:(lia) Hn (eq_sym Hr1)) as Hb.
        rewrite Hs1 in Hup. nia.
      + rewrite Hs1 in Hup. nia.
    - replace k with 0 in * by lia. rewrite Hr1 in Hup.
      rewrite Hs1 in Hup. change (2 ^ 0) with 1. lia. }
  pose proof (shr_fexp_spec m1 e1 loc_Exact ltac:(lia)) as [Hs2 He2].
  destruct (shr_fexp prec emax m1 e1 loc_Exact) as [mrs2 e2].
  cbn [fst snd] in Hs2, He2. cbv zeta in Hs2.
  assert (Hd1 : 53 <= Zdigits2 m1 <= 54).
  { split.
    - apply (Zdigits2_ge m1 52); lia.
    - apply Zdigits2_le; [lia|]. change (2 ^ 54) with (2 * 2 ^ 53). lia. }
  rewrite fexp_eq in Hs2, He2.
  assert (He1' : e1 = Zdigits2 mx + ex - 53) by lia.
  assert (Hm2 : shr_m mrs2 * 2 ^ (e2 - e1) = m1 /\ 0 <= e2 - e1 <= 1 /\
                2 ^ 52 <= shr_m mrs2 < 2 ^ 53).
  { rewrite Hs2, He2.
    destruct (Z.ltb_spec 0 (Z.max (Zdigits2 m1 + e1 - 53) (-1074) - e1))
      as [Hn|Hn].
    - replace (Z.max (Zdigits2 m1 + e1 - 53) (-1074) - e1) with 1 by lia.
      replace (Z.max e1 (Z.max (Zdigits2 m1 + e1 - 53) (-1074)) - e1)
        with 1 by lia.
      assert (Hd54 : Zdigits2 m1 = 54) by lia.
      assert (m1 = 2 ^ 53).
      { pose proof (Zdigits2_le m1 53 ltac:(lia)). lia. }
      replace m1 with (2 ^ 53) by lia.
      change (2 ^ 53 / 2 ^ 1) with (2 ^ 52). change (2 ^ 1) with 2.
      change (2 ^ 53) with (2 ^ 52 * 2). lia.
    - replace (Z.max e1 (Z.max (Zdigits2 m1 + e1 - 53) (-1074)) - e1)
        with 0 by lia.
      change (2 ^ 0) with 1.
      assert (Zdigits2 m1 = 53) by lia.
      pose proof (nonneg_lt_pow_digits m1 ltac:(lia)) as Hlt.
      replace (Zdigits2 m1) with 53 in Hlt by lia. lia. }
  destruct Hm2 as (Hm2 & Hde & Hrange).
  destruct (shr_m mrs2) as [|p|p]; try lia.
  replace (e2 <=? emax - prec) with true
    by (symmetry; apply Z.leb_le; unfold emax, prec; lia).
  exists p, e2. split; [reflexivity|]. split; [lia|]. split; [exact Hrange|].
  rewrite <- He1'. rewrite Hm2. exact Hnear.
Qed.

(** Rounding does not cross a normal number: a number less than half a unit
    in the last place above the normal number [N * 2 ^ eN] rounds to at most
    that number. *)
Lemma binary_round_aux_below (mx ex N eN : Z) :
  0 < mx -> 53 <= Zdigits2 mx ->
  -1074 <= Zdigits2 mx + ex - 53 <= 970 ->
  ex <= eN -> 2 ^ 52 <= N < 2 ^ 53 ->
  2 * mx < (2 * N + 1) * 2 ^ (eN - ex) ->
  exists m e,
    binary_round_aux prec emax false mx ex loc_Exact = S754_finite false m e /\
    2 ^ 52 <= Z.pos m < 2 ^ 53 /\
    (e < eN \/ (e = eN /\ Z.pos m <= N)).
Proof.
  intros Hmx Hd Hu Hex HN Hlt.
  destruct (binary_round_aux_nearest mx ex Hmx Hd Hu)
    as (m & e & Hf & He & Hm & Hnear).
  exists m, e. split; [exact Hf|]. split; [exact Hm|].
  set (d := Zdigits2 mx) in *.
  set (k := d - 53) in *.
  set (e0 := d + ex - 53) in *.
  assert (Hk : 0 <= k) by (unfold k; lia).
  assert (Hpk : 0 < 2 ^ k) by (apply Z.pow_pos_nonneg; lia).
  assert (Hbits : 2 ^ (d - 1) <= mx).
  { destruct mx as [|p|p]; try lia. apply (Zdigits2_bounds p). }
  assert (He0 : e0 <= eN).
  { destruct (Z.le_gt_cases e0 eN) as [H|H]; [exact H|exfalso].
    assert (Hpow : 2 ^ (eN - ex + 53) <= 2 ^ (d - 1))
      by (apply Z.pow_le_mono_r; unfold e0 in H; lia).
    rewrite Z.pow_add_r in Hpow by lia.
    assert (0 < 2 ^ (eN - ex)) by (apply Z.pow_pos_nonneg; lia).
    nia. }
  destruct (Z.lt_ge_cases e eN) as [Hlow|Hge]; [now left|right].
  assert (Hcase : e0 = eN \/ e0 = eN - 1) by lia.
  destruct Hcase as [H0|H1].
  - assert (Hkk : eN - ex = k) by (unfold e0, k in *; lia).
    rewrite Hkk in Hlt.
    assert (Hcases : e = e0 \/ e = e0 + 1) by lia.
    destruct Hcases as [-> | ->].
    + replace (e0 - e0) with 0 in Hnear by lia. change (2 ^ 0) with 1 in Hnear.
      split; [exact H0|]. nia.
    + exfalso. replace (e0 + 1 - e0) with 1 in Hnear by lia.
      change (2 ^ 1) with 2 in Hnear. nia.
  - assert (Hkk : eN - ex = k + 1) by (unfold e0, k in *; lia).
    rewrite Hkk, Z.pow_add_r in Hlt by lia. change (2 ^ 1) with 2 in Hlt.
    assert (e = e0 + 1) as -> by lia.
    replace (e0 + 1 - e0) with 1 in Hnear by lia.
    change (2 ^ 1) with 2 in Hnear.
    split; [lia|]. nia.
Qed.

(** The mantissa of a positive float that is at most 1. *)
Lemma at_most_one (m : positive) (e : Z) :
  SFleb (S754_finite false m e) (S754_finite false 4503599627370496 (-52))
  = true ->
  Zdigits2 (Z.pos m) <= 53 ->
  e <= -52 /\ Z.pos m <= 2 ^ (- e).
Proof.
  unfold SFleb, SFcompare. intros H Hd.
  pose proof (Zdigits2_bounds m) as [_ Hhi].
  destruct (Z.compare_spec e (-52)) as [Heq|Hlt|Hgt]; [| |discriminate].
  - rewrite Heq. split; [lia|].
    rewrite Pos.compare_cont_spec in H. cbn [Pos.switch_Eq] in H.
    assert (Hc : (m ?= 4503599627370496)%positive <> Gt).
    { intros Hg. rewrite Hg in H. discriminate. }
    exact Hc.
  - split; [lia|].
    assert (2 ^ Zdigits2 (Z.pos m) <= 2 ^ (- e))
      by (apply Z.pow_le_mono_r; lia).
    lia.
Qed.

(** Order of two positive floats by exponent, then mantissa. *)
Lemma SFleb_by_parts (m1 : positive) (e1 : Z) (m2 : positive) (e2 : Z) :
  e1 < e2 \/ (e1 = e2 /\ Z.pos m1 <= Z.pos m2) ->
  SFleb (S754_finite false m1 e1) (S754_finite false m2 e2) = true.
Proof.
  unfold SFleb, SFcompare. intros [Hlt|[-> Hle]].
  - destruct (Z.compare_spec e1 e2); [lia | reflexivity | lia].
  - rewrite Z.compare_refl, Pos.compare_cont_spec. cbn [Pos.switch_Eq].
    change ((m1 ?= m2)%positive <> Gt) in Hle.
    destruct (m1 ?= m2)%positive; [reflexivity | reflexivity | now elim Hle].
Qed.

(** The largest radius: for a progress between 0 and 1 the float
    [0.05 + progress * 0.4] is at most the float 0.45. *)
Lemma radius_maximum (progress : float) :
  (0 <=? progress)%float = true -> (progress <=? 1)%float = true ->
  (0.05 + progress * 0.4 <=? 0.45)%float = true.
Proof.
  intros H0 H1.
  pose proof (Prim2SF_valid (progress * 0.4)) as V4.
  rewrite leb_spec, add_spec, mul_spec.
  rewrite mul_spec in V4.
  rewrite leb_spec in H0, H1.
  pose proof (Prim2SF_valid progress) as Hv.
  change (Prim2SF 0.05) with (S754_finite false 7205759403792794 (-57)).
  change (Prim2SF 0.4) with (S754_finite false 7205759403792794 (-54)) in *.
  change (Prim2SF 0.45) with (S754_finite false 8106479329266893 (-54)).
  change (Prim2SF 0) with (S754_zero false) in H0.
  change (Prim2SF 1) with (S754_finite false 4503599627370496 (-52)) in H1.
  destruct (Prim2SF progress) as [s|s| |s m e].
  - destruct s; reflexivity.
  - destruct s; discriminate.
  - discriminate.
  - destruct s; [discriminate|].
    destruct (valid_digits _ _ _ Hv) as [Hdm _].
    destruct (at_most_one m e H1 Hdm) as [He Hm].
    clear H0 H1 Hv.
    unfold SF64mul, SFmul in *. cbn [xorb] in *.
    set (mx := Z.pos (m * 7205759403792794)) in *.
    set (ex := e + -54) in *.
    assert (Hd : 53 <= Zdigits2 mx <= 106).
    { unfold mx. rewrite Pos2Z.inj_mul. split.
      - apply (Zdigits2_ge _ 52); [lia|]. change (2 ^ 52) with 4503599627370496.
        lia.
      - apply Zdigits2_le; [lia|]. split; [lia|].
        pose proof (Zdigits2_bounds m) as [_ Hhi].
        assert (Z.pos m < 2 ^ 53).
        { eapply Z.lt_le_trans; [exact Hhi|]. apply Z.pow_le_mono_r; lia. }
        change (2 ^ 106) with (2 ^ 53 * 2 ^ 53).
        apply Z.mul_lt_mono_nonneg; lia. }
    destruct (Z.le_gt_cases (-1073) (Zdigits2 mx + ex - 53)) as [Hu|Hc].
    + destruct (binary_round_aux_below mx ex 7205759403792794 (-54))
        as (my & ey & HY & Hmy & Hyle).
      { unfold mx; lia. }
      { lia. }
      { unfold ex; lia. }
      { unfold ex; lia. }
      { change (2 ^ 52) with 4503599627370496.
        change (2 ^ 53) with 9007199254740992. lia. }
      { unfold mx, ex. rewrite Pos2Z.inj_mul.
        replace (-54 - (e + -54)) with (- e) by lia.
        assert (0 < 2 ^ (- e)) by (apply Z.pow_pos_nonneg; lia).
        nia. }
      rewrite HY in *. clear HY V4 Hd Hu. clearbody mx ex.
      destruct (SFadd_pos 7205759403792794 (-57) my ey) as (sp & Hsp & ->).
      set (emin := Z.min (-57) ey) in *.
      destruct (binary_round_spec false sp emin)
        as (mz & ez & -> & Hdz & Hez & Hmz & _).
      rewrite fexp_eq in Hez.
      assert (Hey : ey <= -54) by lia.
      assert (Hemin : emin <= -57 /\ emin <= ey) by (unfold emin; lia).
      assert (P1 : 0 < 2 ^ (-57 - emin)) by (apply Z.pow_pos_nonneg; lia).
      assert (P2 : 0 < 2 ^ (ey - emin)) by (apply Z.pow_pos_nonneg; lia).
      (* the sum lies between 2^-5 and 1 *)
      assert (Hlo : 2 ^ (-5 - emin) <= Z.pos sp).
      { replace (-5 - emin) with (52 + (-57 - emin)) by lia.
        rewrite Z.pow_add_r by lia. nia. }
      assert (Hhi : Z.pos sp < 2 ^ (- emin)).
      { assert (Ha : 7205759403792794 * 2 ^ (-57 - emin) < 2 ^ (-4 - emin)).
        { replace (-4 - emin) with (53 + (-57 - emin)) by lia.
          rewrite Z.pow_add_r by lia.
          change (2 ^ 53) with 9007199254740992. nia. }
        assert (Hb : Z.pos my * 2 ^ (ey - emin) < 2 ^ (-1 - emin)).
        { assert (2 ^ (53 + (ey - emin)) <= 2 ^ (-1 - emin))
            by (apply Z.pow_le_mono_r; lia).
          rewrite Z.pow_add_r in H by lia. nia. }
        assert (Hc : 2 ^ (- emin) = 2 ^ (-4 - emin) * 16).
        { replace (- emin) with (-4 - emin + 4) by lia.
          now rewrite Z.pow_add_r by lia. }
        assert (Hc' : 2 ^ (-1 - emin) = 2 ^ (-4 - emin) * 8).
        { replace (-1 - emin) with (-4 - emin + 3) by lia.
          now rewrite Z.pow_add_r by lia. }
        assert (0 < 2 ^ (-4 - emin)) by (apply Z.pow_pos_nonneg; lia).
        lia. }
      pose proof (Zdigits2_ge (Z.pos sp) (-5 - emin) ltac:(lia) Hlo) as Hd1.
      pose proof (Zdigits2_le (Z.pos sp) (- emin) ltac:(lia) ltac:(lia))
        as Hd2.
      assert (Hez' : ez <= -57 /\ ez <= emin
                     /\ ez <= Zdigits2 (Z.pos sp) + emin - 53) by lia.
      set (a := -57 - ez).
      assert (Pa : 0 < 2 ^ a) by (apply Z.pow_pos_nonneg; unfold a; lia).
      assert (Hmz' : Z.pos mz
                     = 7205759403792794 * 2 ^ a + Z.pos my * 2 ^ (ey - ez)).
      { rewrite Hmz, Hsp, Z.mul_add_distr_r, <- !Z.mul_assoc.
        rewrite <- !Z.pow_add_r by lia.
        unfold a. f_equal; do 2 f_equal; lia. }
      assert (Hy : Z.pos my * 2 ^ (ey - ez) <= 7205759403792794 * (2 ^ a * 8)).
      { replace (2 ^ a * 8) with (2 ^ (-54 - ez))
          by (replace (-54 - ez) with (a + 3) by (unfold a; lia);
              now rewrite Z.pow_add_r by (unfold a; lia)).
        destruct Hyle as [Hlt|[-> Hle]].
        - assert (Hp : 2 ^ (ey - ez + 1) <= 2 ^ (-54 - ez))
            by (apply Z.pow_le_mono_r; lia).
          rewrite Z.pow_add_r in Hp by lia. change (2 ^ 1) with 2 in Hp.
          assert (0 < 2 ^ (ey - ez)) by (apply Z.pow_pos_nonneg; lia).
          change (2 ^ 53) with 9007199254740992 in Hmy. nia.
        - assert (0 < 2 ^ (-54 - ez)) by (apply Z.pow_pos_nonneg; lia).
          nia. }
      destruct (binary_round_aux_below (Z.pos mz) ez 8106479329266893 (-54))
        as (mX & eX & -> & _ & HX).
      { lia. }
      { lia. }
      { lia. }
      { lia. }
      { change (2 ^ 52) with 4503599627370496.
        change (2 ^ 53) with 9007199254740992. lia. }
      { replace (-54 - ez) with (a + 3) by (unfold a; lia).
        rewrite Z.pow_add_r by (unfold a; lia). change (2 ^ 3) with 8.
        rewrite Hmz'. nia. }
      apply SFleb_by_parts. exact HX.
    + assert (T4 : binary_round_aux prec emax false mx ex loc_Exact
                   = S754_zero false \/
                   exists my ey,
                     binary_round_aux prec emax false mx ex loc_Exact
                     = S754_finite false my ey /\ ey <= -1073).
      { destruct (binary_round_aux_form false mx ex loc_Exact)
          as [Hz|(my & ey & Hf & Hey)]; [unfold mx; lia | lia | now left |].
        right. exists my, ey. split; [exact Hf|]. rewrite fexp_eq in Hey. lia. }
      rewrite (tiny_absorbed 7205759403792794 (-57) _ eq_refl ltac:(lia) V4 T4).
      reflexivity.
Qed.

(** X21.  In the Circle style the filled circle never exceeds the dashed
    reference circle: for every progress between 0 and 1 the figure holds
    the reference circle of radius 0.45 and one filled circle, whose radius
    is at most 0.45; at progress 1 the two radii are equal. *)
Theorem circle_within_reference (np_sin : float -> float)
  (np_linspace : float -> float -> nat -> list float) (progress : float)
  (phase : string) :
  (0 <=? progress)%float = true -> (progress <=? 1)%float = true ->
  exists fig radius,
    create_visualization np_sin np_linspace progress "Circle" phase = Ok fig /\
    filled_radii fig = [radius] /\
    (radius <=? 0.45)%float = true /\
    In (CirclePatch (0.5, 0.5)%float 0.45%float false "gray" (Some "--")
          0.5%float) (artists fig) /\
    ((0.1 + 1 * 0.8) / 2 = 0.45)%float.
Proof.
  intros H0 H1.
  destruct (percent_is_floor progress H0 H1) as (q & _ & Hint).
  unfold create_visualization. rewrite Hint. cbn [res_bind].
  eexists. exists ((0.1 + progress * 0.8) / 2)%float.
  split; [reflexivity|]. split; [reflexivity|]. split.
  - rewrite (radius_formula progress H0 H1).
    exact (radius_maximum progress H0 H1).
  - split; [|reflexivity]. cbn [artists]. apply in_or_app. left.
    right. now left.
Qed.

(** ** Sample runs *)

Lemma calm_hold_two_seconds :
  (0 <? 2)%float = true ->
  (forall j, (j < 19)%nat ->
     (time_time calm (clock_reads started + 1 + j)
      - time_time calm (clock_reads started) <? 2)%float = true) /\
  (time_time calm (clock_reads started + 1 + 19)
   - time_time calm (clock_reads started) <? 2)%float = false.
Proof.
  intros _. split; [|vm_compute; reflexivity].
  intros j Hj.
  do 19 (destruct j as [|j]; [vm_compute; reflexivity|]). lia.
Defined.

(** One cycle at 6 breaths per minute with the default percentages: 21
    inhale frames, two seconds of hold, 21 exhale frames. *)
Lemma one_full_cycle_example :
  exists w',
    cycle sample_sin sample_linspace calm 20 4 4 2 "Circle" started
    = Done false w' /\
    running w' = true /\
    frames_of (trace w')
    = map (fun i => ("inhale", inhale_progress i)) (Py.range 21)
      ++ map (fun i => ("exhale", exhale_progress i)) (Py.range 21) /\
    headings_of (trace w') = ["## Inhale"; "## Hold"; "## Exhale"].
Proof.
  destruct (one_full_cycle sample_sin sample_linspace calm 20 19 4 4 2
              "Circle" started eq_refl eq_refl eq_refl (fun _ => eq_refl)
              (fun _ => eq_refl) ltac:(lia) calm_hold_two_seconds)
    as (w' & Hrun & Hw & Htr & _).
  exists w'. split; [exact Hrun|]. split; [exact Hw|].
  rewrite Htr. split; vm_compute; reflexivity.
Defined.

(** C2 as stated fails.  In that cycle the exhale frame of step 11 shows
    the progress 0.44999999999999996, which is below the binary64 number
    nearest to 9/20; and consecutive values do not differ by exactly 1/20,
    neither as real numbers (already the first two inhale frames, 0 and
    0.05) nor in binary64 arithmetic (0.15 - 0.1 is not 0.05). *)
Lemma progress_not_nominal :
  match cycle sample_sin sample_linspace calm 20 4 4 2 "Circle" started with
  | Done _ w' =>
      nth_error (frames_of (trace w')) 0 = Some ("inhale", 0%float) /\
      nth_error (frames_of (trace w')) 1 = Some ("inhale", 0.05%float) /\
      exact_step 0 0.05 = false /\
      nth_error (frames_of (trace w')) 2 = Some ("inhale", 0.1%float) /\
      nth_error (frames_of (trace w')) 3 = Some ("inhale", 0.15%float) /\
      (0.15 - 0.1 =? nominal_progress 1)%float = false /\
      nth_error (frames_of (trace w')) 32
      = Some ("exhale", 0.44999999999999996%float) /\
      (0.44999999999999996 =? nominal_progress 9)%float = false /\
      (0.44999999999999996 <? nominal_progress 9)%float = true
  | _ => False
  end.
Proof. vm_compute. repeat split; reflexivity. Qed.

Lemma stop_in_3_quiet_before (j : nat) :
  (j < 3)%nat -> stop_during (stop_in 3) (sleeps started + j) = false.
Proof.
  intros Hj. do 3 (destruct j as [|j]; [reflexivity|]). lia.
Defined.

(** Stop during the suspension after the fourth inhale frame. *)
Lemma stop_during_inhale_example :
  exists w' evs,
    run_breathing_animation sample_sin sample_linspace (stop_in 3) 1 4 4 2
      "Circle" started = Done tt w' /\
    running w' = false /\
    sleeps w' = 4%nat /\
    trace w' = [] ++ evs /\
    frames_of evs
    = [("inhale", 0%float); ("inhale", 0.05%float); ("inhale", 0.1%float);
       ("inhale", 0.15%float)] /\
    headings_of evs = ["## Inhale"].
Proof.
  exact (stop_during_inhale sample_sin sample_linspace (stop_in 3) 0 3 4 4 2
           "Circle" started eq_refl ltac:(lia) stop_in_3_quiet_before eq_refl
           (fun _ _ => eq_refl)).
Defined.

Lemma failing_3_fine_before (e : PyExn) (j : nat) :
  (j < 3)%nat -> render_failure (failing 3 e) (shown started + j) = None.
Proof.
  intros Hj. do 3 (destruct j as [|j]; [reflexivity|]). lia.
Defined.

Lemma failing_25_fine_before (e : PyExn) (j : nat) :
  (j < 21 + 4)%nat -> render_failure (failing 25 e) (shown started + j) = None.
Proof.
  intros Hj. do 25 (destruct j as [|j]; [reflexivity|]). lia.
Defined.

Lemma failing_50_displayed :
  displays
    (animation_loop sample_sin sample_linspace
       (failing 50 (ExceptionInstance "RuntimeError" "boom")) 3 4 4 0
       "Circle")
    started 50.
Proof. unfold displays. vm_compute. lia. Defined.

(** A [RuntimeError] while a frame is displayed: the fourth inhale frame of
    the first cycle; the fifth exhale frame of the first cycle, after two
    seconds of hold; the ninth inhale frame of the second cycle. *)
Lemma exceptions_contained_example :
  (exists w1,
     run_breathing_animation sample_sin sample_linspace
       (failing 3 (ExceptionInstance "RuntimeError" "boom")) 1 4 4 2 "Circle"
       started = Done tt w1 /\
     running w1 = false /\
     exists evs,
       trace w1 = [] ++ evs ++ [EError "Animation error: boom"] /\
       List.length (frames_of evs) = 3%nat) /\
  (exists w1,
     run_breathing_animation sample_sin sample_linspace
       (failing 25 (ExceptionInstance "RuntimeError" "boom")) 21 4 4 2
       "Circle" started = Done tt w1 /\
     running w1 = false /\
     exists evs,
       trace w1 = [] ++ evs ++ [EError "Animation error: boom"] /\
       List.length (frames_of evs) = 25%nat) /\
  (exists w1,
     animation_loop sample_sin sample_linspace
       (failing 50 (ExceptionInstance "RuntimeError" "boom")) 3 4 4 0
       "Circle" started
     = Raised (ExceptionInstance "RuntimeError" "boom") w1 /\
     shown w1 = 51%nat /\
     running w1 = true /\
     List.length (frames_of (trace w1)) = 50%nat /\
     errors_of (trace w1) = [] /\
     run_breathing_animation sample_sin sample_linspace
       (failing 50 (ExceptionInstance "RuntimeError" "boom")) 3 4 4 0
       "Circle" started
     = Done tt
         (set_running false
            (log (EError "Animation error: boom") w1))).
Proof.
  split; [|split].
  - exact (proj1 (proj2 (proj2 (proj2
             (exceptions_contained sample_sin sample_linspace
                (failing 3 (ExceptionInstance "RuntimeError" "boom")) 0 4 4 2
                "Circle" started))))
             (ExceptionInstance "RuntimeError" "boom") 3%nat eq_refl eq_refl
             ltac:(lia) (fun _ _ => eq_refl)
             (failing_3_fine_before (ExceptionInstance "RuntimeError" "boom"))
             eq_refl eq_refl).
  - apply (proj2 (proj2 (proj2 (proj2 (proj2 (proj2
             (exceptions_contained sample_sin sample_linspace
                (failing 25 (ExceptionInstance "RuntimeError" "boom")) 20 4 4
                2 "Circle" started))))))
             (ExceptionInstance "RuntimeError" "boom") 19%nat 4%nat).
    + reflexivity.
    + reflexivity.
    + reflexivity.
    + lia.
    + lia.
    + vm_compute. discriminate.
    + exact calm_hold_two_seconds.
    + intros j _. reflexivity.
    + exact (failing_25_fine_before
               (ExceptionInstance "RuntimeError" "boom")).
    + reflexivity.
    + reflexivity.
  - exact (proj1 (proj2 (proj2 (proj2 (proj2 (proj2
             (exceptions_contained sample_sin sample_linspace
                (failing 50 (ExceptionInstance "RuntimeError" "boom")) 3 4 4
                0 "Circle" started))))))
             50%nat (ExceptionInstance "RuntimeError" "boom") eq_refl eq_refl
             failing_50_displayed eq_refl).
Defined.

(** C4 as stated fails: a [KeyboardInterrupt] raised while the fourth frame
    is displayed is not an instance of [Exception]; it leaves
    [run_breathing_animation], no message is shown and the flag stays
    set. *)
Lemma base_exception_propagates :
  match run_breathing_animation sample_sin sample_linspace
          (failing 3 (BaseExceptionOnly "KeyboardInterrupt" "")) 5 4 4 2
          "Circle" started with
  | Raised e w' =>
      e = BaseExceptionOnly "KeyboardInterrupt" "" /\
      running w' = true /\
      errors_of (trace w') = [] /\
      List.length (frames_of (trace w')) = 3%nat
  | _ => False
  end.
Proof. vm_compute. repeat split; reflexivity. Qed.

(** At progress one half the Circle figure shows "50%" and a filled circle
    of radius 0.25. *)
Lemma label_is_truncated_percent_example :
  exists fig,
    create_visualization sample_sin sample_linspace 0.5 "Circle" "inhale"
    = Ok fig /\
    labels fig = ["50%"] /\
    filled_radii fig = [0.25%float].
Proof.
  destruct (label_is_truncated_percent sample_sin sample_linspace 0.5
              "Circle" "inhale" eq_refl eq_refl)
    as (fig & q & Hfig & Hq & _ & Hl & Hc & _).
  exists fig. split; [exact Hfig|].
  vm_compute in Hq. injection Hq as <-.
  split; [rewrite Hl; vm_compute; reflexivity|].
  destruct (Hc eq_refl) as [_ Hr]. rewrite Hr. vm_compute. reflexivity.
Defined.

(** C8 as stated fails: the label is truncated, not rounded.  At progress
    0.999 the figure reads "99%" where rounding gives 100, and at the
    twelfth exhale frame of every cycle, whose progress [1 - 11 / 20] is the
    float just below 0.45, it reads "44%" where rounding gives 45. *)
Lemma label_not_rounded :
  ((0 <=? 0.999)%float = true /\ (0.999 <=? 1)%float = true /\
   exists fig q,
     create_visualization sample_sin sample_linspace 0.999 "Circle" "inhale"
     = Ok fig /\
     labels fig = ["99%"] /\
     Py.to_Q (0.999 * 100) = Some q /\
     round_half_up q = 100 /\ round_half_even q = 100) /\
  ((0 <=? exhale_progress 11)%float = true /\
   (exhale_progress 11 <=? 1)%float = true /\
   exists fig q,
     create_visualization sample_sin sample_linspace (exhale_progress 11)
       "Circle" "exhale" = Ok fig /\
     labels fig = ["44%"] /\
     Py.to_Q (exhale_progress 11 * 100) = Some q /\
     round_half_up q = 45 /\ round_half_even q = 45).
Proof.
  split; (split; [reflexivity|]; split; [reflexivity|]);
    eexists; eexists; repeat split; vm_compute; reflexivity.
Qed.

(** ** Sample runs of the further facts *)

Lemma normalize_idempotent_example :
  exists inhale' exhale' hold',
    normalize 50 50 20 = Ok (inhale', exhale', hold') /\
    normalize inhale' exhale' hold' = Ok (inhale', exhale', hold').
Proof.
  exact (normalize_idempotent 50 50 20 ltac:(lia) ltac:(lia) ltac:(lia)).
Defined.

(** With 10, 11 and 0 the exact shares are 47.6, 52.4 and 0: the adjusted
    hold percentage is 1. *)
Lemma hold_takes_remainder_example :
  exists inhale' exhale' hold',
    normalize 10 11 0 = Ok (inhale', exhale', hold') /\
    inhale' * (10 + 11 + 0) <= 10 * 100 /\
    exhale' * (10 + 11 + 0) <= 11 * 100 /\
    0 * 100 <= hold' * (10 + 11 + 0) /\
    0 * 100 / (10 + 11 + 0) <= hold' <= 0 * 100 / (10 + 11 + 0) + 2 /\
    (0 = 0 -> 0 <= hold' <= 1).
Proof.
  exact (hold_takes_remainder 10 11 0 ltac:(lia) ltac:(lia) ltac:(lia)
           ltac:(lia)).
Defined.

Lemma normalize_keeps_order_example :
  exists inhale' exhale' hold',
    normalize 30 50 60 = Ok (inhale', exhale', hold') /\
    (30 <= 50 -> inhale' <= exhale') /\
    (30 = 50 -> inhale' = exhale') /\
    (100 < 30 + 50 + 60 -> inhale' <= 30 /\ exhale' <= 50) /\
    (30 + 50 + 60 < 100 -> 30 <= inhale' /\ 50 <= exhale').
Proof.
  exact (normalize_keeps_order 30 50 60 ltac:(lia) ltac:(lia) ltac:(lia)).
Defined.

(** With 10, 80 and 80 the adjusted inhale percentage is 5. *)
Lemma normalize_range_example :
  exists inhale' exhale' hold',
    normalize 10 80 80 = Ok (inhale', exhale', hold') /\
    5 <= inhale' <= 88 /\ 5 <= exhale' <= 88 /\ 0 <= hold' <= 81.
Proof.
  exact (normalize_range 10 80 80 ltac:(lia) ltac:(lia) ltac:(lia)).
Defined.

Lemma timings_defined_example :
  exists t total,
    timings 6 40 40 20 = Ok t /\
    total_cycle_time 6 = Ok total /\
    (0 <? inhale_time t)%float = true /\
    (0 <? exhale_time t)%float = true /\
    (0 <=? hold_time t)%float = true /\
    (inhale_time t <=? total)%float = true /\
    (exhale_time t <=? total)%float = true /\
    (hold_time t <=? total)%float = true /\
    (2 <=? total)%float = true /\ (total <=? 60)%float = true.
Proof.
  exact (timings_defined 6 40 40 20 ltac:(lia) ltac:(lia) ltac:(lia)
           ltac:(lia)).
Defined.

Lemma durations_monotone_example :
  (duration 6 20 <? duration 6 40)%float = true /\
  (duration 12 20 <? duration 12 40)%float = true /\
  (duration 12 40 <? duration 6 40)%float = true.
Proof.
  exact (durations_monotone 6 12 20 40 ltac:(lia) ltac:(lia) ltac:(lia)
           ltac:(lia) ltac:(lia) ltac:(lia)).
Defined.

Lemma hold_phase_follows_percent_example :
  exists inhale' exhale' hold' t,
    normalize 50 50 0 = Ok (inhale', exhale', hold') /\
    timings 6 50 50 0 = Ok t /\
    (0 <? hold_time t)%float = (0 <? hold') /\
    (hold' = 0 -> hold_phase calm 5 (hold_time t) started = Done tt started) /\
    (0 < hold' ->
     exists evs,
       trace (world_of (hold_phase calm 5 (hold_time t) started))
       = trace started ++ EMarkdown "## Hold" :: evs /\
       headings_of evs = [] /\ frames_of evs = []).
Proof.
  exact (hold_phase_follows_percent calm 5 6 50 50 0 started ltac:(lia)
           ltac:(lia) ltac:(lia) ltac:(lia)).
Defined.

Lemma stop_in_quiet_before (k j : nat) :
  (j < k)%nat -> stop_during (stop_in k) (sleeps started + j) = false.
Proof.
  intros Hj. cbn. apply Nat.eqb_neq. lia.
Defined.

(** No hold phase, Stop during the suspension after the third exhale
    frame. *)
Lemma stop_during_exhale_example :
  exists w' evs,
    run_breathing_animation sample_sin sample_linspace (stop_in 23) 2 4 4 0
      "Circle" started = Done tt w' /\
    running w' = false /\
    sleeps w' = 24%nat /\
    trace w' = [] ++ evs /\
    frames_of evs
    = map (fun k => ("inhale", inhale_progress k)) (Py.range 21)
      ++ [("exhale", exhale_progress 0); ("exhale", exhale_progress 1);
          ("exhale", exhale_progress 2)] /\
    headings_of evs = ["## Inhale"; "## Exhale"].
Proof.
  apply (stop_during_exhale sample_sin sample_linspace (stop_in 23) 1 0 2 4 4
           0 "Circle" started).
  - reflexivity.
  - lia.
  - lia.
  - reflexivity.
  - intros H. vm_compute in H. discriminate.
  - intros j Hj. apply stop_in_quiet_before. lia.
  - reflexivity.
  - reflexivity.
Defined.

(** Two seconds of hold, Stop during the fourth suspension of the hold
    phase. *)
Lemma stop_during_hold_example :
  exists w' evs,
    run_breathing_animation sample_sin sample_linspace (stop_in 24) 20 4 4 2
      "Circle" started = Done tt w' /\
    running w' = false /\
    sleeps w' = 25%nat /\
    trace w' = [] ++ evs /\
    frames_of evs
    = map (fun i => ("inhale", inhale_progress i)) (Py.range 21) /\
    headings_of evs = ["## Inhale"; "## Hold"] /\
    sleeps_of evs = repeat (4 / 20)%float 21 ++ repeat 0.1%float 4.
Proof.
  apply (stop_during_hold sample_sin sample_linspace (stop_in 24) 20 3 4 4 2
           "Circle" started).
  - reflexivity.
  - reflexivity.
  - lia.
  - intros j Hj.
    do 4 (destruct j as [|j]; [vm_compute; reflexivity|]). lia.
  - intros j Hj. apply stop_in_quiet_before. lia.
  - reflexivity.
  - reflexivity.
Defined.

Lemma animation_never_ends_example :
  exists w',
    run_breathing_animation sample_sin sample_linspace calm 3 4 4 2 "Circle"
      started = OutOfFuel w' /\
    running w' = true /\
    errors_of (trace w') = errors_of (trace started).
Proof.
  exact (animation_never_ends sample_sin sample_linspace calm 3 4 4 2
           "Circle" started eq_refl eq_refl eq_refl (fun _ => eq_refl)
           (fun _ => eq_refl)).
Defined.

Lemma loop_repeats_example :
  exists w',
    run_breathing_animation sample_sin sample_linspace calm 2 5 5 0 "Wave"
      started = OutOfFuel w' /\
    running w' = true /\
    frames_of (trace w')
    = frames_of (trace started) ++ List.concat (repeat cycle_frames 2) /\
    headings_of (trace w')
    = headings_of (trace started)
      ++ List.concat (repeat ["## Inhale"; "## Exhale"] 2).
Proof.
  exact (loop_repeats sample_sin sample_linspace calm 2 5 5 0 "Wave" started
           eq_refl (fun _ => eq_refl) (fun _ => eq_refl) eq_refl).
Defined.

Lemma cycle_suspensions_example :
  exists w',
    cycle sample_sin sample_linspace calm 20 4 4 2 "Circle" started
    = Done false w' /\
    sleeps_of (trace w')
    = sleeps_of (trace started)
      ++ repeat (4 / Py.float_of_Z steps)%float 21
      ++ (if (0 <? 2)%float then repeat 0.1%float 19 else [])
      ++ repeat (4 / Py.float_of_Z steps)%float 21.
Proof.
  exact (cycle_suspensions sample_sin sample_linspace calm 20 19 4 4 2
           "Circle" started eq_refl (fun _ => eq_refl) (fun _ => eq_refl)
           ltac:(lia) calm_hold_two_seconds).
Defined.

Lemma unknown_style_label_only_example :
  exists fig q,
    create_visualization sample_sin sample_linspace 0.5 "Square" "inhale"
    = Ok fig /\
    Py.to_Q (0.5 * 100) = Some q /\
    artists fig
    = [Text 0.5%float 0.05%float (Py.str (Qfloor q) ++ "%")%string
         "center" "center" 16 "black"] /\
    xlim fig = (0%float, 1%float) /\
    ylim fig = (0%float, 1%float) /\
    aspect fig = "auto".
Proof.
  apply (unknown_style_label_only sample_sin sample_linspace 0.5 "Square"
           "inhale"); first [discriminate | reflexivity].
Defined.

Lemma flat_at_zero_example :
  (exists fig,
     create_visualization sample_sin sample_linspace 0 "Lung" "inhale"
     = Ok fig /\
     artists fig
     = [ FillBetween (sample_linspace 0 1 100)
           (YArray (map (fun _ => 0.5%float) (sample_linspace 0 1 100)))
           (map (fun _ => 0.5%float) (sample_linspace 0 1 100)) "pink"
           0.7%float;
         Line2D (sample_linspace 0 1 100)
           (map (fun _ => 0.5%float) (sample_linspace 0 1 100)) "red"
           (Some 0.8%float) None;
         Line2D (sample_linspace 0 1 100)
           (map (fun _ => 0.5%float) (sample_linspace 0 1 100)) "red"
           (Some 0.8%float) None;
         Text 0.5%float 0.05%float "0%" "center" "center" 16 "black" ]) /\
  (exists fig,
     create_visualization sample_sin sample_linspace 0 "Wave" "exhale"
     = Ok fig /\
     artists fig
     = [ Line2D (sample_linspace 0 (2 * np_pi) 100)
           (map (fun _ => 0.5%float) (sample_linspace 0 (2 * np_pi) 100))
           "blue" None (Some 3);
         FillBetween (sample_linspace 0 (2 * np_pi) 100)
           (YScalar 0.5%float)
           (map (fun _ => 0.5%float) (sample_linspace 0 (2 * np_pi) 100))
           "lightblue" 0.7%float;
         Text 0.5%float 0.05%float "0%" "center" "center" 16 "black" ]).
Proof.
  split.
  - apply (proj1 (flat_at_zero sample_sin sample_linspace "inhale")).
    vm_compute. reflexivity.
  - apply (proj2 (flat_at_zero sample_sin sample_linspace "exhale")).
    vm_compute. reflexivity.
Defined.

(** Start and Stop pressed in the same run: nothing is shown. *)
Lemma buttons_decide_example :
  exists t,
    timings 6 40 40 20 = Ok t /\
    create_breathing_app sample_sin sample_linspace calm 1 6 40 40 20
      "Circle" true true started
    = Done tt (set_running false started).
Proof.
  exact (buttons_decide sample_sin sample_linspace calm 1 6 40 40 20 "Circle"
           true true started ltac:(lia) ltac:(lia) ltac:(lia) ltac:(lia)).
Defined.

Lemma sleeps_positive_example :
  exists t evs,
    timings 6 40 40 20 = Ok t /\
    trace (world_of (run_breathing_animation sample_sin sample_linspace
                       (stop_in 3) 5 (inhale_time t) (exhale_time t)
                       (hold_time t) "Circle" started))
    = trace started ++ evs /\
    forall seconds,
      In seconds (sleeps_of evs) ->
      (0 <? seconds)%float = true /\ (seconds <=? 3)%float = true.
Proof.
  exact (sleeps_positive sample_sin sample_linspace (stop_in 3) 5 6 40 40 20
           "Circle" started ltac:(lia) ltac:(lia) ltac:(lia) ltac:(lia)).
Defined.

Lemma circle_within_reference_example :
  exists fig radius,
    create_visualization sample_sin sample_linspace 0.95 "Circle" "inhale"
    = Ok fig /\
    filled_radii fig = [radius] /\
    (radius <=? 0.45)%float = true /\
    In (CirclePatch (0.5, 0.5)%float 0.45%float false "gray" (Some "--")
          0.5%float) (artists fig) /\
    ((0.1 + 1 * 0.8) / 2 = 0.45)%float.
Proof.
  exact (circle_within_reference sample_sin sample_linspace 0.95 "inhale"
           eq_refl eq_refl).
Defined.

Lemma axes_follow_style_example :
  exists fig,
    create_visualization sample_sin sample_linspace 0.5 "Wave" "inhale"
    = Ok fig /\
    figsize fig = (8, 6) /\
    ylim fig = (0%float, 1%float) /\
    axis_off fig = true /\ tight_layout fig = true /\
    ("Wave" = "Wave" -> xlim fig = (0, 2 * np_pi)%float) /\
    ("Wave" <> "Wave" -> xlim fig = (0, 1)%float) /\
    ("Wave" = "Circle" -> aspect fig = "equal") /\
    ("Wave" <> "Circle" -> aspect fig = "auto").
Proof.
  exact (axes_follow_style sample_sin sample_linspace 0.5 "Wave" "inhale"
           eq_refl eq_refl).
Defined.
